(** * Backtest engine and live signal generators: a shallow embedding

    The Python sources embedded here are
    - [panel_modules/backtest_simulator.py]   (trade simulator, statistics),
    - [panel_modules/backtest_indicators.py]  (RSI, SMA, EMA, MACD and
      volume spikes over pandas Series),
    - [panel_modules/backtest_strategies.py]  (the RSI, SMA, range, scalping
      and MACD evaluators, the row decision of the Bollinger evaluator),
    - [panel_modules/backtest_results.py]     (ranking and persistence),
    - [panel_modules/pages/backtest_page.py]  (the combinations and the
      tests of an optimisation run, its save step),
    - [signals/bollinger_bands_30min.py] and [signals/support_resistance_1h.py]
      (the decision part of the two live generators; the pivots, clusters
      and levels of the second).

    Numbers.  Python floats are modelled by exact rationals [Q]: rounding is
    outside the model.  A cell of a pandas Series is a [cell]: a rational, or
    one of the special values NaN, +inf, -inf that pandas arithmetic produces
    (NaN is pandas' not-available marker).  Scalar division is [Qdiv]: every
    scalar the sources divide by is read from a DataFrame or produced by
    numpy, whose division does not raise; at a zero divisor numpy yields inf
    or nan, which a rational cannot be, and [Qdiv] yields 0 (prices, bands
    and levels of market data are positive).  Python ints used as counts are
    [nat]. *)

From Stdlib Require Import List String ZArith QArith Qabs Qminmax Lqa Lia Bool
  Permutation Sorted Arith.
Import ListNotations.

Local Open Scope Q_scope.

(** ** Comparisons of rationals as the booleans Python computes *)

Definition Qlt_bool (x y : Q) : bool := negb (Qle_bool y x).

(** The builtins [max(a, b)] and [min(a, b)]: the second argument is
    returned only when it is strictly larger (smaller). *)
Definition py_max (a b : Q) : Q := if Qlt_bool a b then b else a.
Definition py_min (a b : Q) : Q := if Qlt_bool b a then b else a.

(** ** Cells of a pandas Series *)

Inductive cell : Type :=
| NaN
| PInf
| NInf
| Fin (q : Q).

(** [pd.isna]. *)
Definition isna (c : cell) : bool :=
  match c with NaN => true | _ => false end.

(** [a <= b], [a >= b], [a < b], [a > b] on float cells: every comparison
    with NaN is false. *)
Definition cell_le (a b : cell) : bool :=
  match a, b with
  | NaN, _ | _, NaN => false
  | NInf, _ => true
  | _, PInf => true
  | PInf, _ => false
  | _, NInf => false
  | Fin x, Fin y => Qle_bool x y
  end.

Definition cell_lt (a b : cell) : bool :=
  match a, b with
  | NaN, _ | _, NaN => false
  | PInf, _ => false
  | _, NInf => false
  | NInf, _ => true
  | _, PInf => true
  | Fin x, Fin y => Qlt_bool x y
  end.

Definition cell_ge (a b : cell) : bool := cell_le b a.
Definition cell_gt (a b : cell) : bool := cell_lt b a.

(** ** Trade simulator ([backtest_simulator.py]) *)

Module Simulator.

(** A signal dictionary: the keys the simulator reads. *)
Record Signal : Type := mkSignal {
  timestamp : Z;
  price : Q;
  rsi : cell;
  action : string
}.

(** The open position, [None] when flat. *)
Record Position : Type := mkPosition {
  entry_time : Z;
  entry_price : Q;
  entry_rsi : cell;
  size_usd : Q
}.

Record Trade : Type := mkTrade {
  t_entry_time : Z;
  t_entry_price : Q;
  exit_time : Z;
  exit_price : Q;
  pnl_pct : Q;
  profit_usd : Q
}.

Definition is_none {A} (o : option A) : bool :=
  match o with None => true | Some _ => false end.

(** The body of the [for signal in signals] loop, on the pair of the two
    variables it updates: [trades] and [position]. *)
Definition simulate_step (position_size : Q)
    (st : list Trade * option Position) (signal : Signal)
    : list Trade * option Position :=
  let (trades, position) := st in
  if (action signal =? "BUY")%string && is_none position then
    (* Open long position *)
    (trades,
     Some {| entry_time := timestamp signal;
             entry_price := price signal;
             entry_rsi := rsi signal;
             size_usd := position_size |})
  else if (action signal =? "SELL")%string && negb (is_none position) then
    match position with
    | Some pos =>
        (* Close position *)
        let pnl := ((price signal - entry_price pos) / entry_price pos) * 100 in
        let profit := (pnl / 100) * size_usd pos in
        (trades ++ [ {| t_entry_time := entry_time pos;
                        t_entry_price := entry_price pos;
                        exit_time := timestamp signal;
                        exit_price := price signal;
                        pnl_pct := pnl;
                        profit_usd := profit |} ],
         None)
    | None => (trades, position)
    end
  else (trades, position).

Definition simulate_trades (signals : list Signal) (position_size : Q)
    : list Trade :=
  fst (fold_left (simulate_step position_size) signals ([], None)).

(** The single open-position discipline, as the specification words it: the
    trades a run emits from a position state over the remaining signals. *)
Inductive discipline (position_size : Q)
    : option Position -> list Signal -> list Trade -> Prop :=
| d_end : forall pos,
    (* a position still open after the last signal is discarded *)
    discipline position_size pos [] []
| d_buy_opens : forall s rest ts,
    action s = "BUY"%string ->
    discipline position_size
      (Some (mkPosition (timestamp s) (price s) (rsi s) position_size)) rest ts ->
    discipline position_size None (s :: rest) ts
| d_buy_ignored : forall pos s rest ts,
    action s = "BUY"%string ->
    discipline position_size (Some pos) rest ts ->
    discipline position_size (Some pos) (s :: rest) ts
| d_sell_closes : forall pos s rest t ts,
    action s = "SELL"%string ->
    t_entry_time t = entry_time pos ->
    t_entry_price t = entry_price pos ->
    exit_time t = timestamp s ->
    exit_price t = price s ->
    pnl_pct t == (exit_price t - t_entry_price t) / t_entry_price t * 100 ->
    profit_usd t == pnl_pct t / 100 * position_size ->
    discipline position_size None rest ts ->
    discipline position_size (Some pos) (s :: rest) (t :: ts)
| d_sell_ignored : forall s rest ts,
    action s = "SELL"%string ->
    discipline position_size None rest ts ->
    discipline position_size None (s :: rest) ts
| d_other : forall pos s rest ts,
    action s <> "BUY"%string ->
    action s <> "SELL"%string ->
    discipline position_size pos rest ts ->
    discipline position_size pos (s :: rest) ts.

(** The dictionary [calculate_trade_statistics] returns. *)
Record Stats : Type := mkStats {
  total_trades : nat;
  winning_trades : nat;
  losing_trades : nat;
  win_rate : Q;
  total_profit_usd : Q;
  avg_profit : Q
}.

(** A Python int used as a number in a float expression. *)
Definition of_nat (n : nat) : Q := inject_Z (Z.of_nat n).

(** The builtin [sum]: it starts from 0 and adds from the left. *)
Definition py_sum (xs : list Q) : Q := fold_left Qplus xs 0.

(** Truth value of a list: [if trades]. *)
Definition nonempty {A} (l : list A) : bool :=
  match l with [] => false | _ :: _ => true end.

Definition calculate_trade_statistics (trades : list Trade) : option Stats :=
  if negb (nonempty trades) then None
  else
    let winning := filter (fun t => Qlt_bool 0 (profit_usd t)) trades in
    let losing := filter (fun t => Qle_bool (profit_usd t) 0) trades in
    let total_profit := py_sum (map profit_usd trades) in
    let rate :=
      if nonempty trades
      then (of_nat (List.length winning) / of_nat (List.length trades)) * 100 else 0 in
    let avg :=
      if nonempty trades then total_profit / of_nat (List.length trades) else 0 in
    Some {| total_trades := List.length trades;
            winning_trades := List.length winning;
            losing_trades := List.length losing;
            win_rate := rate;
            total_profit_usd := total_profit;
            avg_profit := avg |}.

End Simulator.

(** ** Indicators ([backtest_indicators.py]) *)

Module Indicators.
Import Simulator.

(** Arithmetic of float cells, as numpy performs it on a Series: NaN
    propagates, a finite value over zero is infinite (zero over zero is NaN).
    The model has one zero; where the sign of a zero divisor would pick the
    sign of an infinity, the positive zero is taken. *)
Definition cell_neg (a : cell) : cell :=
  match a with
  | NaN => NaN | PInf => NInf | NInf => PInf | Fin x => Fin (- x)
  end.

Definition cell_add (a b : cell) : cell :=
  match a, b with
  | NaN, _ | _, NaN => NaN
  | PInf, NInf | NInf, PInf => NaN
  | PInf, _ | _, PInf => PInf
  | NInf, _ | _, NInf => NInf
  | Fin x, Fin y => Fin (x + y)
  end.

Definition cell_sub (a b : cell) : cell := cell_add a (cell_neg b).

Definition cell_div (a b : cell) : cell :=
  match a, b with
  | NaN, _ | _, NaN => NaN
  | (PInf | NInf), (PInf | NInf) => NaN
  | Fin _, (PInf | NInf) => Fin 0
  | PInf, Fin y => if Qlt_bool y 0 then NInf else PInf
  | NInf, Fin y => if Qlt_bool y 0 then PInf else NInf
  | Fin x, Fin y =>
      if Qeq_bool y 0 then
        if Qlt_bool 0 x then PInf
        else if Qlt_bool x 0 then NInf
        else NaN
      else Fin (x / y)
  end.

(** [prices.diff()]: the first difference is not available. *)
Fixpoint diff_from (prev : Q) (rest : list Q) : list (option Q) :=
  match rest with
  | [] => []
  | p :: rest' => Some (p - prev) :: diff_from p rest'
  end.

Definition diff (prices : list Q) : list (option Q) :=
  match prices with
  | [] => []
  | p :: rest => None :: diff_from p rest
  end.

(** [deltas.where(deltas > 0, 0)]: a cell is kept where the condition holds
    and replaced by 0 elsewhere; the condition is false on the NaN cell. *)
Definition where_positive (d : option Q) : Q :=
  match d with
  | Some x => if Qlt_bool 0 x then x else 0
  | None => 0
  end.

(** [-deltas.where(deltas < 0, 0)]. *)
Definition neg_where_negative (d : option Q) : Q :=
  match d with
  | Some x => if Qlt_bool x 0 then - x else - 0
  | None => - 0
  end.

(** The [period] samples that end at index [i]. *)
Definition window (xs : list Q) (i period : nat) : list Q :=
  firstn period (skipn (i + 1 - period) xs).

(** [xs.rolling(window=period).mean()] on a Series without NaN: not available
    until [period] samples are there (and never for an empty window). *)
Definition rolling_mean (xs : list Q) (period : nat) : list cell :=
  map (fun i =>
         if (period =? 0)%nat || (i + 1 <? period)%nat then NaN
         else Fin (py_sum (window xs i period) / of_nat period))
      (seq 0 (List.length xs)).

Definition rsi_of (gain_loss : cell * cell) : cell :=
  let rs := cell_div (fst gain_loss) (snd gain_loss) in
  cell_sub (Fin 100) (cell_div (Fin 100) (cell_add (Fin 1) rs)).

Definition calculate_rsi (prices : list Q) (period : nat) : list cell :=
  let deltas := diff prices in
  let gain := rolling_mean (map where_positive deltas) period in
  let loss := rolling_mean (map neg_where_negative deltas) period in
  map rsi_of (combine gain loss).

Definition calculate_sma (prices : list Q) (period : nat) : list cell :=
  rolling_mean prices period.

End Indicators.

(** ** Strategy evaluators ([backtest_strategies.py]) *)

Module Strategies.

(** A row of the OHLCV DataFrame. *)
Record Candle : Type := mkCandle {
  timestamp : Z;
  open : Q;
  high : Q;
  low : Q;
  close : Q;
  volume : Q
}.

(** The dictionary an evaluator returns: its parameter fields followed by the
    statistics ([**stats]). *)
Record BacktestResult : Type := mkResult {
  coin : string;
  period : Q;
  oversold : Q;
  overbought : Q;
  signals_generated : nat;
  total_trades : nat;
  winning_trades : nat;
  losing_trades : nat;
  win_rate : Q;
  total_profit_usd : Q;
  avg_profit : Q
}.

Definition with_stats (coin : string) (period oversold overbought : Q)
    (signals : list Simulator.Signal) (stats : Simulator.Stats)
    : BacktestResult :=
  {| coin := coin;
     period := period;
     oversold := oversold;
     overbought := overbought;
     signals_generated := List.length signals;
     total_trades := Simulator.total_trades stats;
     winning_trades := Simulator.winning_trades stats;
     losing_trades := Simulator.losing_trades stats;
     win_rate := Simulator.win_rate stats;
     total_profit_usd := Simulator.total_profit_usd stats;
     avg_profit := Simulator.avg_profit stats |}.

(** The signal loop of [run_rsi_backtest]: one pass over the rows with their
    RSI cell; rows whose RSI is not available are skipped. *)
Definition rsi_signals (df : list Candle) (period : nat)
    (oversold overbought : Z) : list Simulator.Signal :=
  let rsi := Indicators.calculate_rsi (map close df) period in
  flat_map
    (fun row_rsi : Candle * cell =>
       let (row, r) := row_rsi in
       if isna r then []
       else if cell_le r (Fin (inject_Z oversold)) then
         [Simulator.mkSignal (timestamp row) (close row) r "BUY"]
       else if cell_ge r (Fin (inject_Z overbought)) then
         [Simulator.mkSignal (timestamp row) (close row) r "SELL"]
       else [])
    (combine df rsi).

(** [run_rsi_backtest].  Nothing in the body raises in this model, so the
    [except] branch (which also returns None) is never taken. *)
Definition run_rsi_backtest (df : list Candle) (coin : string) (period : nat)
    (oversold overbought : Z) (position_size : Q) : option BacktestResult :=
  let signals := rsi_signals df period oversold overbought in
  let trades := Simulator.simulate_trades signals position_size in
  match Simulator.calculate_trade_statistics trades with
  | None => None
  | Some stats =>
      Some (with_stats coin (Simulator.of_nat period) (inject_Z oversold)
              (inject_Z overbought) signals stats)
  end.

Definition default_candle : Candle := mkCandle 0 0 0 0 0 0.

(** The signal loop of [run_sma_backtest], [for i in range(1, len(df))]. *)
Definition sma_signals (df : list Candle) (short_period long_period : nat)
    : list Simulator.Signal :=
  let short_sma := Indicators.calculate_sma (map close df) short_period in
  let long_sma := Indicators.calculate_sma (map close df) long_period in
  flat_map
    (fun i =>
       let row := nth i df default_candle in
       let curr_short := nth i short_sma NaN in
       let curr_long := nth i long_sma NaN in
       if isna curr_short || isna curr_long then []
       else
         let prev_short := nth (i - 1) short_sma NaN in
         let prev_long := nth (i - 1) long_sma NaN in
         (* Bullish crossover *)
         if cell_le prev_short prev_long && cell_gt curr_short curr_long then
           [Simulator.mkSignal (timestamp row) (close row) (Fin 0) "BUY"]
         (* Bearish crossover *)
         else if cell_ge prev_short prev_long && cell_lt curr_short curr_long then
           [Simulator.mkSignal (timestamp row) (close row) (Fin 0) "SELL"]
         else [])
    (seq 1 (List.length df - 1)).

Definition run_sma_backtest (df : list Candle) (coin : string)
    (short_period long_period : nat) (position_size : Q)
    : option BacktestResult :=
  let signals := sma_signals df short_period long_period in
  let trades := Simulator.simulate_trades signals position_size in
  match Simulator.calculate_trade_statistics trades with
  | None => None
  | Some stats =>
      Some (with_stats coin (Simulator.of_nat short_period)
              (Simulator.of_nat long_period) 0 signals stats)
  end.

(** The band position [run_bollinger_bands_backtest] computes inline for each
    row ("Calculate BB position (0 to 1)"). *)
Definition backtest_bb_position (current_price upper lower : Q) : Q :=
  if negb (Qeq_bool upper lower)
  then (current_price - lower) / (upper - lower)
  else 0.5.

End Strategies.

(** ** Ranking and persistence ([backtest_results.py]) *)

Module Results.
Import Strategies.

(** A Python dict keyed by coin: an association list in insertion order.
    Assigning to a key that is present replaces the value in place. *)
Definition dict : Type := list (string * BacktestResult).

Fixpoint dict_get (d : dict) (k : string) : option BacktestResult :=
  match d with
  | [] => None
  | (k', v) :: d' => if (k' =? k)%string then Some v else dict_get d' k
  end.

Fixpoint dict_set (d : dict) (k : string) (v : BacktestResult) : dict :=
  match d with
  | [] => [(k, v)]
  | (k', v') :: d' =>
      if (k' =? k)%string then (k', v) :: d' else (k', v') :: dict_set d' k v
  end.

Definition dict_values (d : dict) : list BacktestResult := map snd d.

(** [list.sort(key=lambda x: x['total_profit_usd'], reverse=True)]: the sort
    is stable, also in reverse, so its result is the one of this insertion
    sort, which puts an element before the elements after it that do not
    have a larger key. *)
Fixpoint insert_desc (x : BacktestResult) (l : list BacktestResult)
    : list BacktestResult :=
  match l with
  | [] => [x]
  | y :: l' =>
      if Qlt_bool (total_profit_usd x) (total_profit_usd y)
      then y :: insert_desc x l'
      else x :: l
  end.

Definition sort_by_profit_desc (l : list BacktestResult)
    : list BacktestResult :=
  fold_right insert_desc [] l.

(** The loop of [group_best_results_by_coin] on its dict. *)
Definition group_step (coins_best : dict) (result : BacktestResult) : dict :=
  match dict_get coins_best (coin result) with
  | None => dict_set coins_best (coin result) result
  | Some best =>
      if Qlt_bool (total_profit_usd best) (total_profit_usd result)
      then dict_set coins_best (coin result) result
      else coins_best
  end.

Definition group_best_results_by_coin (results : list BacktestResult)
    : list BacktestResult :=
  let coins_best := fold_left group_step results [] in
  sort_by_profit_desc (dict_values coins_best).

(** *** Persistence *)

Record BestParameters : Type := mkBestParameters {
  bp_period : Q;
  bp_oversold : Q;
  bp_overbought : Q
}.

Record Performance : Type := mkPerformance {
  pf_total_profit_usd : Q;
  pf_total_trades : nat;
  pf_winning_trades : nat;
  pf_losing_trades : nat;
  pf_win_rate : Q;
  pf_avg_profit : Q;
  pf_signals_generated : nat
}.

(** [save_data], the JSON document written for one coin. *)
Record ParameterRecord : Type := mkParameterRecord {
  pr_coin : string;
  pr_signal : string;
  pr_timestamp : string;
  pr_backtest_date : string;
  pr_timerange : string;
  pr_position_size_usd : Q;
  best_parameters : BestParameters;
  performance : Performance
}.

(** What the function cannot decide: whether [os.makedirs] and each write
    raise, and what the clock reads ([now_stamp n], [now_iso n]: the n-th
    reading of [datetime.now()], formatted). *)
Record Env : Type := mkEnv {
  makedirs_fails : bool;
  write_fails : string -> bool;
  now_stamp : nat -> string;
  now_iso : nat -> string
}.

Inductive Printed : Type :=
| SavedOne (coin filepath : string)
| SavedAll (count : nat)
| ErrorSaving.

(** The world the function acts on: the files written (path and document, in
    the order of the writes), the lines printed, the clock readings made. *)
Record World : Type := mkWorld {
  files : list (string * ParameterRecord);
  stdout : list Printed;
  clock_reads : nat
}.

Inductive outcome (A : Type) : Type :=
| Returned (a : A)
| Raised.
Arguments Returned {A} a.
Arguments Raised {A}.

(** Computations that act on the world and may raise. *)
Definition IO (A : Type) : Type := World -> outcome A * World.

Definition ret {A} (a : A) : IO A := fun w => (Returned a, w).

Definition bind {A B} (m : IO A) (k : A -> IO B) : IO B :=
  fun w =>
    match m w with
    | (Returned a, w') => k a w'
    | (Raised, w') => (Raised, w')
    end.

Notation "x <- m ;; k" := (bind m (fun x => k))
  (at level 61, m at next level, right associativity).
Notation "m ;;; k" := (bind m (fun _ => k))
  (at level 61, right associativity).

(** [try: body except Exception: handler]. *)
Definition try_except {A} (body : IO A) (handler : IO A) : IO A :=
  fun w =>
    match body w with
    | (Returned a, w') => (Returned a, w')
    | (Raised, w') => handler w'
    end.

Definition print (p : Printed) : IO unit :=
  fun w => (Returned tt, mkWorld (files w) (stdout w ++ [p]) (clock_reads w)).

Definition makedirs (env : Env) : IO unit :=
  fun w => if makedirs_fails env then (Raised, w) else (Returned tt, w).

Definition read_clock (fmt : nat -> string) : IO string :=
  fun w => (Returned (fmt (clock_reads w)),
            mkWorld (files w) (stdout w) (S (clock_reads w))).

(** [with open(filepath, 'w') as f: json.dump(save_data, f)]. *)
Definition write_json (env : Env) (filepath : string) (doc : ParameterRecord)
    : IO unit :=
  fun w =>
    if write_fails env filepath then (Raised, w)
    else (Returned tt,
          mkWorld (files w ++ [(filepath, doc)]) (stdout w) (clock_reads w)).

(** A [for] loop over a list, in the monad: an exception leaves the loop. *)
Fixpoint for_each {A} (l : list A) (body : A -> IO unit) : IO unit :=
  match l with
  | [] => ret tt
  | x :: l' => body x ;;; for_each l' body
  end.

(** The first loop of [save_best_results]: a coin keeps the first row seen. *)
Definition first_step (coins_best : dict) (result : BacktestResult) : dict :=
  match dict_get coins_best (coin result) with
  | None => dict_set coins_best (coin result) result
  | Some _ => coins_best
  end.

Definition save_one (env : Env) (signal_name timerange : string)
    (position_size : Q) (stamp : string)
    (item : string * BacktestResult) : IO unit :=
  let (coin, best_result) := item in
  let filename := (coin ++ "_" ++ signal_name ++ "_" ++ stamp ++ ".json")%string in
  let filepath := ("results/" ++ filename)%string in
  date <- read_clock (now_iso env) ;;
  let save_data :=
    {| pr_coin := coin;
       pr_signal := signal_name;
       pr_timestamp := stamp;
       pr_backtest_date := date;
       pr_timerange := timerange;
       pr_position_size_usd := position_size;
       best_parameters :=
         {| bp_period := period best_result;
            bp_oversold := oversold best_result;
            bp_overbought := overbought best_result |};
       performance :=
         {| pf_total_profit_usd := total_profit_usd best_result;
            pf_total_trades := total_trades best_result;
            pf_winning_trades := winning_trades best_result;
            pf_losing_trades := losing_trades best_result;
            pf_win_rate := win_rate best_result;
            pf_avg_profit := avg_profit best_result;
            pf_signals_generated := signals_generated best_result |} |} in
  write_json env filepath save_data ;;;
  print (SavedOne coin filepath).

Definition save_best_results (env : Env) (all_results : list BacktestResult)
    (signal_name timerange : string) (position_size : Q) : IO unit :=
  try_except
    (makedirs env ;;;
     stamp <- read_clock (now_stamp env) ;;
     let coins_best := fold_left first_step all_results [] in
     for_each coins_best
       (save_one env signal_name timerange position_size stamp) ;;;
     print (SavedAll (List.length coins_best)))
    (print ErrorSaving).

(** The save step of [BacktestPage._execute_optimization]: the rows are
    sorted by total profit, largest first, and handed to
    [save_best_results]. *)
Definition execute_optimization_save (env : Env)
    (all_results : list BacktestResult) (signal_name timerange : string)
    (position_size : Q) : IO unit :=
  save_best_results env (sort_by_profit_desc all_results)
    signal_name timerange position_size.

End Results.

(** ** Bollinger Bands live generator ([signals/bollinger_bands_30min.py]) *)

Module BollingerBands30Min.

Definition _calculate_bb_position (price upper lower middle : Q) : Q :=
  if Qeq_bool upper lower then 0.5
  else
    let position := (price - lower) / (upper - lower) in
    py_max 0.0 (py_min 1.0 position).

(** [touch_threshold] is the attribute [self.touch_threshold]. *)
Definition _calculate_signal_strength (touch_threshold : Q)
    (bb_position : Q) (bandwidth : cell) (action : string)
    (price lower upper : Q) : Q :=
  if (action =? "BUY")%string then
    let distance_to_lower := Qabs (price - lower) / lower * 100 in
    let position_strength := 1.0 - bb_position in
    let strength :=
      if Qle_bool distance_to_lower touch_threshold
      then 0.85 + (position_strength * 0.15)
      else 0.6 + (position_strength * 0.2) in
    let strength :=
      if cell_gt bandwidth (Fin 4.0) then py_min 1.0 (strength + 0.1)
      else strength in
    py_min 1.0 (py_max 0.0 strength)
  else if (action =? "SELL")%string then
    let distance_to_upper := Qabs (upper - price) / upper * 100 in
    let position_strength := bb_position in
    let strength :=
      if Qle_bool distance_to_upper touch_threshold
      then 0.85 + (position_strength * 0.15)
      else 0.6 + (position_strength * 0.2) in
    let strength :=
      if cell_gt bandwidth (Fin 4.0) then py_min 1.0 (strength + 0.1)
      else strength in
    py_min 1.0 (py_max 0.0 strength)
  else 0.0.

(** The decision part of [generate_signal], from the last cell of the close
    and of each band on: the action and the strength of the Signal it
    returns, or None when a band is not available.  A band of finite prices
    is finite or NaN ([None] here); the bandwidth, a quotient of Series, is a
    [cell]. *)
Definition generate_signal (touch_threshold : Q) (current_price : Q)
    (current_middle current_upper current_lower : option Q)
    (current_bandwidth : cell) : option (string * Q) :=
  match current_middle, current_upper, current_lower with
  | Some middle, Some upper, Some lower =>
      let bb_position := _calculate_bb_position current_price upper lower middle in
      let distance_to_lower := Qabs (current_price - lower) / lower * 100 in
      let distance_to_upper := Qabs (upper - current_price) / upper * 100 in
      let action :=
        if Qle_bool bb_position 0.2 || Qle_bool distance_to_lower touch_threshold
        then "BUY"%string
        else if Qle_bool 0.8 bb_position
                || Qle_bool distance_to_upper touch_threshold
        then "SELL"%string
        else "HOLD"%string in
      let strength :=
        _calculate_signal_strength touch_threshold bb_position
          current_bandwidth action current_price lower upper in
      Some (action, strength)
  | _, _, _ => None
  end.

End BollingerBands30Min.

(** ** Support/Resistance live generator ([signals/support_resistance_1h.py]) *)

Module SupportResistance1H.

(** Truth value of an [Optional[float]]: None and 0.0 are false. *)
Definition truthy (o : option Q) : bool :=
  match o with
  | None => false
  | Some x => negb (Qeq_bool x 0)
  end.

(** [distance = abs(level - filtered_level) / filtered_level * 100]. *)
Definition distance (level filtered_level : Q) : Q :=
  Qabs (level - filtered_level) / filtered_level * 100.

(** The body of [for level in levels[1:]]: the inner loop leaves at the
    first kept level that is too close. *)
Definition filter_step (min_distance_percent : Q) (filtered : list Q)
    (level : Q) : list Q :=
  let is_valid :=
    negb (existsb
            (fun filtered_level =>
               Qlt_bool (distance level filtered_level) min_distance_percent)
            filtered) in
  if is_valid then filtered ++ [level] else filtered.

Definition _filter_levels_by_distance (levels : list Q)
    (min_distance_percent : Q) : list Q :=
  match levels with
  | [] => []
  | first :: rest => fold_left (filter_step min_distance_percent) rest [first]
  end.

(** The builtins [min] and [max] of a non-empty list: the first of the
    smallest (largest) elements. *)
Definition min_list (first : Q) (rest : list Q) : Q :=
  fold_left (fun m x => if Qlt_bool x m then x else m) rest first.

Definition max_list (first : Q) (rest : list Q) : Q :=
  fold_left (fun m x => if Qlt_bool m x then x else m) rest first.

Definition _find_nearest_levels (current_price : Q)
    (resistance_levels support_levels : list Q) : option Q * option Q :=
  let valid_resistance :=
    filter (fun r => Qlt_bool current_price r) resistance_levels in
  let nearest_resistance :=
    match valid_resistance with
    | [] => None
    | r :: rs => Some (min_list r rs)
    end in
  let valid_support :=
    filter (fun s => Qlt_bool s current_price) support_levels in
  let nearest_support :=
    match valid_support with
    | [] => None
    | s :: ss => Some (max_list s ss)
    end in
  (nearest_resistance, nearest_support).

(** The float of an [Optional[float]] that tested true. *)
Definition the (o : option Q) : Q :=
  match o with
  | Some x => x
  | None => 0
  end.

Definition _calculate_signal_strength (current_price : Q)
    (nearest_resistance nearest_support : option Q) (action : string) : Q :=
  if (action =? "BUY")%string && truthy nearest_support then
    let distance_to_support :=
      (current_price - the nearest_support) / the nearest_support * 100 in
    let strength := py_max 0.6 (1.0 - (distance_to_support / 2.0)) in
    py_min 1.0 (py_max 0.0 strength)
  else if (action =? "SELL")%string && truthy nearest_resistance then
    let distance_to_resistance :=
      (the nearest_resistance - current_price) / the nearest_resistance * 100 in
    let strength := py_max 0.6 (1.0 - (distance_to_resistance / 2.0)) in
    py_min 1.0 (py_max 0.0 strength)
  else 0.0.

(** The decision part of [generate_signal], from the current price and the
    levels [_identify_support_resistance_levels] returned on: the action and
    the strength of the Signal, or None when there is no level at all. *)
Definition generate_signal (current_price : Q)
    (resistance_levels support_levels : list Q) : option (string * Q) :=
  if negb (Simulator.nonempty resistance_levels)
     && negb (Simulator.nonempty support_levels) then None
  else
    let (nearest_resistance, nearest_support) :=
      _find_nearest_levels current_price resistance_levels support_levels in
    let action := "HOLD"%string in
    let proximity_threshold := 0.5 in
    let action :=
      if truthy nearest_support then
        let distance_to_support :=
          (current_price - the nearest_support) / the nearest_support * 100 in
        if Qle_bool distance_to_support proximity_threshold
        then "BUY"%string else action
      else action in
    let action :=
      if truthy nearest_resistance then
        let distance_to_resistance :=
          (the nearest_resistance - current_price) / the nearest_resistance * 100 in
        if Qle_bool distance_to_resistance proximity_threshold
        then "SELL"%string else action
      else action in
    let strength :=
      _calculate_signal_strength current_price nearest_resistance
        nearest_support action in
    Some (action, strength).

End SupportResistance1H.

(** ** Smoothing indicators ([backtest_indicators.py]) *)

Module Smoothing.

(** Product of float cells: NaN propagates, an infinity times zero is
    NaN. *)
Definition cell_mul (a b : cell) : cell :=
  match a, b with
  | NaN, _ | _, NaN => NaN
  | Fin x, Fin y => Fin (x * y)
  | (PInf | NInf) as i, Fin y | Fin y, (PInf | NInf) as i =>
      if Qeq_bool y 0 then NaN
      else if Qlt_bool 0 y then i
      else match i with PInf => NInf | _ => PInf end
  | PInf, PInf | NInf, NInf => PInf
  | PInf, NInf | NInf, PInf => NInf
  end.

(** The smoothing factor pandas derives from [span]. *)
Definition smoothing_factor (span : nat) : Q :=
  2 / (Simulator.of_nat span + 1).

(** The recursion of [ewm(adjust=False).mean()] after the first sample:
    y_t = (1 - alpha) * y_(t-1) + alpha * x_t. *)
Fixpoint ewm_from (alpha prev : Q) (rest : list Q) : list Q :=
  match rest with
  | [] => []
  | x :: rest' =>
      let y := (1 - alpha) * prev + alpha * x in
      y :: ewm_from alpha y rest'
  end.

(** [xs.ewm(span=span, adjust=False).mean()] on a Series without NaN.
    pandas refuses a span below 1 (ValueError): [None]. *)
Definition ewm_mean (xs : list Q) (span : nat) : option (list Q) :=
  if (span <? 1)%nat then None
  else
    Some (match xs with
          | [] => []
          | x :: rest => x :: ewm_from (smoothing_factor span) x rest
          end).

Definition calculate_ema (prices : list Q) (period : nat) : option (list Q) :=
  ewm_mean prices period.

(** Difference of two Series on the same index. *)
Definition series_sub (xs ys : list Q) : list Q :=
  map (fun xy : Q * Q => fst xy - snd xy) (combine xs ys).

(** [calculate_macd]: the tuple (macd_line, signal_line, histogram). *)
Definition calculate_macd (prices : list Q) (fast slow signal : nat)
    : option (list Q * list Q * list Q) :=
  match calculate_ema prices fast with
  | None => None
  | Some ema_fast =>
      match calculate_ema prices slow with
      | None => None
      | Some ema_slow =>
          let macd_line := series_sub ema_fast ema_slow in
          match ewm_mean macd_line signal with
          | None => None
          | Some signal_line =>
              let histogram := series_sub macd_line signal_line in
              Some (macd_line, signal_line, histogram)
          end
      end
  end.

(** [calculate_volume_spike]: [volume > avg_volume * multiplier], false
    where the average is not available. *)
Definition calculate_volume_spike (volume : list Q) (multiplier : Q)
    (window : nat) : list bool :=
  let avg_volume := Indicators.rolling_mean volume window in
  map (fun va : Q * cell =>
         cell_gt (Fin (fst va)) (cell_mul (snd va) (Fin multiplier)))
      (combine volume avg_volume).

End Smoothing.

(** ** The other strategy evaluators ([backtest_strategies.py]) *)

Module MoreStrategies.
Import Strategies.

(** [Series.min()]: NaN on an empty Series. *)
Definition series_min (xs : list Q) : cell :=
  match xs with
  | [] => NaN
  | x :: rest => Fin (SupportResistance1H.min_list x rest)
  end.

Definition signal_at (row : Candle) (r : cell) (action : string)
    : Simulator.Signal :=
  Simulator.mkSignal (timestamp row) (close row) r action.

(** The body of the loop of [run_range_backtest], on the two variables it
    updates: [signals] and [in_range]. *)
Definition range_step (buy_range_low buy_range_high : cell)
    (st : list Simulator.Signal * bool) (row : Candle)
    : list Simulator.Signal * bool :=
  let (signals, in_range) := st in
  let current_price := close row in
  if negb in_range
     && (cell_le buy_range_low (Fin current_price)
         && cell_le (Fin current_price) buy_range_high) then
    (signals ++ [signal_at row (Fin 0) "BUY"], true)
  else if in_range && cell_gt (Fin current_price) buy_range_high then
    (signals ++ [signal_at row (Fin 0) "SELL"], false)
  else if in_range && cell_lt (Fin current_price) buy_range_low then
    (signals ++ [signal_at row (Fin 0) "SELL"], false)
  else (signals, in_range).

Definition buy_range_low (df : list Candle) (long_offset : Q) : cell :=
  Smoothing.cell_mul (series_min (map low df)) (Fin (1 + long_offset / 100)).

Definition buy_range_high (df : list Candle) (long_offset tolerance : Q)
    : cell :=
  Smoothing.cell_mul (series_min (map low df))
    (Fin (1 + long_offset / 100 + tolerance / 100)).

Definition range_signals (df : list Candle) (long_offset tolerance : Q)
    : list Simulator.Signal :=
  fst (fold_left
         (range_step (buy_range_low df long_offset)
            (buy_range_high df long_offset tolerance))
         df ([], false)).

(** [run_range_backtest].  [period_high], computed and never read, is left
    out. *)
Definition run_range_backtest (df : list Candle) (coin : string)
    (long_offset tolerance : Q) (position_size : Q)
    : option BacktestResult :=
  let signals := range_signals df long_offset tolerance in
  let trades := Simulator.simulate_trades signals position_size in
  match Simulator.calculate_trade_statistics trades with
  | None => None
  | Some stats =>
      Some (with_stats coin long_offset tolerance 0 signals stats)
  end.

(** One turn of the signal loop of [run_scalping_backtest], at row [i] of
    the four columns.  The average of a Series without NaN has no NaN, so
    of the two [pd.isna] tests only the one on the RSI can hold. *)
Definition scalping_row (df : list Candle) (fast slow : list Q)
    (rsi : list cell) (volume_spike : list bool)
    (rsi_oversold rsi_overbought : Z) (i : nat) : list Simulator.Signal :=
  let row := nth i df default_candle in
  let curr_rsi := nth i rsi NaN in
  if isna curr_rsi then []
  else
    let curr_fast := nth i fast 0 in
    let curr_slow := nth i slow 0 in
    let prev_fast := nth (i - 1) fast 0 in
    let prev_slow := nth (i - 1) slow 0 in
    let vol_spike := nth i volume_spike false in
    (* Bullish crossover *)
    if Qle_bool prev_fast prev_slow && Qlt_bool curr_slow curr_fast
       && cell_gt curr_rsi (Fin (inject_Z rsi_oversold))
       && cell_lt curr_rsi (Fin (inject_Z rsi_overbought))
       && vol_spike then
      [signal_at row curr_rsi "BUY"]
    (* Bearish crossover *)
    else if Qle_bool prev_slow prev_fast && Qlt_bool curr_fast curr_slow
            && cell_lt curr_rsi (Fin (inject_Z rsi_overbought))
            && cell_gt curr_rsi (Fin (inject_Z rsi_oversold))
            && vol_spike then
      [signal_at row curr_rsi "SELL"]
    else [].

(** The loop, [for i in range(1, len(df))]. *)
Definition scalping_signals (df : list Candle) (fast slow : list Q)
    (rsi : list cell) (volume_spike : list bool)
    (rsi_oversold rsi_overbought : Z) : list Simulator.Signal :=
  flat_map
    (scalping_row df fast slow rsi volume_spike rsi_oversold rsi_overbought)
    (seq 1 (List.length df - 1)).

(** [run_scalping_backtest]: the ValueError of an EMA span below 1 is caught
    by the [except] branch, which returns None. *)
Definition run_scalping_backtest (df : list Candle) (coin : string)
    (fast_ema slow_ema rsi_period : nat) (rsi_oversold rsi_overbought : Z)
    (volume_multiplier : Q) (position_size : Q) : option BacktestResult :=
  match Smoothing.calculate_ema (map close df) fast_ema with
  | None => None
  | Some fast =>
      match Smoothing.calculate_ema (map close df) slow_ema with
      | None => None
      | Some slow =>
          let rsi := Indicators.calculate_rsi (map close df) rsi_period in
          let volume_spike :=
            Smoothing.calculate_volume_spike (map volume df)
              volume_multiplier 20 in
          let signals :=
            scalping_signals df fast slow rsi volume_spike
              rsi_oversold rsi_overbought in
          let trades := Simulator.simulate_trades signals position_size in
          match Simulator.calculate_trade_statistics trades with
          | None => None
          | Some stats =>
              Some (with_stats coin (Simulator.of_nat fast_ema)
                      (Simulator.of_nat slow_ema)
                      (Simulator.of_nat rsi_period) signals stats)
          end
      end
  end.

(** The signal loop of [run_macd_backtest], from the histogram, which has
    no NaN: the [pd.isna] tests never hold. *)
Definition macd_signals (df : list Candle) (histogram : list Q)
    : list Simulator.Signal :=
  flat_map
    (fun i =>
       let row := nth i df default_candle in
       let curr_hist := nth i histogram 0 in
       let prev_hist := nth (i - 1) histogram 0 in
       (* Bullish crossover *)
       if Qle_bool prev_hist 0 && Qlt_bool 0 curr_hist then
         [signal_at row (Fin 0) "BUY"]
       (* Bearish crossover *)
       else if Qle_bool 0 prev_hist && Qlt_bool curr_hist 0 then
         [signal_at row (Fin 0) "SELL"]
       else [])
    (seq 1 (List.length df - 1)).

Definition run_macd_backtest (df : list Candle) (coin : string)
    (fast slow signal_period : nat) (position_size : Q)
    : option BacktestResult :=
  match Smoothing.calculate_macd (map close df) fast slow signal_period with
  | None => None
  | Some (_, _, histogram) =>
      let signals := macd_signals df histogram in
      let trades := Simulator.simulate_trades signals position_size in
      match Simulator.calculate_trade_statistics trades with
      | None => None
      | Some stats =>
          Some (with_stats coin (Simulator.of_nat fast)
                  (Simulator.of_nat slow) (Simulator.of_nat signal_period)
                  signals stats)
      end
  end.

(** The decision [run_bollinger_bands_backtest] takes on a row whose bands
    are available: the action of the signal it appends, if any. *)
Definition bollinger_row_action (current_price upper lower : Q)
    (touch_threshold : Q) : option string :=
  let bb_position := backtest_bb_position current_price upper lower in
  let distance_to_lower := Qabs (current_price - lower) / lower * 100 in
  let distance_to_upper := Qabs (upper - current_price) / upper * 100 in
  (* BUY signal: Price near or below lower band *)
  if Qle_bool bb_position 0.2 || Qle_bool distance_to_lower touch_threshold
  then Some "BUY"%string
  (* SELL signal: Price near or above upper band *)
  else if Qle_bool 0.8 bb_position
          || Qle_bool distance_to_upper touch_threshold
  then Some "SELL"%string
  else None.

End MoreStrategies.

(** ** Level detection of the Support/Resistance generator
    ([signals/support_resistance_1h.py]) *)

Module SupportResistanceLevels.
Import Strategies.

(** The inner loop [for j in range(i - window, i + window + 1)] on the
    highs: it leaves with False at the first other candle whose high is at
    least the current one. *)
Definition is_resistance (highs : list Q) (window i : nat) : bool :=
  let current_high := nth i highs 0 in
  negb (existsb
          (fun j => negb (j =? i)%nat
                    && Qle_bool current_high (nth j highs 0))
          (seq (i - window) (i + window + 1 - (i - window)))).

(** The same loop on the lows: False at the first other candle whose low is
    at most the current one. *)
Definition is_support (lows : list Q) (window i : nat) : bool :=
  let current_low := nth i lows 0 in
  negb (existsb
          (fun j => negb (j =? i)%nat
                    && Qle_bool (nth j lows 0) current_low)
          (seq (i - window) (i + window + 1 - (i - window)))).

(** The body of [for i in range(window, len(df) - window)], on the two
    lists it appends to. *)
Definition pivot_step (df : list Candle) (window : nat)
    (st : list Q * list Q) (i : nat) : list Q * list Q :=
  let (highs, lows) := st in
  let current_high := nth i (map high df) 0 in
  let highs :=
    if is_resistance (map high df) window i then highs ++ [current_high]
    else highs in
  let current_low := nth i (map low df) 0 in
  let lows :=
    if is_support (map low df) window i then lows ++ [current_low]
    else lows in
  (highs, lows).

Definition _find_pivot_points (df : list Candle) (window : nat)
    : list Q * list Q :=
  fold_left (pivot_step df window)
    (seq window (List.length df - window - window)) ([], []).

(** [np.mean] of a non-empty list, as the exact rational mean: the rounding
    of the double-precision mean is outside the model, so what is proved of
    a mean holds of the program up to that rounding. *)
Definition np_mean (xs : list Q) : Q :=
  Simulator.py_sum xs / Simulator.of_nat (List.length xs).

(** [sorted(levels)]: the sort is stable, so its result is the one of this
    insertion sort, which puts an element before the elements after it that
    are not smaller. *)
Fixpoint insert_asc (x : Q) (l : list Q) : list Q :=
  match l with
  | [] => [x]
  | y :: l' => if Qlt_bool y x then y :: insert_asc x l' else x :: l
  end.

Definition sorted (levels : list Q) : list Q := fold_right insert_asc [] levels.

(** The body of [for level in sorted_levels], on the list of clusters:
    [clustered[-1]] is the last cluster. *)
Definition cluster_step (tolerance_percent : Q) (clustered : list (list Q))
    (level : Q) : list (list Q) :=
  match clustered with
  | [] => [[level]]
  | _ :: _ =>
      let last_cluster := last clustered [] in
      (* Check if level is close to the last cluster *)
      let last_cluster_avg := np_mean last_cluster in
      let tolerance := last_cluster_avg * (tolerance_percent / 100) in
      if Qle_bool (Qabs (level - last_cluster_avg)) tolerance
      then removelast clustered ++ [last_cluster ++ [level]]
      else clustered ++ [[level]]
  end.

(** [min_touches] is the attribute [self.min_touches]. *)
Definition _cluster_levels (min_touches : Z) (levels : list Q)
    (tolerance_percent : Q) : list Q :=
  match levels with
  | [] => []
  | _ :: _ =>
      let sorted_levels := sorted levels in
      let clustered :=
        fold_left (cluster_step tolerance_percent) sorted_levels [] in
      (* Return average of each cluster *)
      map np_mean
        (filter
           (fun cluster =>
              (min_touches <=? Z.of_nat (List.length cluster))%Z)
           clustered)
  end.

(** [min_touches], [tolerance_percent] and [min_distance_percent] are the
    attributes of the generator; [_find_pivot_points] is called with its
    default window of 5. *)
Definition _identify_support_resistance_levels (min_touches : Z)
    (tolerance_percent min_distance_percent : Q) (df : list Candle)
    : list Q * list Q :=
  (* Find pivot points *)
  let (highs, lows) := _find_pivot_points df 5 in
  (* Cluster similar levels *)
  let resistance_levels := _cluster_levels min_touches highs tolerance_percent in
  let support_levels := _cluster_levels min_touches lows tolerance_percent in
  (* Filter by minimum distance *)
  let resistance_levels :=
    SupportResistance1H._filter_levels_by_distance resistance_levels
      min_distance_percent in
  let support_levels :=
    SupportResistance1H._filter_levels_by_distance support_levels
      min_distance_percent in
  (resistance_levels, support_levels).

(** [generate_signal] from the fetched candles on ([None]: the fetch gave
    nothing): the action and the strength of the Signal it returns.  On an
    empty frame [df['close'].iloc[-1]] raises, which the [except] branch
    turns into None. *)
Definition generate_signal_on (lookback_periods min_touches : Z)
    (tolerance_percent min_distance_percent : Q)
    (df : option (list Candle)) : option (string * Q) :=
  match df with
  | None => None
  | Some df =>
      if (Z.of_nat (List.length df) <? lookback_periods)%Z then None
      else
        match rev df with
        | [] => None
        | last_row :: _ =>
            (* Get current price *)
            let current_price := close last_row in
            let (resistance_levels, support_levels) :=
              _identify_support_resistance_levels min_touches
                tolerance_percent min_distance_percent df in
            SupportResistance1H.generate_signal current_price
              resistance_levels support_levels
        end
  end.

End SupportResistanceLevels.

(** ** The optimisation run of the page ([pages/backtest_page.py]) *)

Module BacktestPage.
Import Strategies MoreStrategies.

(** [self.optimization_ranges]: the list the configuration gives for each
    key the page reads, [None] for a key that is missing. *)
Record OptimizationRanges : Type := mkRanges {
  opt_period : option (list nat);
  opt_oversold : option (list Z);
  opt_overbought : option (list Z);
  opt_short_period : option (list nat);
  opt_long_period : option (list nat);
  opt_long_offset : option (list Q);
  opt_tolerance : option (list Q);
  opt_fast_ema : option (list nat);
  opt_slow_ema : option (list nat);
  opt_rsi_period : option (list nat);
  opt_rsi_oversold : option (list Z);
  opt_rsi_overbought : option (list Z);
  opt_volume_multiplier : option (list Q);
  opt_fast : option (list nat);
  opt_slow : option (list nat);
  opt_signal : option (list nat)
}.

(** [dict.get(key, default)]. *)
Definition get {A} (value : option A) (default : A) : A :=
  match value with
  | Some v => v
  | None => default
  end.

(** A tuple of [itertools.product], by the signal type it is made for. *)
Inductive Combo : Type :=
| SmaCombo (short_period long_period : nat)
| RangeCombo (long_offset tolerance : Q)
| ScalpingCombo (fast_ema slow_ema rsi_period : nat)
    (rsi_oversold rsi_overbought : Z) (volume_multiplier : Q)
| MacdCombo (fast slow signal : nat)
| RsiCombo (period : nat) (oversold overbought : Z).

Definition is_range (signal_type : string) : bool :=
  (signal_type =? "Range 24h Low")%string
  || (signal_type =? "Range 7days Low")%string.

(** [_generate_combinations]; [list_prod] enumerates the pairs in the order
    of [itertools.product]. *)
Definition _generate_combinations (ranges : OptimizationRanges)
    (signal_type : string) : list Combo :=
  if (signal_type =? "SMA 5min")%string then
    let short := get (opt_short_period ranges) [5; 8; 10; 12; 15]%nat in
    let long := get (opt_long_period ranges) [20; 25; 30; 35; 40]%nat in
    map (fun c => SmaCombo (fst c) (snd c)) (list_prod short long)
  else if is_range signal_type then
    let offsets :=
      get (opt_long_offset ranges) [-2.0; -1.5; -1.0; -0.5; 0.0] in
    let tolerances := get (opt_tolerance ranges) [1.0; 1.5; 2.0; 2.5; 3.0] in
    map (fun c => RangeCombo (fst c) (snd c)) (list_prod offsets tolerances)
  else if (signal_type =? "Scalping 1min")%string then
    let fast := get (opt_fast_ema ranges) [3; 5; 8]%nat in
    let slow := get (opt_slow_ema ranges) [10; 13; 15; 20]%nat in
    let rsi_p := get (opt_rsi_period ranges) [5; 7; 9]%nat in
    let rsi_os := get (opt_rsi_oversold ranges) [25; 30; 35]%Z in
    let rsi_ob := get (opt_rsi_overbought ranges) [65; 70; 75]%Z in
    let vol := get (opt_volume_multiplier ranges) [1.3; 1.5; 1.8; 2.0] in
    map (fun c =>
           match c with
           | (f, (s, (p, (os, (ob, v))))) => ScalpingCombo f s p os ob v
           end)
      (list_prod fast
         (list_prod slow
            (list_prod rsi_p (list_prod rsi_os (list_prod rsi_ob vol)))))
  else if (signal_type =? "MACD 15min")%string then
    let fast := get (opt_fast ranges) [8; 10; 12; 14; 16]%nat in
    let slow := get (opt_slow ranges) [20; 23; 26; 29; 32]%nat in
    let signal := get (opt_signal ranges) [7; 8; 9; 10; 11]%nat in
    map (fun c => match c with (f, (s, g)) => MacdCombo f s g end)
      (list_prod fast (list_prod slow signal))
  else
    (* RSI signals *)
    let periods := get (opt_period ranges) [10; 12; 14; 16; 18; 20]%nat in
    let oversold := get (opt_oversold ranges) [25; 28; 30; 32; 35]%Z in
    let overbought := get (opt_overbought ranges) [65; 68; 70; 72; 75]%Z in
    map (fun c => match c with (p, (os, ob)) => RsiCombo p os ob end)
      (list_prod periods (list_prod oversold overbought)).

(** The [total] that [_update_optimization_labels] writes on the page as
    "Total: n combinations". *)
Definition _update_optimization_labels_total (ranges : OptimizationRanges)
    (signal : string) : nat :=
  if (signal =? "SMA 5min")%string then
    let short_periods := get (opt_short_period ranges) [5; 8; 10; 12; 15]%nat in
    let long_periods := get (opt_long_period ranges) [20; 25; 30; 35; 40]%nat in
    List.length short_periods * List.length long_periods
  else if is_range signal then
    let long_offsets :=
      get (opt_long_offset ranges) [-2.0; -1.5; -1.0; -0.5; 0.0] in
    let tolerances := get (opt_tolerance ranges) [1.0; 1.5; 2.0; 2.5; 3.0] in
    List.length long_offsets * List.length tolerances
  else if (signal =? "Scalping 1min")%string then
    let fast_emas := get (opt_fast_ema ranges) [3; 5; 8]%nat in
    let slow_emas := get (opt_slow_ema ranges) [10; 13; 15; 20]%nat in
    let rsi_periods := get (opt_rsi_period ranges) [5; 7; 9]%nat in
    let rsi_oversold := get (opt_rsi_oversold ranges) [25; 30; 35]%Z in
    let rsi_overbought := get (opt_rsi_overbought ranges) [65; 70; 75]%Z in
    let vol_mults := get (opt_volume_multiplier ranges) [1.3; 1.5; 1.8; 2.0] in
    List.length fast_emas * List.length slow_emas * List.length rsi_periods
    * List.length rsi_oversold * List.length rsi_overbought
    * List.length vol_mults
  else if (signal =? "MACD 15min")%string then
    let fast_periods := get (opt_fast ranges) [8; 10; 12; 14; 16]%nat in
    let slow_periods := get (opt_slow ranges) [20; 23; 26; 29; 32]%nat in
    let signal_periods := get (opt_signal ranges) [7; 8; 9; 10; 11]%nat in
    List.length fast_periods * List.length slow_periods
    * List.length signal_periods
  else
    (* RSI signals *)
    let periods := get (opt_period ranges) [10; 12; 14; 16; 18; 20]%nat in
    let oversold := get (opt_oversold ranges) [25; 28; 30; 32; 35]%Z in
    let overbought := get (opt_overbought ranges) [65; 68; 70; 72; 75]%Z in
    List.length periods * List.length oversold * List.length overbought.

(** [_run_strategy_backtest].  The page passes it the tuples
    [_generate_combinations] made for the same signal type; on a tuple of
    another shape, which it never gets, the model answers None. *)
Definition _run_strategy_backtest (df : list Candle) (coin : string)
    (signal_type : string) (combo : Combo) (position_size : Q)
    : option BacktestResult :=
  if (signal_type =? "SMA 5min")%string then
    match combo with
    | SmaCombo short long => run_sma_backtest df coin short long position_size
    | _ => None
    end
  else if is_range signal_type then
    match combo with
    | RangeCombo long_offset tolerance =>
        run_range_backtest df coin long_offset tolerance position_size
    | _ => None
    end
  else if (signal_type =? "Scalping 1min")%string then
    match combo with
    | ScalpingCombo fast slow rsi_p rsi_os rsi_ob vol =>
        run_scalping_backtest df coin fast slow rsi_p rsi_os rsi_ob vol
          position_size
    | _ => None
    end
  else if (signal_type =? "MACD 15min")%string then
    match combo with
    | MacdCombo fast slow signal =>
        run_macd_backtest df coin fast slow signal position_size
    | _ => None
    end
  else
    (* RSI signals *)
    match combo with
    | RsiCombo period oversold overbought =>
        run_rsi_backtest df coin period oversold overbought position_size
    | _ => None
    end.

(** The builtin [max] of a list of ints: it raises on an empty list
    ([None]). *)
Definition max_of (l : list nat) : option nat :=
  match l with
  | [] => None
  | x :: rest => Some (fold_left Nat.max rest x)
  end.

Definition _get_min_data_length (ranges : OptimizationRanges)
    (signal_type : string) : option nat :=
  if (signal_type =? "SMA 5min")%string then
    max_of (get (opt_long_period ranges) [40]%nat)
  else if is_range signal_type then Some 50%nat
  else max_of (get (opt_period ranges) [20]%nat).

(** The body of [for combo in combinations], on [all_results] and
    [test_count]. *)
Definition combo_step (df : list Candle) (coin : string)
    (signal_type : string) (position_size : Q)
    (st : list BacktestResult * nat) (combo : Combo)
    : list BacktestResult * nat :=
  let (all_results, test_count) := st in
  let test_count := S test_count in
  match _run_strategy_backtest df coin signal_type combo position_size with
  | Some result => (all_results ++ [result], test_count)
  | None => (all_results, test_count)
  end.

(** The body of [for coin in selected_coins]; [fetch coin] is what
    [fetch_historical_data] returns for the coin in this run.  [None] as a
    state: an exception left the loop. *)
Definition coin_step (fetch : string -> option (list Candle))
    (ranges : OptimizationRanges) (signal_type : string) (position_size : Q)
    (combinations : list Combo)
    (st : option (list BacktestResult * nat)) (coin : string)
    : option (list BacktestResult * nat) :=
  match st with
  | None => None
  | Some st =>
      match fetch coin with
      | None => Some st
      | Some df =>
          match _get_min_data_length ranges signal_type with
          | None => None
          | Some min_data_length =>
              if (List.length df <? min_data_length)%nat then Some st
              else
                Some (fold_left (combo_step df coin signal_type position_size)
                        combinations st)
          end
      end
  end.

(** [_run_all_tests]: [all_results], with the final [test_count]; None when
    it raises.  The status lines it posts to the page are left out. *)
Definition _run_all_tests (fetch : string -> option (list Candle))
    (ranges : OptimizationRanges) (selected_coins : list string)
    (signal_type : string) (position_size : Q)
    : option (list BacktestResult * nat) :=
  let combinations := _generate_combinations ranges signal_type in
  fold_left (coin_step fetch ranges signal_type position_size combinations)
    selected_coins (Some ([], 0%nat)).

End BacktestPage.

(** * Properties *)

(** ** Boolean comparisons and the order of [Q] *)

Lemma Qlt_bool_iff x y : Qlt_bool x y = true <-> x < y.
Proof.
  unfold Qlt_bool. rewrite negb_true_iff. split; intro H.
  - apply Qnot_le_lt. intro Hle. apply Qle_bool_iff in Hle. congruence.
  - destruct (Qle_bool y x) eqn:E; [|reflexivity].
    apply Qle_bool_iff in E. exfalso. exact (Qlt_not_le _ _ H E).
Qed.

Lemma Qlt_bool_false x y : Qlt_bool x y = false <-> y <= x.
Proof.
  unfold Qlt_bool. rewrite negb_false_iff. apply Qle_bool_iff.
Qed.

Lemma Qle_bool_false x y : Qle_bool x y = false <-> y < x.
Proof.
  rewrite <- Qlt_bool_iff. unfold Qlt_bool.
  destruct (Qle_bool x y); simpl; intuition congruence.
Qed.

(** Moves the boolean comparisons of the context to the order of [Q], where
    [lra] can use them. *)
Ltac qbool :=
  repeat match goal with
  | H : Qle_bool _ _ = true |- _ => apply Qle_bool_iff in H
  | H : Qle_bool _ _ = false |- _ => apply Qle_bool_false in H
  | H : Qlt_bool _ _ = true |- _ => apply Qlt_bool_iff in H
  | H : Qlt_bool _ _ = false |- _ => apply Qlt_bool_false in H
  | H : Qeq_bool _ _ = true |- _ => apply Qeq_bool_iff in H
  | H : Qeq_bool _ _ = false |- _ => apply Qeq_bool_neq in H
  end.

Lemma py_max_spec a b : a <= py_max a b /\ b <= py_max a b
  /\ (py_max a b = a \/ py_max a b = b).
Proof.
  unfold py_max. destruct (Qlt_bool a b) eqn:E; qbool; repeat split;
    auto; lra.
Qed.

Lemma py_min_spec a b : py_min a b <= a /\ py_min a b <= b
  /\ (py_min a b = a \/ py_min a b = b).
Proof.
  unfold py_min. destruct (Qlt_bool b a) eqn:E; qbool; repeat split;
    auto; lra.
Qed.

(** ** The trade simulator *)

Section SimulatorFacts.
Import Simulator.

Variable position_size : Q.

(** The invariant of the loop: an open position carries the run's size. *)
Definition sized (pos : option Position) : Prop :=
  forall p, pos = Some p -> size_usd p = position_size.

Lemma sized_none : sized None.
Proof. intros p H. discriminate. Qed.

Lemma sized_open s :
  sized (Some (mkPosition (timestamp s) (price s) (rsi s) position_size)).
Proof. intros p H. injection H as <-. reflexivity. Qed.

(** What one turn of the loop does, by the signal and the position. *)
Lemma step_buy_flat trades s :
  action s = "BUY"%string ->
  simulate_step position_size (trades, None) s
  = (trades, Some (mkPosition (timestamp s) (price s) (rsi s) position_size)).
Proof. intro H. unfold simulate_step. rewrite H. reflexivity. Qed.

Lemma step_buy_open trades p s :
  action s = "BUY"%string ->
  simulate_step position_size (trades, Some p) s = (trades, Some p).
Proof. intro H. unfold simulate_step. rewrite H. reflexivity. Qed.

Lemma step_sell_open trades p s :
  action s = "SELL"%string ->
  simulate_step position_size (trades, Some p) s
  = (trades ++
       [mkTrade (entry_time p) (entry_price p) (timestamp s) (price s)
          ((price s - entry_price p) / entry_price p * 100)
          ((price s - entry_price p) / entry_price p * 100 / 100 * size_usd p)],
     None).
Proof. intro H. unfold simulate_step. rewrite H. reflexivity. Qed.

Lemma step_sell_flat trades s :
  action s = "SELL"%string ->
  simulate_step position_size (trades, None) s = (trades, None).
Proof. intro H. unfold simulate_step. rewrite H. reflexivity. Qed.

Lemma step_other trades pos s :
  action s <> "BUY"%string -> action s <> "SELL"%string ->
  simulate_step position_size (trades, pos) s = (trades, pos).
Proof.
  intros Hb Hs. unfold simulate_step.
  apply String.eqb_neq in Hb, Hs. rewrite Hb, Hs. reflexivity.
Qed.

(** The loop, started in any state, appends to the trades it already has the
    trades the discipline prescribes from that state. *)
Lemma simulate_loop_discipline (signals : list Signal) :
  forall trades pos, sized pos ->
  exists ts,
    fst (fold_left (simulate_step position_size) signals (trades, pos))
      = trades ++ ts
    /\ discipline position_size pos signals ts.
Proof.
  induction signals as [|s rest IH]; intros trades pos Hsz.
  - exists []. simpl. rewrite app_nil_r. split; [reflexivity|constructor].
  - cbn [fold_left].
    destruct (String.string_dec (action s) "BUY") as [Hb|Hb];
      [|destruct (String.string_dec (action s) "SELL") as [Hs|Hs]].
    + destruct pos as [p|].
      * rewrite (step_buy_open _ _ _ Hb).
        destruct (IH trades (Some p) Hsz) as (ts & E & D).
        exists ts. split; [exact E|]. now apply d_buy_ignored.
      * rewrite (step_buy_flat _ _ Hb).
        destruct (IH trades _ (sized_open s)) as (ts & E & D).
        exists ts. split; [exact E|]. now apply d_buy_opens.
    + destruct pos as [p|].
      * rewrite (step_sell_open _ _ _ Hs).
        match goal with
        | |- context [fold_left _ rest (?acc, None)] =>
            destruct (IH acc None sized_none) as (ts & E & D)
        end.
        eexists (_ :: ts). split.
        -- rewrite E. rewrite <- app_assoc. reflexivity.
        -- apply d_sell_closes; simpl; try reflexivity; try assumption.
           rewrite (Hsz p eq_refl). reflexivity.
      * rewrite (step_sell_flat _ _ Hs).
        destruct (IH trades None Hsz) as (ts & E & D).
        exists ts. split; [exact E|]. now apply d_sell_ignored.
    + rewrite (step_other _ _ _ Hb Hs).
      destruct (IH trades pos Hsz) as (ts & E & D).
      exists ts. split; [exact E|]. now apply d_other.
Qed.

End SimulatorFacts.

(** C1.  For every signal sequence and every position size, the trades
    [simulate_trades] returns are the ones of the single open-position
    discipline run from the flat state: a BUY opens only when flat, a SELL
    closes only when open, other BUYs and SELLs change nothing, each accepted
    SELL emits one trade with pnl_pct = (exit - entry) / entry * 100 and
    profit_usd = pnl_pct / 100 * position_size, in signal order, and a
    position left open at the end emits nothing. *)
Theorem simulate_trades_discipline :
  forall (signals : list Simulator.Signal) (position_size : Q),
    Simulator.discipline position_size None signals
      (Simulator.simulate_trades signals position_size).
Proof.
  intros signals position_size.
  destruct (simulate_loop_discipline position_size signals [] None
              (sized_none position_size)) as (ts & E & D).
  unfold Simulator.simulate_trades. rewrite E. exact D.
Qed.

(** A run of the discipline emits at most one trade per SELL signal. *)
Lemma discipline_at_most_sells position_size pos signals ts :
  Simulator.discipline position_size pos signals ts ->
  (List.length ts
   <= List.length
        (filter (fun s => (Simulator.action s =? "SELL")%string) signals))%nat.
Proof.
  induction 1 as [pos|s rest ts Hb _ IH|pos s rest ts Hb _ IH
                 |pos s rest t ts Hs _ _ _ _ _ _ _ IH
                 |s rest ts Hs _ IH|pos s rest ts Hb Hs _ IH]; simpl.
  - lia.
  - rewrite Hb. simpl. exact IH.
  - rewrite Hb. simpl. exact IH.
  - rewrite Hs. simpl. lia.
  - rewrite Hs. simpl. lia.
  - apply String.eqb_neq in Hs. rewrite Hs. exact IH.
Qed.

(** The simulator emits no more trades than there are SELL signals. *)
Theorem simulate_trades_at_most_sells :
  forall (signals : list Simulator.Signal) (position_size : Q),
    (List.length (Simulator.simulate_trades signals position_size)
     <= List.length
          (filter (fun s => (Simulator.action s =? "SELL")%string) signals))%nat.
Proof.
  intros signals position_size.
  destruct (simulate_loop_discipline position_size signals [] None
              (sized_none position_size)) as (ts & E & D).
  unfold Simulator.simulate_trades. rewrite E. simpl.
  exact (discipline_at_most_sells _ _ _ _ D).
Qed.

(** ** Trade statistics *)

Section StatisticsFacts.
Import Simulator.

(** The sum of the trades' profit amounts, written as a recursion on the
    list (the code's [sum] is a loop from the left). *)
Fixpoint sum_profits (trades : list Trade) : Q :=
  match trades with
  | [] => 0
  | t :: rest => profit_usd t + sum_profits rest
  end.

Lemma py_sum_from (xs : list Q) :
  forall a, fold_left Qplus xs a == a + fold_left Qplus xs 0.
Proof.
  induction xs as [|x xs IH]; intro a; simpl.
  - ring.
  - rewrite (IH (a + x)), (IH (0 + x)). ring.
Qed.

Lemma py_sum_profits (trades : list Trade) :
  py_sum (map profit_usd trades) == sum_profits trades.
Proof.
  unfold py_sum. induction trades as [|t rest IH]; simpl.
  - reflexivity.
  - rewrite py_sum_from, IH. ring.
Qed.

Lemma filter_split {A} (f : A -> bool) (l : list A) :
  Permutation l (filter f l ++ filter (fun x => negb (f x)) l).
Proof.
  induction l as [|x l IH]; simpl.
  - constructor.
  - destruct (f x); simpl.
    + now constructor.
    + now apply Permutation_cons_app.
Qed.

Lemma losing_is_not_winning (trades : list Trade) :
  filter (fun t => Qle_bool (profit_usd t) 0) trades
  = filter (fun t => negb (Qlt_bool 0 (profit_usd t))) trades.
Proof.
  apply filter_ext. intro t. unfold Qlt_bool.
  now rewrite negb_involutive.
Qed.

Lemma statistics_of_nonempty (trades : list Trade) :
  trades <> [] ->
  calculate_trade_statistics trades
  = Some (mkStats
            (List.length trades)
            (List.length (filter (fun t => Qlt_bool 0 (profit_usd t)) trades))
            (List.length (filter (fun t => Qle_bool (profit_usd t) 0) trades))
            (of_nat (List.length
                       (filter (fun t => Qlt_bool 0 (profit_usd t)) trades))
               / of_nat (List.length trades) * 100)
            (py_sum (map profit_usd trades))
            (py_sum (map profit_usd trades) / of_nat (List.length trades))).
Proof.
  destruct trades as [|t rest]; [congruence|reflexivity].
Qed.

End StatisticsFacts.

(** C9.  For every non-empty trade list the statistics are returned, the
    winning and the losing trades add up to the total, the total profit is
    the sum of the profits, the average is the total profit over the number
    of trades, and the trades split into the winning ones, of strictly
    positive profit, and the losing ones, of profit zero or less. *)
Theorem trade_statistics_counts :
  forall trades : list Simulator.Trade,
    trades <> [] ->
    exists s,
      Simulator.calculate_trade_statistics trades = Some s
      /\ Simulator.total_trades s = List.length trades
      /\ (Simulator.winning_trades s + Simulator.losing_trades s
          = Simulator.total_trades s)%nat
      /\ Simulator.total_profit_usd s == sum_profits trades
      /\ Simulator.avg_profit s
         == Simulator.total_profit_usd s
            / Simulator.of_nat (Simulator.total_trades s)
      /\ exists wins losses,
           Permutation trades (wins ++ losses)
           /\ Forall (fun t => 0 < Simulator.profit_usd t) wins
           /\ Forall (fun t => Simulator.profit_usd t <= 0) losses
           /\ Simulator.winning_trades s = List.length wins
           /\ Simulator.losing_trades s = List.length losses.
Proof.
  intros trades Hne.
  eexists. split; [apply (statistics_of_nonempty trades Hne)|].
  cbn [Simulator.total_trades Simulator.winning_trades
       Simulator.losing_trades Simulator.total_profit_usd
       Simulator.avg_profit].
  rewrite losing_is_not_winning.
  split; [reflexivity|]. split; [apply filter_length|].
  split; [apply py_sum_profits|]. split; [reflexivity|].
  exists (filter (fun t => Qlt_bool 0 (Simulator.profit_usd t)) trades),
         (filter (fun t => negb (Qlt_bool 0 (Simulator.profit_usd t))) trades).
  split; [apply filter_split|].
  split; [|split; [|split; reflexivity]].
  - apply Forall_forall. intros t Ht. apply filter_In in Ht.
    destruct Ht as [_ Ht]. now apply Qlt_bool_iff.
  - apply Forall_forall. intros t Ht. apply filter_In in Ht.
    destruct Ht as [_ Ht]. apply negb_true_iff in Ht.
    now apply Qlt_bool_false.
Qed.

(** A break-even trade and a winning one: one losing, one winning. *)
Lemma trade_statistics_counts_witness :
  exists s,
    Simulator.calculate_trade_statistics
      [Simulator.mkTrade 0 100 1 100 0 0; Simulator.mkTrade 2 100 3 110 10 5]
    = Some s
    /\ Simulator.winning_trades s = 1%nat
    /\ Simulator.losing_trades s = 1%nat.
Proof.
  destruct (trade_statistics_counts
              [Simulator.mkTrade 0 100 1 100 0 0;
               Simulator.mkTrade 2 100 3 110 10 5])
    as (s & E & _); [discriminate|].
  exists s. split; [exact E|].
  vm_compute in E. injection E as <-. split; reflexivity.
Defined.

(** ** Strategy evaluators *)

Section EvaluatorFacts.
Import Strategies.

(** What a result built from the statistics of a trade list carries. *)
Lemma with_stats_rate coin p lo hi signals trades stats :
  Simulator.calculate_trade_statistics trades = Some stats ->
  let r := with_stats coin p lo hi signals stats in
  total_trades r = List.length trades
  /\ (0 < total_trades r)%nat
  /\ win_rate r
     == Simulator.of_nat (winning_trades r)
        / Simulator.of_nat (total_trades r) * 100.
Proof.
  intros E r. destruct trades as [|t rest]; [discriminate|].
  rewrite statistics_of_nonempty in E by discriminate.
  injection E as <-. subst r. cbn.
  split; [reflexivity|]. split; [lia|reflexivity].
Qed.

End EvaluatorFacts.

(** C2.  For every candle series and parameter tuple, when the simulated
    trade list is empty the evaluator returns None, and a result that is
    returned has total_trades > 0, the number of simulated trades, and
    win_rate = winning_trades / total_trades * 100.  Stated for the RSI
    evaluator and, in the same words, for the SMA evaluator. *)
Theorem evaluator_none_without_trades :
  forall (df : list Strategies.Candle) (coin : string) (position_size : Q),
    (forall (period : nat) (oversold overbought : Z),
        let trades :=
          Simulator.simulate_trades
            (Strategies.rsi_signals df period oversold overbought)
            position_size in
        (trades = [] ->
         Strategies.run_rsi_backtest df coin period oversold overbought
           position_size = None)
        /\ (forall r,
               Strategies.run_rsi_backtest df coin period oversold overbought
                 position_size = Some r ->
               Strategies.total_trades r = List.length trades
               /\ (0 < Strategies.total_trades r)%nat
               /\ Strategies.win_rate r
                  == Simulator.of_nat (Strategies.winning_trades r)
                     / Simulator.of_nat (Strategies.total_trades r) * 100))
    /\ (forall (short_period long_period : nat),
        let trades :=
          Simulator.simulate_trades
            (Strategies.sma_signals df short_period long_period)
            position_size in
        (trades = [] ->
         Strategies.run_sma_backtest df coin short_period long_period
           position_size = None)
        /\ (forall r,
               Strategies.run_sma_backtest df coin short_period long_period
                 position_size = Some r ->
               Strategies.total_trades r = List.length trades
               /\ (0 < Strategies.total_trades r)%nat
               /\ Strategies.win_rate r
                  == Simulator.of_nat (Strategies.winning_trades r)
                     / Simulator.of_nat (Strategies.total_trades r) * 100)).
Proof.
  intros df coin position_size. split.
  - intros period oversold overbought trades. split.
    + intro E. unfold Strategies.run_rsi_backtest. fold trades. now rewrite E.
    + intros r. unfold Strategies.run_rsi_backtest. fold trades.
      destruct (Simulator.calculate_trade_statistics trades) as [stats|] eqn:E;
        [|discriminate].
      intro H. injection H as <-. exact (with_stats_rate _ _ _ _ _ _ _ E).
  - intros short_period long_period trades. split.
    + intro E. unfold Strategies.run_sma_backtest. fold trades. now rewrite E.
    + intros r. unfold Strategies.run_sma_backtest. fold trades.
      destruct (Simulator.calculate_trade_statistics trades) as [stats|] eqn:E;
        [|discriminate].
      intro H. injection H as <-. exact (with_stats_rate _ _ _ _ _ _ _ E).
Qed.

(** Six candles that fall and rise again: the RSI evaluator with period 2 and
    thresholds 30 and 70 closes one trade and returns a result. *)
Definition swing_candles : list Strategies.Candle :=
  map (fun p : Q => Strategies.mkCandle 0 p p p p 1) [10; 9; 8; 9; 10; 11].

Lemma evaluator_none_without_trades_witness :
  exists r,
    Strategies.run_rsi_backtest swing_candles "BTC" 2 30 70 100 = Some r
    /\ Strategies.total_trades r = 1%nat
    /\ Strategies.win_rate r
       == Simulator.of_nat (Strategies.winning_trades r)
          / Simulator.of_nat (Strategies.total_trades r) * 100.
Proof.
  eexists. split; [vm_compute; reflexivity|]. split; [reflexivity|].
  refine (proj2 (proj2 (proj2 (proj1 (evaluator_none_without_trades
                                        swing_candles "BTC" 100) 2%nat 30%Z 70%Z)
                          _ _))).
  vm_compute; reflexivity.
Defined.

(** ** Ranking *)

Section RankingFacts.
Import Strategies Results.

(** [r] is the best row of its coin in [results], the first one on a tie:
    the rows of that coin before it have strictly less profit, the rows of
    that coin after it have no more. *)
Definition first_best (results : list BacktestResult) (r : BacktestResult)
    : Prop :=
  exists pre post,
    results = pre ++ r :: post
    /\ (forall r', In r' pre -> coin r' = coin r ->
                   total_profit_usd r' < total_profit_usd r)
    /\ (forall r', In r' post -> coin r' = coin r ->
                   total_profit_usd r' <= total_profit_usd r).

(** Sorted by total profit, largest first. *)
Definition sorted_desc (l : list BacktestResult) : Prop :=
  StronglySorted (fun a b => total_profit_usd b <= total_profit_usd a) l.

(** *** The dict *)

Lemma dict_get_none (d : dict) k :
  dict_get d k = None <-> ~ In k (map fst d).
Proof.
  induction d as [|[k' v'] d IH]; simpl.
  - tauto.
  - destruct (String.eqb_spec k' k) as [->|Hne].
    + split; [discriminate|]. intro H. exfalso. apply H. now left.
    + rewrite IH. tauto.
Qed.

Lemma dict_get_in (d : dict) k v :
  dict_get d k = Some v -> In (k, v) d.
Proof.
  induction d as [|[k' v'] d IH]; simpl; [discriminate|].
  destruct (String.eqb_spec k' k) as [->|Hne].
  - intro H. injection H as ->. now left.
  - intro H. right. now apply IH.
Qed.

Lemma in_dict_get (d : dict) k v :
  NoDup (map fst d) -> In (k, v) d -> dict_get d k = Some v.
Proof.
  induction d as [|[k' v'] d IH]; simpl; [tauto|].
  intros Hnd [H|H].
  - injection H as -> ->. now rewrite String.eqb_refl.
  - inversion Hnd as [|? ? Hnotin Hnd']; subst.
    destruct (String.eqb_spec k' k) as [->|Hne].
    + exfalso. apply Hnotin. apply (in_map fst) in H. exact H.
    + now apply IH.
Qed.

Lemma dict_set_absent (d : dict) k v :
  ~ In k (map fst d) -> dict_set d k v = d ++ [(k, v)].
Proof.
  induction d as [|[k' v'] d IH]; simpl; [reflexivity|].
  intro H. destruct (String.eqb_spec k' k) as [->|Hne].
  - exfalso. apply H. now left.
  - f_equal. apply IH. tauto.
Qed.

Lemma dict_set_keys (d : dict) k v :
  In k (map fst d) -> map fst (dict_set d k v) = map fst d.
Proof.
  induction d as [|[k' v'] d IH]; simpl; [tauto|].
  intro H. destruct (String.eqb_spec k' k) as [->|Hne]; simpl.
  - reflexivity.
  - f_equal. apply IH. destruct H; [congruence|assumption].
Qed.

Lemma dict_set_in (d : dict) k v k0 v0 :
  NoDup (map fst d) ->
  In k (map fst d) ->
  In (k0, v0) (dict_set d k v) ->
  (k0 = k /\ v0 = v) \/ (k0 <> k /\ In (k0, v0) d).
Proof.
  induction d as [|[k' v'] d IH]; simpl; [tauto|].
  intros Hnd Hk. inversion Hnd as [|? ? Hnotin Hnd']; subst.
  destruct (String.eqb_spec k' k) as [->|Hne]; simpl.
  - intros [H|H].
    + injection H as <- <-. now left.
    + right. split; [|now right].
      intros ->. apply Hnotin. apply (in_map fst) in H. exact H.
  - intros [H|H].
    + injection H as <- <-. right. split; [congruence|now left].
    + destruct Hk as [Hk|Hk]; [congruence|].
      destruct (IH Hnd' Hk H) as [?|[? ?]]; [now left|].
      right. split; [assumption|now right].
Qed.

(** *** The grouping loop *)

(** The invariant of the loop after the rows [seen]: the keys are distinct,
    every entry is the first best row of its coin, and every coin seen has
    an entry. *)
Record grouped (seen : list BacktestResult) (d : dict) : Prop := {
  g_nodup : NoDup (map fst d);
  g_best : forall k v, In (k, v) d -> coin v = k /\ first_best seen v;
  g_all : forall r, In r seen -> In (coin r) (map fst d)
}.

Lemma first_best_later seen v r :
  first_best seen v ->
  (coin r = coin v -> total_profit_usd r <= total_profit_usd v) ->
  first_best (seen ++ [r]) v.
Proof.
  intros (pre & post & -> & Hpre & Hpost) Hr.
  exists pre, (post ++ [r]). split.
  - now rewrite <- app_assoc.
  - split; [exact Hpre|].
    intros r' Hin Hc. apply in_app_or in Hin. destruct Hin as [Hin|[<-|[]]].
    + now apply Hpost.
    + now apply Hr.
Qed.

Lemma first_best_replaced seen best r :
  first_best seen best -> coin best = coin r ->
  total_profit_usd best < total_profit_usd r ->
  first_best (seen ++ [r]) r.
Proof.
  intros (pre & post & -> & Hpre & Hpost) Hc Hlt.
  exists (pre ++ best :: post), []. split; [reflexivity|]. split.
  - intros r' Hin Hc'. apply in_app_or in Hin.
    destruct Hin as [Hin|[<-|Hin]].
    + apply Qlt_trans with (total_profit_usd best); [|exact Hlt].
      apply Hpre; [assumption|congruence].
    + exact Hlt.
    + apply Qle_lt_trans with (total_profit_usd best); [|exact Hlt].
      apply Hpost; [assumption|congruence].
  - intros r' [].
Qed.

Lemma group_step_grouped seen d r :
  grouped seen d -> grouped (seen ++ [r]) (group_step d r).
Proof.
  intros [Hnd Hbest Hall]. unfold group_step.
  destruct (dict_get d (coin r)) as [best|] eqn:Eget.
  - (* the coin has an entry *)
    pose proof (dict_get_in _ _ _ Eget) as Hin.
    assert (Hkey : In (coin r) (map fst d))
      by (apply (in_map fst) in Hin; exact Hin).
    destruct (Hbest _ _ Hin) as [Hcb Hfb].
    destruct (Qlt_bool (total_profit_usd best) (total_profit_usd r)) eqn:Elt;
      qbool.
    + constructor.
      * now rewrite dict_set_keys.
      * intros k v Hkv.
        destruct (dict_set_in _ _ _ _ _ Hnd Hkey Hkv) as [[-> ->]|[Hne Hold]].
        -- split; [reflexivity|].
           now apply (first_best_replaced seen best).
        -- destruct (Hbest _ _ Hold) as [Hc Hf]. split; [exact Hc|].
           apply first_best_later; [exact Hf|]. intro. congruence.
      * intros r' Hr'. rewrite dict_set_keys by assumption.
        apply in_app_or in Hr'. destruct Hr' as [Hr'|[<-|[]]];
          [now apply Hall|assumption].
    + constructor.
      * exact Hnd.
      * intros k v Hkv. destruct (Hbest _ _ Hkv) as [Hc Hf].
        split; [exact Hc|]. apply first_best_later; [exact Hf|].
        intro Hcr.
        assert (v = best) as ->.
        { assert (dict_get d k = Some v) as Hg by now apply in_dict_get.
          rewrite <- Hc, <- Hcr in Hg. congruence. }
        exact Elt.
      * intros r' Hr'. apply in_app_or in Hr'.
        destruct Hr' as [Hr'|[<-|[]]]; [now apply Hall|assumption].
  - (* a new coin: its entry goes last *)
    apply dict_get_none in Eget. rewrite dict_set_absent by assumption.
    constructor.
    + rewrite map_app. simpl.
      apply NoDup_app; [assumption|repeat constructor; tauto|].
      intros x Hx [<-|[]]. contradiction.
    + intros k v Hkv. apply in_app_or in Hkv.
      destruct Hkv as [Hkv|[Hkv|[]]].
      * destruct (Hbest _ _ Hkv) as [Hc Hf]. split; [exact Hc|].
        apply first_best_later; [exact Hf|]. intro Hcr. exfalso.
        apply Eget. rewrite Hcr, Hc. apply (in_map fst) in Hkv. exact Hkv.
      * injection Hkv as <- <-. split; [reflexivity|].
        exists seen, []. split; [reflexivity|]. split.
        -- intros r' Hr' Hc. exfalso. apply Eget. rewrite <- Hc.
           now apply Hall.
        -- intros r' [].
    + intros r' Hr'. rewrite map_app. apply in_or_app.
      apply in_app_or in Hr'. destruct Hr' as [Hr'|[<-|[]]].
      * left. now apply Hall.
      * right. now left.
Qed.

Lemma group_loop_grouped rest :
  forall seen d, grouped seen d ->
                 grouped (seen ++ rest) (fold_left group_step rest d).
Proof.
  induction rest as [|r rest IH]; intros seen d H; simpl.
  - now rewrite app_nil_r.
  - replace (seen ++ r :: rest) with ((seen ++ [r]) ++ rest)
      by (rewrite <- app_assoc; reflexivity).
    apply IH. now apply group_step_grouped.
Qed.

Lemma grouped_nil : grouped [] [].
Proof.
  constructor; simpl.
  - constructor.
  - intros k v [].
  - intros r [].
Qed.

End RankingFacts.

Section SortingFacts.
Import Strategies Results.

Lemma insert_desc_perm x l : Permutation (insert_desc x l) (x :: l).
Proof.
  induction l as [|y l IH]; simpl; [reflexivity|].
  destruct (Qlt_bool (total_profit_usd x) (total_profit_usd y)).
  - rewrite IH. apply perm_swap.
  - reflexivity.
Qed.

Lemma sort_perm l : Permutation (sort_by_profit_desc l) l.
Proof.
  induction l as [|x l IH]; simpl; [reflexivity|].
  rewrite insert_desc_perm. now constructor.
Qed.

Lemma insert_desc_sorted x l :
  sorted_desc l -> sorted_desc (insert_desc x l).
Proof.
  unfold sorted_desc. induction l as [|y l IH]; intro Hs; simpl.
  - repeat constructor.
  - inversion Hs as [|? ? Hs' Hall]; subst.
    destruct (Qlt_bool (total_profit_usd x) (total_profit_usd y)) eqn:E;
      qbool.
    + constructor; [now apply IH|].
      apply Forall_forall. intros z Hz.
      apply (Permutation_in _ (insert_desc_perm x l)) in Hz.
      destruct Hz as [<-|Hz]; [now apply Qlt_le_weak|].
      rewrite Forall_forall in Hall. now apply Hall.
    + constructor; [exact Hs|].
      constructor; [exact E|].
      rewrite Forall_forall in Hall |- *. intros z Hz.
      apply Qle_trans with (total_profit_usd y); [now apply Hall|exact E].
Qed.

Lemma sort_sorted l : sorted_desc (sort_by_profit_desc l).
Proof.
  induction l as [|x l IH]; simpl.
  - constructor.
  - now apply insert_desc_sorted.
Qed.

(** Sorting a list that is sorted leaves it as it is: the sort is stable. *)
Lemma sort_of_sorted l : sorted_desc l -> sort_by_profit_desc l = l.
Proof.
  unfold sorted_desc. induction l as [|x l IH]; intro Hs; simpl.
  - reflexivity.
  - inversion Hs as [|? ? Hs' Hall]; subst. rewrite (IH Hs').
    destruct l as [|y l]; simpl; [reflexivity|].
    inversion Hall as [|? ? Hy _]; subst.
    apply Qlt_bool_false in Hy. now rewrite Hy.
Qed.

(** On rows of distinct coins the grouping loop keeps every row, in order. *)
Lemma group_loop_distinct l :
  forall d,
    NoDup (map fst d ++ map coin l) ->
    fold_left group_step l d = d ++ map (fun r => (coin r, r)) l.
Proof.
  induction l as [|r l IH]; intros d Hnd; simpl.
  - now rewrite app_nil_r.
  - assert (Hfresh : ~ In (coin r) (map fst d)).
    { intro Hin. simpl in Hnd.
      apply NoDup_remove_2 in Hnd. apply Hnd.
      apply in_or_app. now left. }
    unfold group_step at 2.
    rewrite (proj2 (dict_get_none d (coin r)) Hfresh).
    rewrite dict_set_absent by assumption.
    rewrite IH.
    + rewrite <- app_assoc. reflexivity.
    + rewrite map_app. simpl. rewrite <- app_assoc. exact Hnd.
Qed.

Lemma dict_values_keys seen d :
  grouped seen d -> map coin (dict_values d) = map fst d.
Proof.
  intros [_ Hbest _]. unfold dict_values. rewrite map_map.
  apply map_ext_in. intros [k v] Hin. simpl.
  now destruct (Hbest k v Hin).
Qed.

End SortingFacts.

(** C3.  For every list of rows, [group_best_results_by_coin] returns one
    row per distinct coin of the list (the coins of the output are distinct
    and are the coins of the input), each the first best row of its coin
    (maximum total profit, the first-encountered row on an exact tie), sorted
    by total profit descending; applied to its own output it returns the
    same list. *)
Theorem group_best_results_by_coin_ranking :
  forall results : list Strategies.BacktestResult,
    let best := Results.group_best_results_by_coin results in
    NoDup (map Strategies.coin best)
    /\ (forall c, In c (map Strategies.coin best)
                  <-> In c (map Strategies.coin results))
    /\ (forall r, In r best -> first_best results r)
    /\ sorted_desc best
    /\ Results.group_best_results_by_coin best = best.
Proof.
  intros results best.
  pose proof (group_loop_grouped results [] [] grouped_nil) as G.
  simpl in G. set (d := fold_left Results.group_step results []) in *.
  assert (Hperm : Permutation best (Results.dict_values d))
    by apply sort_perm.
  assert (Hnd : NoDup (map Strategies.coin best)).
  { apply (Permutation_NoDup
             (Permutation_sym (Permutation_map Strategies.coin Hperm))).
    rewrite (dict_values_keys _ _ G). apply (g_nodup _ _ G). }
  assert (Hsorted : sorted_desc best) by apply sort_sorted.
  split; [exact Hnd|]. split; [|split; [|split; [exact Hsorted|]]].
  - intro c. rewrite (Permutation_in' (eq_refl c)
                        (Permutation_map Strategies.coin Hperm)).
    rewrite (dict_values_keys _ _ G). split.
    + intro Hin. apply in_map_iff in Hin. destruct Hin as ([k v] & <- & Hin).
      destruct (g_best _ _ G k v Hin) as [Hc (pre & post & -> & _)].
      simpl. rewrite <- Hc. apply in_map. apply in_or_app. right. now left.
    + intro Hin. apply in_map_iff in Hin. destruct Hin as (r & <- & Hin).
      now apply (g_all _ _ G).
  - intros r Hr. apply (Permutation_in _ Hperm) in Hr.
    unfold Results.dict_values in Hr. apply in_map_iff in Hr.
    destruct Hr as ([k v] & <- & Hin). simpl.
    now destruct (g_best _ _ G k v Hin).
  - unfold Results.group_best_results_by_coin at 1.
    rewrite (group_loop_distinct best []) by exact Hnd.
    simpl. unfold Results.dict_values. rewrite map_map. simpl.
    rewrite map_id. now apply sort_of_sorted.
Qed.

(** ** Persistence *)

Section PersistenceFacts.
Import Strategies Results.

(** [r] is the first row of its coin in [results]. *)
Definition first_of_coin (results : list BacktestResult) (r : BacktestResult)
    : Prop :=
  exists pre post,
    results = pre ++ r :: post
    /\ (forall r', In r' pre -> coin r' <> coin r).

(** The document [doc] carries the coin, the parameters and the performance
    fields of the row [r]. *)
Definition carries (doc : ParameterRecord) (r : BacktestResult) : Prop :=
  pr_coin doc = coin r
  /\ best_parameters doc
     = mkBestParameters (period r) (oversold r) (overbought r)
  /\ performance doc
     = mkPerformance (total_profit_usd r) (total_trades r) (winning_trades r)
         (losing_trades r) (win_rate r) (avg_profit r) (signals_generated r).

(** *** The first loop: the first row of every coin *)

Record firsts (seen : list BacktestResult) (d : dict) : Prop := {
  f_nodup : NoDup (map fst d);
  f_first : forall k v, In (k, v) d -> coin v = k /\ first_of_coin seen v;
  f_all : forall r, In r seen -> In (coin r) (map fst d)
}.

Lemma first_of_coin_later seen v r :
  first_of_coin seen v -> first_of_coin (seen ++ [r]) v.
Proof.
  intros (pre & post & -> & Hpre).
  exists pre, (post ++ [r]). split; [now rewrite <- app_assoc|exact Hpre].
Qed.

Lemma first_step_firsts seen d r :
  firsts seen d -> firsts (seen ++ [r]) (first_step d r).
Proof.
  intros [Hnd Hfirst Hall]. unfold first_step.
  destruct (dict_get d (coin r)) as [v0|] eqn:Eget.
  - pose proof (dict_get_in _ _ _ Eget) as Hin.
    constructor.
    + exact Hnd.
    + intros k v Hkv. destruct (Hfirst _ _ Hkv) as [Hc Hf].
      split; [exact Hc|now apply first_of_coin_later].
    + intros r' Hr'. apply in_app_or in Hr'.
      destruct Hr' as [Hr'|[<-|[]]]; [now apply Hall|].
      apply (in_map fst) in Hin. exact Hin.
  - apply dict_get_none in Eget. rewrite dict_set_absent by assumption.
    constructor.
    + rewrite map_app. simpl.
      apply NoDup_app; [assumption|repeat constructor; tauto|].
      intros x Hx [<-|[]]. contradiction.
    + intros k v Hkv. apply in_app_or in Hkv.
      destruct Hkv as [Hkv|[Hkv|[]]].
      * destruct (Hfirst _ _ Hkv) as [Hc Hf].
        split; [exact Hc|now apply first_of_coin_later].
      * injection Hkv as <- <-. split; [reflexivity|].
        exists seen, []. split; [reflexivity|].
        intros r' Hr' Hc. apply Eget. rewrite <- Hc. now apply Hall.
    + intros r' Hr'. rewrite map_app. apply in_or_app.
      apply in_app_or in Hr'. destruct Hr' as [Hr'|[<-|[]]].
      * left. now apply Hall.
      * right. now left.
Qed.

Lemma first_loop_firsts rest :
  forall seen d, firsts seen d ->
                 firsts (seen ++ rest) (fold_left first_step rest d).
Proof.
  induction rest as [|r rest IH]; intros seen d H; simpl.
  - now rewrite app_nil_r.
  - replace (seen ++ r :: rest) with ((seen ++ [r]) ++ rest)
      by (rewrite <- app_assoc; reflexivity).
    apply IH. now apply first_step_firsts.
Qed.

Lemma firsts_nil : firsts [] [].
Proof.
  constructor; simpl.
  - constructor.
  - intros k v [].
  - intros r [].
Qed.

(** *** The write loop *)

Variable env : Env.
Variables signal_name timerange : string.
Variable position_size : Q.
Variable stamp : string.

Definition filepath_of (coin : string) : string :=
  ("results/" ++ coin ++ "_" ++ signal_name ++ "_" ++ stamp ++ ".json")%string.

(** One write: it raises and leaves the files as they were, or it returns
    and adds one document that carries the row. *)
Lemma save_one_outcome (item : string * BacktestResult) (w : World) :
  let run := save_one env signal_name timerange position_size stamp item w in
  (write_fails env (filepath_of (fst item)) = true
   /\ fst run = Raised /\ files (snd run) = files w)
  \/ (write_fails env (filepath_of (fst item)) = false
      /\ fst run = Returned tt
      /\ exists doc,
           files (snd run) = files w ++ [(filepath_of (fst item), doc)]
           /\ pr_coin doc = fst item
           /\ (coin (snd item) = fst item -> carries doc (snd item))).
Proof.
  destruct item as [c r]. unfold save_one, bind, read_clock, write_json, print.
  cbn [fst snd files stdout clock_reads]. fold (filepath_of c).
  destruct (write_fails env (filepath_of c)) eqn:E.
  - left. cbn. auto.
  - right. cbn. split; [reflexivity|]. split; [reflexivity|].
    eexists. split; [reflexivity|]. split; [reflexivity|].
    intro Hc. unfold carries. cbn. auto.
Qed.

(** The loop writes the documents of an initial part of the items, up to
    the first write that fails; it returns exactly when that part is all of
    them. *)
Lemma for_each_save_outcome (items : dict) :
  forall w,
    (forall k v, In (k, v) items -> coin v = k) ->
    let run :=
      for_each items
        (save_one env signal_name timerange position_size stamp) w in
    exists kept skipped docs,
      items = kept ++ skipped
      /\ files (snd run) = files w ++ docs
      /\ Forall2 carries (map snd docs) (map snd kept)
      /\ map fst docs = map (fun item => filepath_of (fst item)) kept
      /\ (fst run = Returned tt \/ fst run = Raised)
      /\ (forall item rest, skipped = item :: rest ->
                            write_fails env (filepath_of (fst item)) = true)
      /\ (forall item, In item kept ->
                       write_fails env (filepath_of (fst item)) = false).
Proof.
  induction items as [|item items IH]; intros w Hkeys run.
  - exists [], [], []. subst run. cbn. rewrite app_nil_r.
    repeat split; auto; [intros item rest E; discriminate|intros item []].
  - subst run. cbn [for_each]. unfold bind.
    pose proof (save_one_outcome item w) as H1. cbv zeta in H1.
    destruct (save_one env signal_name timerange position_size stamp item w)
      as [res w1] eqn:E1.
    cbn [fst snd] in H1.
    destruct H1 as [(Hfail & -> & Hfiles)|(Hok & -> & doc & Hfiles & _ & Hcar)].
    + exists [], (item :: items), []. cbn. rewrite app_nil_r.
      repeat split; auto; [|intros item' []].
      intros item' rest E. injection E as <- <-. exact Hfail.
    + destruct (IH w1)
        as (kept & skipped & docs & -> & Hf & Hc & Hp & Hor & Hskip & Hkept).
      { intros k v Hin. apply Hkeys. now right. }
      exists (item :: kept), skipped, ((filepath_of (fst item), doc) :: docs).
      cbv zeta in Hf, Hor.
      split; [reflexivity|]. split.
      { rewrite Hf, Hfiles, <- app_assoc. reflexivity. }
      split.
      { cbn. constructor; [|exact Hc]. apply Hcar.
        destruct item as [k v]. apply Hkeys. now left. }
      split; [cbn; now rewrite Hp|]. split; [exact Hor|].
      split; [exact Hskip|].
      intros item' [<-|Hin]; [exact Hok|now apply Hkept].
Qed.

End PersistenceFacts.

Section SavedRows.
Import Strategies Results.

(** In a list sorted by profit, the first row of a coin is its best row. *)
Lemma first_of_coin_sorted results r :
  sorted_desc results -> first_of_coin results r -> first_best results r.
Proof.
  intros Hs (pre & post & -> & Hpre).
  exists pre, post. split; [reflexivity|]. split.
  - intros r' Hin Hc. exfalso. now apply (Hpre r' Hin).
  - intros r' Hin _. unfold sorted_desc in Hs.
    induction pre as [|x pre IH].
    + simpl in Hs. inversion Hs as [|? ? _ Hall]; subst.
      rewrite Forall_forall in Hall. now apply Hall.
    + simpl in Hs. inversion Hs; subst. apply IH; [assumption|].
      intros r'' Hin''. apply Hpre. now right.
Qed.

(** The first row of each distinct coin of a list, in the order in which
    the coins first appear: what "one row per coin, first seen" means. *)
Fixpoint first_rows (results : list BacktestResult) : list BacktestResult :=
  match results with
  | [] => []
  | r :: rest =>
      r :: filter (fun r' => negb (coin r' =? coin r)%string)
             (first_rows rest)
  end.

(** A row whose coin is not among the keys. *)
Definition unseen (keys : list string) (r : BacktestResult) : bool :=
  negb (existsb (String.eqb (coin r)) keys).

Lemma filter_twice {A} (f g : A -> bool) (l : list A) :
  filter f (filter g l) = filter (fun x => g x && f x) l.
Proof.
  induction l as [|x l IH]; simpl; [reflexivity|].
  destruct (g x); simpl; [destruct (f x)|]; now rewrite IH.
Qed.

(** The first loop of [save_best_results] adds to its dict, in order, the
    first rows of the coins it does not hold yet. *)
Lemma first_loop_rows l :
  forall d,
    dict_values (fold_left first_step l d)
    = dict_values d ++ filter (unseen (map fst d)) (first_rows l).
Proof.
  induction l as [|r rest IH]; intro d; cbn [fold_left first_rows].
  - simpl. now rewrite app_nil_r.
  - rewrite IH. unfold first_step.
    destruct (dict_get d (coin r)) as [held|] eqn:Eg.
    + assert (Hin : In (coin r) (map fst d))
        by (apply dict_get_in in Eg; apply (in_map fst) in Eg; exact Eg).
      assert (Hr : unseen (map fst d) r = false).
      { unfold unseen. apply negb_false_iff. apply existsb_exists.
        exists (coin r). split; [exact Hin|apply String.eqb_refl]. }
      cbn [filter]. rewrite Hr. f_equal. rewrite filter_twice.
      apply filter_ext_in. intros x _.
      destruct (String.eqb_spec (coin x) (coin r)) as [E|_];
        [|reflexivity].
      cbn [negb andb]. unfold unseen. rewrite E. exact Hr.
    + apply dict_get_none in Eg.
      assert (Hr : unseen (map fst d) r = true).
      { unfold unseen. apply negb_true_iff. apply not_true_iff_false.
        intro H. apply existsb_exists in H as (k & Hk & E).
        apply String.eqb_eq in E. subst k. contradiction. }
      rewrite dict_set_absent by assumption.
      unfold dict_values. rewrite !map_app. cbn [map fst snd filter].
      rewrite Hr, <- app_assoc. cbn [app]. do 2 f_equal.
      rewrite filter_twice. apply filter_ext. intro x.
      unfold unseen. rewrite existsb_app. cbn [existsb].
      rewrite orb_false_r.
      destruct (existsb _ (map fst d)), (coin x =? coin r)%string;
        reflexivity.
Qed.

Lemma first_loop_first_rows l :
  dict_values (fold_left first_step l []) = first_rows l.
Proof.
  rewrite first_loop_rows. cbn [dict_values map app].
  induction (first_rows l) as [|x rows IH]; [reflexivity|].
  cbn. now rewrite IH.
Qed.

End SavedRows.

(** C4, as the code has it.  For every list of rows and whatever fails,
    [save_best_results] returns to its caller without an exception.  The
    rows it means to save are the first row of each distinct coin of the
    list, one per coin, which is the coin's row of maximum total profit when
    the list is sorted by total profit descending (as
    [_execute_optimization] passes it).  It writes one document per row, in
    order, each at the path of its coin and carrying the parameters and the
    performance of its row, for the rows [kept] before the first failure;
    the rows [skipped] from there on have no document, and the first of them
    is the one whose write failed (or [os.makedirs] failed).  The rows
    [kept ++ skipped] are the first rows of the coins in the order in which
    the coins first appear in the list ([first_rows]), and the write of
    every kept row succeeded: [kept] is the longest initial part of that
    list whose writes all succeed, so the first failing write ends the
    loop.  When nothing fails every distinct coin has its document. *)
Theorem save_best_results_first_rows :
  forall (env : Results.Env) (all_results : list Strategies.BacktestResult)
         (signal_name timerange : string) (position_size : Q)
         (w : Results.World),
    let run :=
      Results.save_best_results env all_results signal_name timerange
        position_size w in
    let path_of r :=
      filepath_of signal_name
        (Results.now_stamp env (Results.clock_reads w)) (Strategies.coin r) in
    fst run = Results.Returned tt
    /\ exists kept skipped docs,
         Results.files (snd run) = Results.files w ++ docs
         /\ Forall2 carries (map snd docs) kept
         /\ map fst docs = map path_of kept
         /\ NoDup (map Strategies.coin (kept ++ skipped))
         /\ (forall c, In c (map Strategies.coin all_results)
                       <-> In c (map Strategies.coin (kept ++ skipped)))
         /\ (forall r, In r (kept ++ skipped) -> first_of_coin all_results r)
         /\ (sorted_desc all_results ->
             forall r, In r (kept ++ skipped) -> first_best all_results r)
         /\ (forall r rest, skipped = r :: rest ->
                            Results.makedirs_fails env = true
                            \/ Results.write_fails env (path_of r) = true)
         /\ (Results.makedirs_fails env = false ->
             (forall p, Results.write_fails env p = false) ->
             skipped = [])
         /\ kept ++ skipped = first_rows all_results
         /\ (forall r, In r kept ->
                       Results.makedirs_fails env = false
                       /\ Results.write_fails env (path_of r) = false).
Proof.
  intros env all_results signal_name timerange position_size w run path_of.
  pose proof (first_loop_firsts all_results [] [] firsts_nil) as F.
  simpl in F. subst run.
  set (d := fold_left Results.first_step all_results []) in *.
  assert (Hcoin : forall k v, In (k, v) d -> Strategies.coin v = k)
    by (intros k v Hin; now destruct (f_first _ _ F k v Hin)).
  assert (Hcoins : map Strategies.coin (map snd d) = map fst d).
  { rewrite map_map. apply map_ext_in. intros [k v] Hin. simpl.
    now apply Hcoin. }
  (* what holds of the rows to save, however they split *)
  assert (Hrows :
    forall kept skipped : Results.dict, d = kept ++ skipped ->
      NoDup (map Strategies.coin (map snd kept ++ map snd skipped))
      /\ (forall c, In c (map Strategies.coin all_results)
                    <-> In c (map Strategies.coin
                                (map snd kept ++ map snd skipped)))
      /\ (forall r, In r (map snd kept ++ map snd skipped) ->
                    first_of_coin all_results r)
      /\ (sorted_desc all_results ->
          forall r, In r (map snd kept ++ map snd skipped) ->
                    first_best all_results r)).
  { intros kept skipped Hd. rewrite <- map_app, <- Hd, Hcoins.
    assert (Hfirst : forall r, In r (map snd d) -> first_of_coin all_results r).
    { intros r Hr. apply in_map_iff in Hr. destruct Hr as ([k v] & <- & Hin).
      now apply (f_first _ _ F k v). }
    split; [apply (f_nodup _ _ F)|]. split; [|split].
    - intro c. split.
      + intro Hin. apply in_map_iff in Hin. destruct Hin as (r & <- & Hin).
        now apply (f_all _ _ F).
      + intro Hin. apply in_map_iff in Hin. destruct Hin as ([k v] & <- & Hin).
        destruct (f_first _ _ F k v Hin) as [Hc (pre & post & -> & _)].
        simpl. rewrite <- Hc. apply in_map. apply in_or_app. right. now left.
    - exact Hfirst.
    - intros Hs r Hr. apply first_of_coin_sorted; auto. }
  unfold Results.save_best_results, Results.try_except, Results.bind,
    Results.makedirs.
  change (fold_left Results.first_step all_results []) with d.
  destruct (Results.makedirs_fails env) eqn:Emk.
  - cbn. split; [reflexivity|].
    exists [], (map snd d), []. rewrite app_nil_r.
    destruct (Hrows [] d eq_refl) as (H1 & H2 & H3 & H4).
    split; [reflexivity|]. split; [constructor|]. split; [reflexivity|].
    split; [exact H1|]. split; [exact H2|]. split; [exact H3|].
    split; [exact H4|]. split; [intros; now left|].
    split; [discriminate|].
    split; [apply first_loop_first_rows|intros r []].
  - cbn [Results.read_clock].
    set (w1 := Results.mkWorld _ _ _).
    set (stamp := Results.now_stamp env (Results.clock_reads w)) in *.
    destruct (for_each_save_outcome env signal_name timerange position_size
                stamp d w1 Hcoin)
      as (kept & skipped & docs & Hd & Hf & Hc & Hp & Hor & Hskip & Hkept).
    cbv zeta in Hf, Hor.
    destruct (Results.for_each d _ w1) as [res w2] eqn:E.
    cbn [fst snd] in Hf, Hor.
    destruct (Hrows kept skipped Hd) as (H1 & H2 & H3 & H4).
    assert (Horder : map snd kept ++ map snd skipped
                     = first_rows all_results).
    { rewrite <- map_app, <- Hd. apply first_loop_first_rows. }
    assert (Hwritten : forall r, In r (map snd kept) ->
                         Results.write_fails env (path_of r) = false).
    { intros r Hr. apply in_map_iff in Hr as ([k v] & <- & Hin).
      rewrite <- (Hkept (k, v) Hin). subst path_of. cbv beta.
      cbn [fst snd]. rewrite (Hcoin k v); [reflexivity|].
      rewrite Hd. apply in_or_app. now left. }
    assert (Hpaths : map fst docs = map path_of (map snd kept)).
    { rewrite Hp, map_map. apply map_ext_in. intros [k v] Hin. simpl.
      subst path_of. cbv beta. rewrite (Hcoin k v); [reflexivity|].
      rewrite Hd. apply in_or_app. now left. }
    assert (Hhead : forall r rest, map snd skipped = r :: rest ->
                      Results.write_fails env (path_of r) = true).
    { intros r rest Er. destruct skipped as [|[k v] skipped']; [discriminate|].
      simpl in Er. injection Er as <- _.
      rewrite <- (Hskip (k, v) skipped' eq_refl). subst path_of. cbv beta.
      rewrite (Hcoin k v); [reflexivity|].
      rewrite Hd. apply in_or_app. right. now left. }
    assert (Hrest :
      exists kept0 skipped0 docs0,
        Results.files w2 = Results.files w ++ docs0
        /\ Forall2 carries (map snd docs0) kept0
        /\ map fst docs0 = map path_of kept0
        /\ NoDup (map Strategies.coin (kept0 ++ skipped0))
        /\ (forall c, In c (map Strategies.coin all_results)
                      <-> In c (map Strategies.coin (kept0 ++ skipped0)))
        /\ (forall r, In r (kept0 ++ skipped0) -> first_of_coin all_results r)
        /\ (sorted_desc all_results ->
            forall r, In r (kept0 ++ skipped0) -> first_best all_results r)
        /\ (forall r rest, skipped0 = r :: rest ->
                           false = true
                           \/ Results.write_fails env (path_of r) = true)
        /\ (false = false ->
            (forall p, Results.write_fails env p = false) ->
            skipped0 = [])
        /\ kept0 ++ skipped0 = first_rows all_results
        /\ (forall r, In r kept0 ->
                      false = false
                      /\ Results.write_fails env (path_of r) = false)).
    { exists (map snd kept), (map snd skipped), docs.
      split; [rewrite Hf; reflexivity|]. split; [exact Hc|].
      split; [exact Hpaths|]. split; [exact H1|]. split; [exact H2|].
      split; [exact H3|]. split; [exact H4|]. split.
      - intros r rest Er. right. now apply (Hhead r rest).
      - split; [|split; [exact Horder|]].
        + intros _ Hno. destruct (map snd skipped) as [|r rest] eqn:Er;
            [reflexivity|].
          pose proof (Hhead r rest eq_refl) as Hf'. rewrite Hno in Hf'.
          discriminate.
        + intros r Hr. split; [reflexivity|now apply Hwritten]. }
    destruct Hor as [-> | ->]; cbn; (split; [reflexivity|exact Hrest]).
Qed.

(** A row of coin [c] with total profit [profit], and the worlds the
    examples run in. *)
Definition sample_row (c : string) (profit : Q) : Strategies.BacktestResult :=
  Strategies.mkResult c 14 30 70 4 2 1 1 50 profit (profit / 2).

Definition quiet_env : Results.Env :=
  Results.mkEnv false (fun _ => false) (fun _ => "T"%string)
    (fun _ => "D"%string).

(** The write of BTC's document fails, every other write succeeds. *)
Definition btc_fails_env : Results.Env :=
  Results.mkEnv false (fun p => (p =? "results/BTC_rsi_T.json")%string)
    (fun _ => "T"%string) (fun _ => "D"%string).

Definition fresh_world : Results.World := Results.mkWorld [] [] 0.

(** C4, the claim as stated fails twice.  On the list [BTC 1; BTC 5], not
    sorted, the document written for BTC carries total profit 1, not the
    maximum 5.  When the write of BTC's document fails, the call returns
    without an exception and ETH's document, next in line, is not written:
    no file at all. *)
Lemma save_best_results_counterexample :
  (map (fun fd => Results.pf_total_profit_usd (Results.performance (snd fd)))
       (Results.files
          (snd (Results.save_best_results quiet_env
                  [sample_row "BTC" 1; sample_row "BTC" 5]
                  "rsi" "1 day" 100 fresh_world)))
   = [1])
  /\ (Results.save_best_results btc_fails_env
        [sample_row "BTC" 5; sample_row "ETH" 1] "rsi" "1 day" 100 fresh_world
      = (Results.Returned tt,
         Results.mkWorld [] [Results.ErrorSaving] 2)).
Proof.
  split; vm_compute; reflexivity.
Qed.

(** On a sorted list and without failures the call returns. *)
Lemma save_best_results_first_rows_witness :
  fst (Results.save_best_results quiet_env
         [sample_row "BTC" 5; sample_row "ETH" 3; sample_row "BTC" 1]
         "rsi" "1 day" 100 fresh_world)
  = Results.Returned tt.
Proof.
  exact (proj1 (save_best_results_first_rows quiet_env
                  [sample_row "BTC" 5; sample_row "ETH" 3; sample_row "BTC" 1]
                  "rsi" "1 day" 100 fresh_world)).
Defined.

(** ** Indicators *)

Section IndicatorFacts.
Import Indicators.

Lemma py_sum_cons x xs : Simulator.py_sum (x :: xs) == x + Simulator.py_sum xs.
Proof.
  unfold Simulator.py_sum. simpl. rewrite py_sum_from. ring.
Qed.

Lemma py_sum_app xs ys :
  Simulator.py_sum (xs ++ ys) == Simulator.py_sum xs + Simulator.py_sum ys.
Proof.
  induction xs as [|x xs IH]; simpl.
  - unfold Simulator.py_sum at 2. simpl. ring.
  - rewrite !py_sum_cons, IH. ring.
Qed.

Lemma py_sum_nonneg xs :
  (forall x, In x xs -> 0 <= x) -> 0 <= Simulator.py_sum xs.
Proof.
  induction xs as [|x xs IH]; intro H.
  - unfold Simulator.py_sum. simpl. lra.
  - rewrite py_sum_cons.
    assert (0 <= x) by (apply H; now left).
    assert (0 <= Simulator.py_sum xs) by (apply IH; intros; apply H; now right).
    lra.
Qed.

Lemma of_nat_pos n : (0 < n)%nat -> 0 < Simulator.of_nat n.
Proof.
  intro H. unfold Simulator.of_nat, Qlt. simpl. lia.
Qed.

Lemma window_incl xs i p x : In x (window xs i p) -> In x xs.
Proof.
  unfold window. intro H.
  rewrite <- (firstn_skipn (i + 1 - p) xs). apply in_or_app. right.
  rewrite <- (firstn_skipn p (skipn (i + 1 - p) xs)).
  apply in_or_app. now left.
Qed.

Lemma rolling_mean_length xs p : List.length (rolling_mean xs p) = List.length xs.
Proof. unfold rolling_mean. now rewrite length_map, length_seq. Qed.

(** The cell of a rolling mean at an index of the Series. *)
Lemma rolling_mean_nth xs p i d :
  (i < List.length xs)%nat ->
  nth i (rolling_mean xs p) d
  = if (p =? 0)%nat || (i + 1 <? p)%nat then NaN
    else Fin (Simulator.py_sum (window xs i p) / Simulator.of_nat p).
Proof.
  intro Hi. unfold rolling_mean.
  set (f := fun i0 : nat => if (p =? 0)%nat || (i0 + 1 <? p)%nat then NaN
             else Fin (Simulator.py_sum (window xs i0 p) / Simulator.of_nat p)).
  rewrite (nth_indep _ d (f 0%nat))
    by now rewrite length_map, length_seq.
  rewrite map_nth, seq_nth by assumption. reflexivity.
Qed.

Lemma rolling_mean_nonneg xs p i d q :
  (forall x, In x xs -> 0 <= x) ->
  (i < List.length xs)%nat ->
  nth i (rolling_mean xs p) d = Fin q -> 0 <= q.
Proof.
  intros Hx Hi. rewrite rolling_mean_nth by assumption.
  destruct (p =? 0)%nat eqn:Ep; [discriminate|].
  destruct (i + 1 <? p)%nat; [discriminate|]. simpl.
  intro H. injection H as <-.
  apply Nat.eqb_neq in Ep.
  apply Qle_shift_div_l; [apply of_nat_pos; lia|].
  rewrite Qmult_0_l. apply py_sum_nonneg.
  intros x Hin. apply Hx. eapply window_incl; eassumption.
Qed.

Lemma diff_from_length rest : forall prev,
  List.length (diff_from prev rest) = List.length rest.
Proof. induction rest; intro; simpl; auto. Qed.

Lemma diff_length prices : List.length (diff prices) = List.length prices.
Proof. destruct prices; simpl; [|rewrite diff_from_length]; reflexivity. Qed.

Lemma where_positive_nonneg d : 0 <= where_positive d.
Proof.
  destruct d as [x|]; simpl; [|lra].
  destruct (Qlt_bool 0 x) eqn:E; qbool; lra.
Qed.

Lemma neg_where_negative_nonneg d : 0 <= neg_where_negative d.
Proof.
  destruct d as [x|]; simpl; [|lra].
  destruct (Qlt_bool x 0) eqn:E; qbool; lra.
Qed.

(** The RSI of an average gain and an average loss, both finite and not
    negative, is not available or lies between 0 and 100. *)
Lemma rsi_of_range g l :
  0 <= g -> 0 <= l ->
  rsi_of (Fin g, Fin l) = NaN
  \/ exists q, rsi_of (Fin g, Fin l) = Fin q /\ 0 <= q /\ q <= 100.
Proof.
  intros Hg Hl. unfold rsi_of. cbn [fst snd cell_div].
  destruct (Qeq_bool l 0) eqn:El; qbool.
  - destruct (Qlt_bool 0 g) eqn:Eg; qbool.
    + right. cbn. eexists. split; [reflexivity|]. lra.
    + destruct (Qlt_bool g 0) eqn:Eg'; qbool; [lra|]. left. reflexivity.
  - assert (Hlpos : 0 < l) by lra.
    assert (Hr : 0 <= g / l).
    { apply Qle_shift_div_l; [exact Hlpos|]. lra. }
    cbn [cell_add cell_div].
    destruct (Qeq_bool (1 + g / l) 0) eqn:E1; qbool; [lra|].
    right. cbn. eexists. split; [reflexivity|].
    assert (0 <= 100 / (1 + g / l)).
    { apply Qle_shift_div_l; lra. }
    assert (100 / (1 + g / l) <= 100).
    { apply Qle_shift_div_r; lra. }
    lra.
Qed.

Lemma calculate_rsi_length prices period :
  List.length (calculate_rsi prices period) = List.length prices.
Proof.
  unfold calculate_rsi.
  rewrite length_map, length_combine, !rolling_mean_length, !length_map,
    diff_length.
  apply Nat.min_id.
Qed.

(** The RSI cell at an index, from the two rolling means at that index. *)
Lemma calculate_rsi_nth prices period i :
  (i < List.length prices)%nat ->
  nth i (calculate_rsi prices period) NaN
  = rsi_of
      (nth i (rolling_mean (map where_positive (diff prices)) period) NaN,
       nth i (rolling_mean (map neg_where_negative (diff prices)) period) NaN).
Proof.
  intro Hi. unfold calculate_rsi.
  change NaN with (rsi_of (NaN, NaN)) at 1.
  rewrite map_nth, combine_nth by now rewrite !rolling_mean_length, !length_map.
  reflexivity.
Qed.

End IndicatorFacts.

(** C6, as the code has it.  For every price series and every period of at
    least 1, the RSI Series is as long as the prices, it is not available at
    each of the first period - 1 indices (the first average needs [period]
    samples, and the missing first difference counts as a zero move), and
    every value that is available lies between 0 and 100. *)
Theorem calculate_rsi_available :
  forall (prices : list Q) (period : nat),
    (1 <= period)%nat ->
    List.length (Indicators.calculate_rsi prices period) = List.length prices
    /\ (forall i, (i < List.length prices)%nat -> (i + 1 < period)%nat ->
                  nth i (Indicators.calculate_rsi prices period) NaN = NaN)
    /\ (forall i c,
           (i < List.length prices)%nat ->
           nth i (Indicators.calculate_rsi prices period) NaN = c ->
           isna c = false ->
           exists q, c = Fin q /\ 0 <= q /\ q <= 100).
Proof.
  intros prices period Hp. split; [apply calculate_rsi_length|]. split.
  - intros i Hi Hlt. rewrite calculate_rsi_nth by assumption.
    rewrite !rolling_mean_nth by now rewrite length_map, diff_length.
    apply Nat.ltb_lt in Hlt. rewrite Hlt, orb_true_r. reflexivity.
  - intros i c Hi Hc Hna. rewrite calculate_rsi_nth in Hc by assumption.
    assert (Hlen : forall f : option Q -> Q,
               (i < List.length (map f (Indicators.diff prices)))%nat)
      by (intro f; now rewrite length_map, diff_length).
    destruct (nth i (Indicators.rolling_mean
                       (map Indicators.where_positive (Indicators.diff prices))
                       period) NaN) as [| | |g] eqn:Eg;
      try (rewrite rolling_mean_nth in Eg by apply Hlen;
           destruct (_ || _) in Eg; discriminate).
    + (* both averages are missing together *)
      rewrite rolling_mean_nth in Eg by apply Hlen.
      rewrite rolling_mean_nth in Hc by apply Hlen.
      destruct (_ || _); [|discriminate].
      subst c. discriminate.
    + destruct (nth i (Indicators.rolling_mean
                         (map Indicators.neg_where_negative
                            (Indicators.diff prices)) period) NaN)
        as [| | |l] eqn:El;
        try (rewrite rolling_mean_nth in El by apply Hlen;
             destruct (_ || _) in El; discriminate).
      * subst c. discriminate.
      * assert (Hg : 0 <= g).
        { eapply rolling_mean_nonneg; [|apply Hlen|exact Eg].
          intros x Hx. apply in_map_iff in Hx. destruct Hx as (d & <- & _).
          apply where_positive_nonneg. }
        assert (Hl : 0 <= l).
        { eapply rolling_mean_nonneg; [|apply Hlen|exact El].
          intros x Hx. apply in_map_iff in Hx. destruct Hx as (d & <- & _).
          apply neg_where_negative_nonneg. }
        destruct (rsi_of_range g l Hg Hl) as [E|(q & E & Hq)];
          rewrite E in Hc; subst c; [discriminate|].
        exists q. auto.
Qed.

(** Period 3 on the prices 1, 2, 1: not available at the indices 0 and 1. *)
Lemma calculate_rsi_available_witness :
  nth 0 (Indicators.calculate_rsi [1; 2; 1] 3) NaN = NaN
  /\ nth 1 (Indicators.calculate_rsi [1; 2; 1] 3) NaN = NaN.
Proof.
  pose proof (proj1 (proj2 (calculate_rsi_available [1; 2; 1] 3 ltac:(lia))))
    as H.
  split; apply H; simpl; lia.
Defined.

(** C6, the claim as stated fails: with period 3 on the prices 1, 2, 1 the
    RSI at index 2, one of the first 3 indices, is available: it is 50. *)
Lemma calculate_rsi_counterexample :
  exists q,
    nth 2 (Indicators.calculate_rsi [1; 2; 1] 3) NaN = Fin q
    /\ q == 50
    /\ (2 < 3)%nat.
Proof.
  eexists. split; [vm_compute; reflexivity|]. split; [reflexivity|lia].
Qed.

(** ** Moving averages of an increasing series *)

Section IncreasingFacts.
Import Indicators.

(** Strictly increasing: every sample is below every later one. *)
Definition increasing (xs : list Q) : Prop := StronglySorted Qlt xs.

Lemma increasing_app_r l1 l2 : increasing (l1 ++ l2) -> increasing l2.
Proof.
  unfold increasing. induction l1 as [|x l1 IH]; simpl; intro H; [exact H|].
  inversion H; subst. now apply IH.
Qed.

Lemma increasing_app_l l1 l2 : increasing (l1 ++ l2) -> increasing l1.
Proof.
  unfold increasing. induction l1 as [|x l1 IH]; simpl; intro H.
  - constructor.
  - inversion H as [|? ? Hs Hall]; subst. constructor; [now apply IH|].
    rewrite Forall_forall in Hall |- *. intros y Hy. apply Hall.
    apply in_or_app. now left.
Qed.

Lemma increasing_app_lt l1 l2 a b :
  increasing (l1 ++ l2) -> In a l1 -> In b l2 -> a < b.
Proof.
  unfold increasing. induction l1 as [|x l1 IH]; simpl; intros H Ha Hb.
  - contradiction.
  - inversion H as [|? ? Hs Hall]; subst. destruct Ha as [<-|Ha].
    + rewrite Forall_forall in Hall. apply Hall. apply in_or_app. now right.
    + now apply IH.
Qed.

Lemma firstn_plus {A} (a b : nat) (l : list A) :
  firstn (a + b) l = firstn a l ++ firstn b (skipn a l).
Proof.
  revert l. induction a as [|a IH]; intro l; simpl; [reflexivity|].
  destruct l as [|x l]; simpl.
  - now rewrite firstn_nil.
  - now rewrite IH.
Qed.

Lemma of_nat_S n : Simulator.of_nat (S n) == Simulator.of_nat n + 1.
Proof.
  unfold Simulator.of_nat. rewrite Nat2Z.inj_succ, <- Z.add_1_r.
  rewrite inject_Z_plus. reflexivity.
Qed.

Lemma of_nat_add a b :
  Simulator.of_nat (a + b) == Simulator.of_nat a + Simulator.of_nat b.
Proof.
  unfold Simulator.of_nat. rewrite Nat2Z.inj_add, inject_Z_plus. reflexivity.
Qed.

Lemma py_sum_below l b :
  l <> [] -> (forall x, In x l -> x < b) ->
  Simulator.py_sum l < Simulator.of_nat (List.length l) * b.
Proof.
  induction l as [|x l IH]; intros Hne H; [congruence|].
  rewrite py_sum_cons. cbn [List.length]. rewrite of_nat_S.
  assert (x < b) by (apply H; now left).
  destruct l as [|y l].
  - unfold Simulator.py_sum, Simulator.of_nat, inject_Z. simpl. lra.
  - assert (Simulator.py_sum (y :: l)
            < Simulator.of_nat (List.length (y :: l)) * b).
    { apply IH; [discriminate|]. intros z Hz. apply H. now right. }
    lra.
Qed.

Lemma py_sum_above l b :
  (forall x, In x l -> b <= x) ->
  Simulator.of_nat (List.length l) * b <= Simulator.py_sum l.
Proof.
  induction l as [|x l IH]; intro H.
  - unfold Simulator.py_sum, Simulator.of_nat, inject_Z. simpl. lra.
  - rewrite py_sum_cons. cbn [List.length]. rewrite of_nat_S.
    assert (b <= x) by (apply H; now left).
    assert (Simulator.of_nat (List.length l) * b <= Simulator.py_sum l)
      by (apply IH; intros; apply H; now right).
    lra.
Qed.

(** The long window is the short one with the older samples before it. *)
Lemma window_split xs i k m :
  (k <= m)%nat -> (m <= i + 1)%nat ->
  window xs i m
  = firstn (m - k) (skipn (i + 1 - m) xs) ++ window xs i k.
Proof.
  intros Hkm Hmi. unfold window.
  replace m with ((m - k) + k)%nat at 1 by lia.
  rewrite firstn_plus, skipn_skipn.
  replace (m - k + (i + 1 - m))%nat with (i + 1 - k)%nat by lia.
  reflexivity.
Qed.

Lemma window_length xs i p :
  (i < List.length xs)%nat -> (p <= i + 1)%nat ->
  List.length (window xs i p) = p.
Proof.
  intros Hi Hp. unfold window. rewrite length_firstn, length_skipn. lia.
Qed.

(** On an increasing series the mean of the last [k] samples is above the
    mean of the last [m], for 0 < k < m. *)
Lemma mean_short_above_long xs i k m :
  increasing xs ->
  (0 < k)%nat -> (k < m)%nat -> (m <= i + 1)%nat -> (i < List.length xs)%nat ->
  Simulator.py_sum (window xs i m) / Simulator.of_nat m
  < Simulator.py_sum (window xs i k) / Simulator.of_nat k.
Proof.
  intros Hinc Hk Hkm Hmi Hi.
  rewrite (window_split xs i k m) by lia.
  set (older := firstn (m - k) (skipn (i + 1 - m) xs)).
  set (recent := window xs i k).
  assert (Hsplit : window xs i m = older ++ recent)
    by (apply window_split; lia).
  assert (Hlo : List.length older = (m - k)%nat).
  { apply (f_equal (@List.length Q)) in Hsplit.
    rewrite length_app, !window_length in Hsplit by lia.
    fold recent in Hsplit. unfold recent in Hsplit.
    rewrite window_length in Hsplit by lia. lia. }
  assert (Hlr : List.length recent = k) by (apply window_length; lia).
  assert (Hsorted : increasing (older ++ recent)).
  { rewrite <- Hsplit. unfold window.
    rewrite <- (firstn_skipn (i + 1 - m) xs) in Hinc.
    apply increasing_app_r in Hinc.
    rewrite <- (firstn_skipn m (skipn (i + 1 - m) xs)) in Hinc.
    now apply increasing_app_l in Hinc. }
  destruct recent as [|b recent'] eqn:Er; [simpl in Hlr; lia|].
  assert (Ha : forall a, In a older -> a < b).
  { intros a Hin. apply (increasing_app_lt _ _ _ _ Hsorted Hin). now left. }
  assert (Hw : forall w, In w (b :: recent') -> b <= w).
  { intros w [<-|Hin]; [lra|]. apply Qlt_le_weak.
    apply increasing_app_r in Hsorted.
    inversion Hsorted as [|? ? _ Hall]; subst.
    rewrite Forall_forall in Hall. now apply Hall. }
  assert (Holder : Simulator.py_sum older
                   < Simulator.of_nat (List.length older) * b).
  { apply py_sum_below; [|exact Ha].
    intro E. rewrite E in Hlo. simpl in Hlo. lia. }
  pose proof (py_sum_above _ _ Hw) as Hrecent.
  rewrite Hlo in Holder. rewrite Hlr in Hrecent.
  rewrite py_sum_app.
  assert (HK : 0 < Simulator.of_nat k) by (apply of_nat_pos; lia).
  assert (HD : 0 < Simulator.of_nat (m - k)) by (apply of_nat_pos; lia).
  assert (HM : Simulator.of_nat m
               == Simulator.of_nat (m - k) + Simulator.of_nat k).
  { rewrite <- of_nat_add. replace (m - k + k)%nat with m by lia.
    reflexivity. }
  set (SA := Simulator.py_sum older) in *.
  set (SW := Simulator.py_sum (b :: recent')) in *.
  set (K := Simulator.of_nat k) in *.
  set (D := Simulator.of_nat (m - k)) in *.
  rewrite HM.
  apply Qlt_shift_div_l; [exact HK|].
  assert (E : (SA + SW) / (D + K) * K == (SA + SW) * K / (D + K))
    by (field; lra).
  rewrite E. apply Qlt_shift_div_r; [lra|].
  assert (SA * K < D * b * K) by (apply Qmult_lt_compat_r; assumption).
  assert (D * (K * b) <= D * SW) by (apply Qmult_le_l; assumption).
  assert (D * b * K == D * (K * b)) by ring.
  assert ((SA + SW) * K == SA * K + SW * K) by ring.
  assert (SW * (D + K) == D * SW + SW * K) by ring.
  lra.
Qed.

End IncreasingFacts.

Section CrossoverFacts.
Import Strategies.

Lemma flat_map_nil {A B} (f : A -> list B) (l : list A) :
  (forall x, In x l -> f x = []) -> flat_map f l = [].
Proof.
  induction l as [|x l IH]; intro H; simpl; [reflexivity|].
  rewrite (H x) by now left. simpl. apply IH. intros; apply H; now right.
Qed.

(** On an increasing series no row gives a crossover signal. *)
Lemma sma_signals_increasing df short_period long_period :
  increasing (map close df) ->
  (0 < short_period)%nat -> (short_period < long_period)%nat ->
  sma_signals df short_period long_period = [].
Proof.
  intros Hinc Hs Hsl. unfold sma_signals, Indicators.calculate_sma.
  apply flat_map_nil. intros i Hi. apply in_seq in Hi.
  assert (Hlen : (i < List.length (map close df))%nat)
    by (rewrite length_map; lia).
  assert (Hlen' : (i - 1 < List.length (map close df))%nat) by lia.
  rewrite !(rolling_mean_nth _ _ i) by assumption.
  rewrite !(rolling_mean_nth _ _ (i - 1)) by assumption.
  replace (short_period =? 0)%nat with false by (symmetry; apply Nat.eqb_neq; lia).
  replace (long_period =? 0)%nat with false by (symmetry; apply Nat.eqb_neq; lia).
  cbn [orb].
  destruct (i + 1 <? long_period)%nat eqn:Ecl.
  { destruct (i + 1 <? short_period)%nat; reflexivity. }
  apply Nat.ltb_ge in Ecl.
  replace (i + 1 <? short_period)%nat with false
    by (symmetry; apply Nat.ltb_ge; lia).
  replace (i - 1 + 1 <? short_period)%nat with false
    by (symmetry; apply Nat.ltb_ge; lia).
  cbn [isna orb].
  destruct (i - 1 + 1 <? long_period)%nat eqn:Epl.
  { (* the first row with both averages: no previous long average *)
    reflexivity. }
  apply Nat.ltb_ge in Epl.
  pose proof (mean_short_above_long (map close df) i short_period long_period
                Hinc Hs Hsl Ecl Hlen) as Hcur.
  pose proof (mean_short_above_long (map close df) (i - 1) short_period
                long_period Hinc Hs Hsl ltac:(lia) Hlen') as Hprev.
  unfold cell_gt, cell_ge. cbn [cell_le cell_lt].
  apply Qle_bool_false in Hprev. rewrite Hprev. cbn [andb].
  apply Qlt_le_weak, Qlt_bool_false in Hcur. rewrite Hcur.
  rewrite andb_false_r. reflexivity.
Qed.

End CrossoverFacts.

(** The 50 candles whose close rises by equal steps from 100 to 200. *)
Definition rising_candles : list Strategies.Candle :=
  map (fun i =>
         let p := 100 + (100 # 49) * inject_Z (Z.of_nat i) in
         Strategies.mkCandle (Z.of_nat i) p p p p 1)
      (seq 0 50).

Lemma rising_candles_increasing :
  increasing (map Strategies.close rising_candles).
Proof.
  unfold increasing.
  repeat (constructor; [|repeat (constructor; [reflexivity|]); constructor]).
  constructor.
Qed.

(** C5, as the code has it.  For every strictly increasing price series, so
    for one rising from 100 to 200 over 50 candles, the SMA crossover
    evaluator with a short period below the long one, so with 5 and 20,
    generates no signal at all, neither a BUY nor a SELL, and returns
    None. *)
Theorem run_sma_backtest_increasing :
  forall (df : list Strategies.Candle) (coin : string)
         (short_period long_period : nat) (position_size : Q),
    increasing (map Strategies.close df) ->
    (0 < short_period)%nat -> (short_period < long_period)%nat ->
    Strategies.sma_signals df short_period long_period = []
    /\ Strategies.run_sma_backtest df coin short_period long_period
         position_size = None.
Proof.
  intros df coin short_period long_period position_size Hinc Hs Hsl.
  pose proof (sma_signals_increasing df short_period long_period Hinc Hs Hsl)
    as E.
  split; [exact E|].
  unfold Strategies.run_sma_backtest. rewrite E. reflexivity.
Qed.

Lemma run_sma_backtest_increasing_witness :
  Strategies.sma_signals rising_candles 5 20 = []
  /\ Strategies.run_sma_backtest rising_candles "BTC" 5 20 100 = None.
Proof.
  apply (run_sma_backtest_increasing rising_candles "BTC" 5 20 100).
  - exact rising_candles_increasing.
  - lia.
  - lia.
Defined.

(** C5, the claim as stated fails: on the 50 candles rising from 100 to 200
    the evaluator with periods 5 and 20 generates no BUY signal, where the
    claim has exactly one. *)
Lemma run_sma_backtest_counterexample :
  List.length
    (filter (fun s => (Simulator.action s =? "BUY")%string)
       (Strategies.sma_signals rising_candles 5 20)) = 0%nat
  /\ List.length rising_candles = 50%nat
  /\ map (fun c => Qred (Strategies.close c)) (firstn 1 rising_candles)
     = [100]
  /\ Qred (Strategies.close (last rising_candles Strategies.default_candle))
     = 200.
Proof.
  repeat split; vm_compute; reflexivity.
Qed.

(** ** Bollinger band position *)

(** The live generator's band position: 0.5 on a degenerate band, else the
    quotient, whose divisor is then not zero, clamped to [0, 1]. *)
Lemma bb_position_cases :
  forall price upper lower middle : Q,
    let position :=
      BollingerBands30Min._calculate_bb_position price upper lower middle in
    let quotient := (price - lower) / (upper - lower) in
    (upper == lower -> position = 0.5)
    /\ (~ upper == lower ->
        ~ upper - lower == 0
        /\ (quotient <= 0 -> position == 0)
        /\ (0 <= quotient <= 1 -> position == quotient)
        /\ (1 <= quotient -> position == 1))
    /\ 0 <= position <= 1.
Proof.
  intros price upper lower middle position quotient. subst position.
  unfold BollingerBands30Min._calculate_bb_position. fold quotient.
  destruct (Qeq_bool upper lower) eqn:E; qbool.
  - split; [reflexivity|]. split; [contradiction|]. lra.
  - split; [contradiction|].
    unfold py_max, py_min.
    destruct (Qlt_bool quotient 1.0) eqn:E1;
      destruct (Qlt_bool 0.0 _) eqn:E2; qbool;
      (split; [intros _; split; [lra|repeat split; intros; lra]|lra]).
Qed.

(** The band position of the live generator
    ([BollingerBands30MinSignalGenerator._calculate_bb_position]), for every
    price and every pair of band values: exactly 0.5 when upper == lower;
    otherwise the divisor upper - lower is not zero and the result is the
    quotient (price - lower) / (upper - lower) clamped to [0, 1]. *)
Theorem calculate_bb_position_clamped :
  forall price upper lower middle : Q,
    let position :=
      BollingerBands30Min._calculate_bb_position price upper lower middle in
    let quotient := (price - lower) / (upper - lower) in
    (upper == lower -> position = 0.5)
    /\ (~ upper == lower ->
        ~ upper - lower == 0
        /\ (quotient <= 0 -> position == 0)
        /\ (0 <= quotient <= 1 -> position == quotient)
        /\ (1 <= quotient -> position == 1))
    /\ 0 <= position <= 1.
Proof. exact bb_position_cases. Qed.

(** C7, the claim as stated fails at the evaluator.  For a close of 130
    above the bands 100 and 120, the band position the Bollinger backtest
    evaluator computes inline is 1.5, which is not in [0, 1]: the quotient
    is not clamped there, while the live generator returns 1 on the same
    values. *)
Lemma backtest_bb_position_unclamped :
  Strategies.backtest_bb_position 130 120 100 == 1.5
  /\ ~ Strategies.backtest_bb_position 130 120 100 <= 1
  /\ BollingerBands30Min._calculate_bb_position 130 120 100 110 == 1.
Proof.
  split; [vm_compute; reflexivity|].
  split; [apply Qlt_not_le; reflexivity|vm_compute; reflexivity].
Qed.

(** ** Signal strength of the live generators *)

Section StrengthFacts.

(** A strength between 0.6 and 1, run through the final clamp. *)
Lemma clamp_keeps s :
  0.6 <= s -> s <= 1 -> 0.6 <= py_min 1.0 (py_max 0.0 s)
                        /\ py_min 1.0 (py_max 0.0 s) <= 1.
Proof.
  intros H1 H2. unfold py_min, py_max.
  destruct (Qlt_bool 0.0 s) eqn:E1; qbool;
    destruct (Qlt_bool _ 1.0) eqn:E2; qbool; lra.
Qed.

(** The part of the Bollinger strength both actions share: the base from
    the position strength, the volatility boost, the clamp. *)
Lemma bb_strength_range (near : bool) (bandwidth : cell) (ps : Q) :
  0 <= ps -> ps <= 1 ->
  let strength :=
    if near then 0.85 + (ps * 0.15) else 0.6 + (ps * 0.2) in
  let strength :=
    if cell_gt bandwidth (Fin 4.0) then py_min 1.0 (strength + 0.1)
    else strength in
  0.6 <= py_min 1.0 (py_max 0.0 strength)
  /\ py_min 1.0 (py_max 0.0 strength) <= 1.
Proof.
  intros H0 H1. cbv zeta. apply clamp_keeps.
  - destruct near; destruct (cell_gt bandwidth (Fin 4.0));
      unfold py_min;
      try (destruct (Qlt_bool _ 1.0) eqn:E; qbool); lra.
  - destruct near; destruct (cell_gt bandwidth (Fin 4.0));
      unfold py_min;
      try (destruct (Qlt_bool _ 1.0) eqn:E; qbool); lra.
Qed.

Lemma bb_generate_signal_strength
    touch_threshold current_price current_middle current_upper current_lower
    current_bandwidth action strength :
  BollingerBands30Min.generate_signal touch_threshold current_price
    current_middle current_upper current_lower current_bandwidth
  = Some (action, strength) ->
  (action = "BUY"%string /\ 0.6 <= strength <= 1)
  \/ (action = "SELL"%string /\ 0.6 <= strength <= 1)
  \/ (action = "HOLD"%string /\ strength = 0.0).
Proof.
  unfold BollingerBands30Min.generate_signal.
  destruct current_middle as [middle|]; [|discriminate].
  destruct current_upper as [upper|]; [|discriminate].
  destruct current_lower as [lower|]; [|discriminate].
  destruct (bb_position_cases current_price upper lower middle)
    as (_ & _ & Hp0 & Hp1).
  set (p := BollingerBands30Min._calculate_bb_position
              current_price upper lower middle) in *.
  destruct (Qle_bool p 0.2 || _) eqn:Ebuy.
  - intro H. injection H as <- <-. left. split; [reflexivity|].
    unfold BollingerBands30Min._calculate_signal_strength.
    cbn [String.eqb Ascii.eqb Bool.eqb andb].
    apply (bb_strength_range _ current_bandwidth (1.0 - p)); lra.
  - destruct (Qle_bool 0.8 p || _) eqn:Esell.
    + intro H. injection H as <- <-. right. left. split; [reflexivity|].
      unfold BollingerBands30Min._calculate_signal_strength.
      cbn [String.eqb Ascii.eqb Bool.eqb andb].
      apply (bb_strength_range _ current_bandwidth p); lra.
    + intro H. injection H as <- <-. right. right.
      split; reflexivity.
Qed.

Lemma sr_strength_range d :
  0.6 <= py_min 1.0 (py_max 0.0 (py_max 0.6 (1.0 - (d / 2.0))))
  /\ py_min 1.0 (py_max 0.0 (py_max 0.6 (1.0 - (d / 2.0)))) <= 1.
Proof.
  set (x := 1.0 - d / 2.0).
  unfold py_min, py_max.
  destruct (Qlt_bool 0.6 x) eqn:E1; qbool;
    destruct (Qlt_bool 0.0 _) eqn:E2; qbool;
    destruct (Qlt_bool _ 1.0) eqn:E3; qbool; lra.
Qed.

Lemma sr_generate_signal_strength
    current_price resistance_levels support_levels action strength :
  SupportResistance1H.generate_signal current_price resistance_levels
    support_levels = Some (action, strength) ->
  (action = "BUY"%string /\ 0.6 <= strength <= 1)
  \/ (action = "SELL"%string /\ 0.6 <= strength <= 1)
  \/ (action = "HOLD"%string /\ strength = 0.0).
Proof.
  unfold SupportResistance1H.generate_signal.
  destruct (negb _ && negb _); [discriminate|].
  destruct (SupportResistance1H._find_nearest_levels _ _ _) as [nr ns].
  unfold SupportResistance1H._calculate_signal_strength.
  destruct (SupportResistance1H.truthy ns) eqn:Ens;
    destruct (SupportResistance1H.truthy nr) eqn:Enr;
    repeat match goal with
           | |- context [if Qle_bool ?a ?b then _ else _] =>
               destruct (Qle_bool a b)
           end;
    cbn [String.eqb Ascii.eqb Bool.eqb andb];
    intro H; injection H as <- <-;
    first [ right; right; split; reflexivity
          | left; split; [reflexivity|apply sr_strength_range]
          | right; left; split; [reflexivity|apply sr_strength_range] ].
Qed.

End StrengthFacts.

(** C10.  Whenever a live generator computes a strength, the action is BUY,
    SELL or HOLD; the strength of a BUY or a SELL lies between 0.6 and 1.0,
    and the strength of a HOLD is exactly 0.0.  For the Bollinger Bands
    30-minute generator and for the Support/Resistance 1-hour generator. *)
Theorem live_signal_strength_range :
  (forall touch_threshold current_price current_middle current_upper
          current_lower current_bandwidth action strength,
      BollingerBands30Min.generate_signal touch_threshold current_price
        current_middle current_upper current_lower current_bandwidth
      = Some (action, strength) ->
      (action = "BUY"%string \/ action = "SELL"%string
       \/ action = "HOLD"%string)
      /\ (action = "BUY"%string \/ action = "SELL"%string ->
          0.6 <= strength <= 1.0)
      /\ (action = "HOLD"%string -> strength = 0.0))
  /\ (forall current_price resistance_levels support_levels action strength,
         SupportResistance1H.generate_signal current_price resistance_levels
           support_levels = Some (action, strength) ->
         (action = "BUY"%string \/ action = "SELL"%string
          \/ action = "HOLD"%string)
         /\ (action = "BUY"%string \/ action = "SELL"%string ->
             0.6 <= strength <= 1.0)
         /\ (action = "HOLD"%string -> strength = 0.0)).
Proof.
  split.
  - intros until strength. intro H.
    destruct (bb_generate_signal_strength _ _ _ _ _ _ _ _ H)
      as [[-> Hs]|[[-> Hs]|[-> Hs]]];
      (split; [tauto|split; [intros [E|E]; try discriminate; lra
                            |intro E; try discriminate; exact Hs]]).
  - intros until strength. intro H.
    destruct (sr_generate_signal_strength _ _ _ _ _ H)
      as [[-> Hs]|[[-> Hs]|[-> Hs]]];
      (split; [tauto|split; [intros [E|E]; try discriminate; lra
                            |intro E; try discriminate; exact Hs]]).
Qed.

(** BUY at the lower band, with wide bands. *)
Lemma live_signal_strength_range_witness :
  exists strength,
    BollingerBands30Min.generate_signal 0.5 100 (Some 110) (Some 120)
      (Some 100) (Fin 5) = Some ("BUY"%string, strength)
    /\ 0.6 <= strength <= 1.0.
Proof.
  eexists. split; [vm_compute; reflexivity|].
  refine (proj1 (proj2 (proj1 live_signal_strength_range
                          0.5 100 (Some 110) (Some 120) (Some 100) (Fin 5)
                          "BUY"%string _ _)) _).
  - vm_compute; reflexivity.
  - now left.
Defined.

(** ** Support and resistance levels *)

Section LevelFacts.
Import SupportResistance1H.

Lemma min_list_spec rest : forall first,
  In (min_list first rest) (first :: rest)
  /\ (forall x, In x (first :: rest) -> min_list first rest <= x).
Proof.
  unfold min_list.
  induction rest as [|y rest IH]; intro first; simpl.
  - split; [now left|]. intros x [<-|[]]. lra.
  - destruct (IH (if Qlt_bool y first then y else first)) as [Hin Hle].
    destruct (Qlt_bool y first) eqn:E; qbool.
    + split.
      * right. exact Hin.
      * intros x [<-|Hx].
        -- apply Qle_trans with y; [apply Hle; now left|lra].
        -- now apply Hle.
    + split.
      * destruct Hin as [Hin|Hin]; [now left|right; now right].
      * intros x [<-|[<-|Hx]].
        -- apply Hle. now left.
        -- apply Qle_trans with first; [apply Hle; now left|exact E].
        -- apply Hle. now right.
Qed.


(** Every kept level is at least [min_distance_percent] away from every
    level kept before it. *)
Definition spaced (min_distance_percent : Q) (kept : list Q) : Prop :=
  forall pre level post,
    kept = pre ++ level :: post ->
    forall earlier, In earlier pre ->
                    min_distance_percent <= distance level earlier.

Lemma spaced_snoc m kept level :
  spaced m kept ->
  (forall earlier, In earlier kept -> m <= distance level earlier) ->
  spaced m (kept ++ [level]).
Proof.
  intros Hs Hfar pre x post E earlier Hin.
  destruct post as [|w post _] using rev_ind.
  - apply app_inj_tail in E. destruct E as [-> ->]. now apply Hfar.
  - rewrite app_comm_cons, app_assoc in E.
    apply app_inj_tail in E. destruct E as [-> _].
    now apply (Hs pre x post eq_refl).
Qed.

(** The invariant of the filtering loop over the levels [seen] so far. *)
Record filtered_inv (m : Q) (first : Q) (seen kept : list Q) : Prop := {
  fi_head : exists tail, kept = first :: tail;
  fi_spaced : spaced m kept;
  fi_incl : forall x, In x kept -> In x (first :: seen);
  fi_dropped : forall x, In x (first :: seen) -> ~ In x kept ->
                         exists earlier, In earlier kept
                                         /\ distance x earlier < m
}.

Lemma filter_step_inv m first seen kept level :
  filtered_inv m first seen kept ->
  filtered_inv m first (seen ++ [level]) (filter_step m kept level).
Proof.
  intros [(tail & Hhead) Hsp Hincl Hdrop]. unfold filter_step.
  destruct (existsb _ kept) eqn:E; cbn [negb].
  - (* too close to a kept level: dropped *)
    apply existsb_exists in E. destruct E as (earlier & Hin & Hlt). qbool.
    constructor.
    + eauto.
    + exact Hsp.
    + intros x Hx. apply Hincl in Hx. destruct Hx as [Hx|Hx]; [now left|].
      right. apply in_or_app. now left.
    + intros x Hx Hnot. destruct Hx as [Hx|Hx].
      * apply Hdrop; [now left|exact Hnot].
      * apply in_app_or in Hx. destruct Hx as [Hx|[<-|[]]].
        -- apply Hdrop; [now right|exact Hnot].
        -- eauto.
  - (* far from every kept level: kept, last *)
    assert (Hfar : forall earlier, In earlier kept ->
                                   m <= distance level earlier).
    { intros earlier Hin.
      destruct (Qlt_bool (distance level earlier) m) eqn:Elt;
        [|now apply Qlt_bool_false].
      exfalso. rewrite <- not_true_iff_false in E. apply E.
      apply existsb_exists. eauto. }
    constructor.
    + exists (tail ++ [level]). rewrite Hhead. reflexivity.
    + now apply spaced_snoc.
    + intros x Hx. apply in_app_or in Hx. destruct Hx as [Hx|[<-|[]]].
      * apply Hincl in Hx. destruct Hx as [Hx|Hx]; [now left|].
        right. apply in_or_app. now left.
      * right. apply in_or_app. right. now left.
    + intros x Hx Hnot.
      assert (Hnot' : ~ In x kept)
        by (intro; apply Hnot; apply in_or_app; now left).
      destruct Hx as [Hx|Hx].
      * destruct (Hdrop x (or_introl Hx) Hnot') as (e & He & Hlt).
        exists e. split; [apply in_or_app; now left|exact Hlt].
      * apply in_app_or in Hx. destruct Hx as [Hx|[<-|[]]].
        -- destruct (Hdrop x (or_intror Hx) Hnot') as (e & He & Hlt).
           exists e. split; [apply in_or_app; now left|exact Hlt].
        -- exfalso. apply Hnot. apply in_or_app. right. now left.
Qed.

Lemma filter_loop_inv m first rest :
  forall seen kept,
    filtered_inv m first seen kept ->
    filtered_inv m first (seen ++ rest) (fold_left (filter_step m) rest kept).
Proof.
  induction rest as [|level rest IH]; intros seen kept H; simpl.
  - now rewrite app_nil_r.
  - replace (seen ++ level :: rest) with ((seen ++ [level]) ++ rest)
      by (rewrite <- app_assoc; reflexivity).
    apply IH. now apply filter_step_inv.
Qed.



Lemma filtered_inv_start m first : filtered_inv m first [] [first].
Proof.
  constructor.
  - now exists [].
  - intros pre level post E earlier Hin.
    destruct pre as [|p pre]; [contradiction|].
    destruct pre; discriminate.
  - intros x Hx. exact Hx.
  - intros x Hx Hnot. contradiction.
Qed.

End LevelFacts.


(** * Further properties of the code *)

(** ** The simulator on market data *)

Section SimulatorMore.
Import Simulator.

(** The trades do not depend on the trades collected before: the loop only
    appends. *)
Lemma simulate_loop_appends position_size signals :
  forall trades pos,
    fold_left (simulate_step position_size) signals (trades, pos)
    = (trades
         ++ fst (fold_left (simulate_step position_size) signals ([], pos)),
       snd (fold_left (simulate_step position_size) signals ([], pos))).
Proof.
  induction signals as [|s rest IH]; intros trades pos.
  - simpl. now rewrite app_nil_r.
  - cbn [fold_left].
    destruct (String.string_dec (action s) "BUY") as [Hb|Hb];
      [|destruct (String.string_dec (action s) "SELL") as [Hs|Hs]].
    + destruct pos as [p|].
      * rewrite !(step_buy_open _ _ _ _ Hb). apply IH.
      * rewrite !(step_buy_flat _ _ _ Hb). apply IH.
    + destruct pos as [p|].
      * rewrite !(step_sell_open _ _ _ _ Hs).
        match goal with
        | |- context [fold_left _ rest (trades ++ ?x, None)] =>
            rewrite (IH (trades ++ x)), (IH ([] ++ x))
        end.
        cbn [fst snd]. now rewrite <- app_assoc.
      * rewrite !(step_sell_flat _ _ _ Hs). apply IH.
    + rewrite !(step_other _ _ _ _ Hb Hs). apply IH.
Qed.

(** The sign of a trade's profit, for a positive entry price and size. *)
Lemma profit_sign entry exit size pnl profit :
  0 < entry -> 0 < size ->
  pnl == (exit - entry) / entry * 100 ->
  profit == pnl / 100 * size ->
  (0 < profit <-> entry < exit) /\ (profit == 0 <-> exit == entry).
Proof.
  intros He Hs Hpnl Hprofit.
  assert (Hq : profit * entry == (exit - entry) * size).
  { rewrite Hprofit, Hpnl. field. lra. }
  split; split; intro H.
  - assert (0 < profit * entry) by now apply Qmult_lt_0_compat.
    rewrite Hq in H0.
    destruct (Qlt_le_dec entry exit) as [|Hle]; [assumption|].
    exfalso. assert ((exit - entry) * size <= 0 * size)
      by (apply Qmult_le_compat_r; lra).
    lra.
  - assert (0 < (exit - entry) * size)
      by (apply Qmult_lt_0_compat; lra).
    rewrite <- Hq in H0.
    destruct (Qlt_le_dec 0 profit) as [|Hle]; [assumption|].
    exfalso. assert (profit * entry <= 0 * entry)
      by (apply Qmult_le_compat_r; lra).
    lra.
  - rewrite H, Qmult_0_l in Hq. symmetry in Hq.
    apply Qmult_integral in Hq. destruct Hq; lra.
  - assert (E : profit * entry == 0) by (rewrite Hq, H; ring).
    apply Qmult_integral in E. destruct E; lra.
Qed.

(** Every trade of a run of the discipline buys at the price of the open
    position or of a signal and sells at the price of a signal. *)
Lemma discipline_prices position_size pos signals ts :
  discipline position_size pos signals ts ->
  forall t, In t ts ->
    ((exists p, pos = Some p /\ t_entry_price t = entry_price p)
     \/ exists b, In b signals /\ action b = "BUY"%string
                  /\ t_entry_price t = price b)
    /\ (exists s, In s signals /\ action s = "SELL"%string
                  /\ exit_price t = price s)
    /\ pnl_pct t == (exit_price t - t_entry_price t) / t_entry_price t * 100
    /\ profit_usd t == pnl_pct t / 100 * position_size.
Proof.
  induction 1 as [pos|s rest ts Hb _ IH|pos s rest ts Hb _ IH
                 |pos s rest t0 ts Hs He1 He2 He3 He4 Hpnl Hprofit _ IH
                 |s rest ts Hs _ IH|pos s rest ts Hb Hs _ IH];
    intros t Hin.
  - contradiction.
  - destruct (IH t Hin) as ([(p & Hp & E)|(b & Hb' & Hab & E)] & Hx & Hrest).
    + injection Hp as <-. simpl in E.
      split; [right; exists s; repeat split; auto; now left|].
      split; [|exact Hrest].
      destruct Hx as (x & Hx & Hax & Ex). exists x. repeat split; auto.
      now right.
    + split; [right; exists b; repeat split; auto; now right|].
      split; [|exact Hrest].
      destruct Hx as (x & Hx & Hax & Ex). exists x. repeat split; auto.
      now right.
  - destruct (IH t Hin) as ([Hp|(b & Hb' & Hab & E)] & Hx & Hrest).
    + split; [now left|]. split; [|exact Hrest].
      destruct Hx as (x & Hx & Hax & Ex). exists x. repeat split; auto.
      now right.
    + split; [right; exists b; repeat split; auto; now right|].
      split; [|exact Hrest].
      destruct Hx as (x & Hx & Hax & Ex). exists x. repeat split; auto.
      now right.
  - destruct Hin as [<-|Hin].
    + split; [left; exists pos; auto|].
      split; [exists s; repeat split; auto; now left|]. split; assumption.
    + destruct (IH t Hin) as ([(p & Hp & _)|(b & Hb' & Hab & E)] & Hx & Hrest);
        [discriminate|].
      split; [right; exists b; repeat split; auto; now right|].
      split; [|exact Hrest].
      destruct Hx as (x & Hx & Hax & Ex). exists x. repeat split; auto.
      now right.
  - destruct (IH t Hin) as ([(p & Hp & _)|(b & Hb' & Hab & E)] & Hx & Hrest);
      [discriminate|].
    split; [right; exists b; repeat split; auto; now right|].
    split; [|exact Hrest].
    destruct Hx as (x & Hx & Hax & Ex). exists x. repeat split; auto.
    now right.
  - destruct (IH t Hin) as ([Hp|(b & Hb' & Hab & E)] & Hx & Hrest).
    + split; [now left|]. split; [|exact Hrest].
      destruct Hx as (x & Hx & Hax & Ex). exists x. repeat split; auto.
      now right.
    + split; [right; exists b; repeat split; auto; now right|].
      split; [|exact Hrest].
      destruct Hx as (x & Hx & Hax & Ex). exists x. repeat split; auto.
      now right.
Qed.

End SimulatorMore.

(** On signals of positive price and with a positive position size, every
    trade [simulate_trades] emits enters at the price of a BUY signal,
    exits at the price of a SELL signal, has a strictly positive profit
    exactly when it exits above its entry, and breaks even exactly when the
    two prices are equal. *)
Theorem simulate_trades_profit_sign :
  forall (signals : list Simulator.Signal) (position_size : Q),
    0 < position_size ->
    (forall s, In s signals -> 0 < Simulator.price s) ->
    forall t, In t (Simulator.simulate_trades signals position_size) ->
      (exists b, In b signals /\ Simulator.action b = "BUY"%string
                 /\ Simulator.t_entry_price t = Simulator.price b)
      /\ (exists s, In s signals /\ Simulator.action s = "SELL"%string
                    /\ Simulator.exit_price t = Simulator.price s)
      /\ (0 < Simulator.profit_usd t
          <-> Simulator.t_entry_price t < Simulator.exit_price t)
      /\ (Simulator.profit_usd t == 0
          <-> Simulator.exit_price t == Simulator.t_entry_price t).
Proof.
  intros signals position_size Hsize Hpos t Hin.
  destruct (simulate_loop_discipline position_size signals [] None
              (sized_none position_size)) as (ts & E & D).
  unfold Simulator.simulate_trades in Hin. rewrite E in Hin. simpl in Hin.
  destruct (discipline_prices _ _ _ _ D t Hin)
    as ([(p & Hp & _)|(b & Hb & Hab & Eb)] & Hx & Hpnl & Hprofit);
    [discriminate|].
  split; [exists b; auto|]. split; [exact Hx|].
  apply (profit_sign _ _ position_size (Simulator.pnl_pct t)); auto.
  rewrite Eb. now apply Hpos.
Qed.

Lemma simulate_trades_profit_sign_witness :
  Forall (fun t => 0 < Simulator.profit_usd t
                   <-> Simulator.t_entry_price t < Simulator.exit_price t)
    (Simulator.simulate_trades
       [Simulator.mkSignal 1 10 NaN "BUY";
        Simulator.mkSignal 2 12 NaN "SELL"] 100).
Proof.
  apply Forall_forall. intros t Hin.
  refine (proj1 (proj2 (proj2 (simulate_trades_profit_sign
            [Simulator.mkSignal 1 10 NaN "BUY";
             Simulator.mkSignal 2 12 NaN "SELL"] 100 _ _ t Hin)))).
  - reflexivity.
  - intros s [<-|[<-|[]]]; reflexivity.
Defined.

(** The simulator works online: the trades of a sequence of signals stay,
    in place and unchanged, when more signals follow. *)
Theorem simulate_trades_prefix :
  forall (signals more : list Simulator.Signal) (position_size : Q),
    exists later,
      Simulator.simulate_trades (signals ++ more) position_size
      = Simulator.simulate_trades signals position_size ++ later.
Proof.
  intros signals more position_size. unfold Simulator.simulate_trades.
  rewrite fold_left_app.
  destruct (fold_left (Simulator.simulate_step position_size) signals
              ([], None)) as [trades pos].
  rewrite simulate_loop_appends. cbn [fst]. eauto.
Qed.

(** ** Bounds of the statistics *)

Section StatisticsMore.
Import Simulator.

Lemma of_nat_le a b : (a <= b)%nat -> of_nat a <= of_nat b.
Proof.
  intro H. unfold of_nat. rewrite <- Zle_Qle. lia.
Qed.

Lemma profits_at_most (trades : list Trade) hi :
  (forall t, In t trades -> profit_usd t <= hi) ->
  sum_profits trades <= of_nat (List.length trades) * hi.
Proof.
  induction trades as [|t rest IH]; intro H.
  - unfold of_nat, inject_Z. simpl. lra.
  - cbn [sum_profits List.length]. rewrite of_nat_S.
    assert (profit_usd t <= hi) by (apply H; now left).
    assert (sum_profits rest <= of_nat (List.length rest) * hi)
      by (apply IH; intros; apply H; now right).
    lra.
Qed.

Lemma profits_at_least (trades : list Trade) lo :
  (forall t, In t trades -> lo <= profit_usd t) ->
  of_nat (List.length trades) * lo <= sum_profits trades.
Proof.
  induction trades as [|t rest IH]; intro H.
  - unfold of_nat, inject_Z. simpl. lra.
  - cbn [sum_profits List.length]. rewrite of_nat_S.
    assert (lo <= profit_usd t) by (apply H; now left).
    assert (of_nat (List.length rest) * lo <= sum_profits rest)
      by (apply IH; intros; apply H; now right).
    lra.
Qed.

End StatisticsMore.

(** Whenever [calculate_trade_statistics] returns statistics, the win rate
    lies between 0 and 100, the average profit times the number of trades
    is the total profit, and the average profit lies between any two bounds
    that hold for the profit of every trade. *)
Theorem trade_statistics_bounds :
  forall (trades : list Simulator.Trade) (s : Simulator.Stats),
    Simulator.calculate_trade_statistics trades = Some s ->
    0 <= Simulator.win_rate s <= 100
    /\ Simulator.avg_profit s * Simulator.of_nat (Simulator.total_trades s)
       == Simulator.total_profit_usd s
    /\ (forall lo hi,
           (forall t, In t trades -> lo <= Simulator.profit_usd t <= hi) ->
           lo <= Simulator.avg_profit s <= hi).
Proof.
  intros trades s E.
  assert (Hne : trades <> []) by (intros ->; discriminate).
  rewrite statistics_of_nonempty in E by assumption.
  injection E as <-.
  cbn [Simulator.win_rate Simulator.avg_profit Simulator.total_trades
       Simulator.total_profit_usd].
  assert (Hn : 0 < Simulator.of_nat (List.length trades))
    by (apply of_nat_pos; destruct trades; [congruence|simpl; lia]).
  set (n := Simulator.of_nat (List.length trades)) in *.
  set (w := Simulator.of_nat
              (List.length
                 (filter (fun t => Qlt_bool 0 (Simulator.profit_usd t))
                    trades))).
  assert (Hw0 : 0 <= w)
    by (unfold w, Simulator.of_nat; rewrite <- (Zle_Qle 0); lia).
  assert (Hwn : w <= n) by (apply of_nat_le, filter_length_le).
  assert (Hr0 : 0 <= w / n) by (apply Qle_shift_div_l; lra).
  assert (Hr1 : w / n <= 1) by (apply Qle_shift_div_r; lra).
  split; [lra|]. split; [field; lra|].
  intros lo hi Hb. rewrite py_sum_profits.
  pose proof (profits_at_least trades lo (fun t Ht => proj1 (Hb t Ht))) as H1.
  pose proof (profits_at_most trades hi (fun t Ht => proj2 (Hb t Ht))) as H2.
  fold n in H1, H2. split.
  - apply Qle_shift_div_l; lra.
  - apply Qle_shift_div_r; lra.
Qed.

Lemma trade_statistics_bounds_witness :
  exists s,
    Simulator.calculate_trade_statistics
      [Simulator.mkTrade 0 100 1 100 0 0; Simulator.mkTrade 2 100 3 110 10 5]
    = Some s
    /\ 0 <= Simulator.win_rate s <= 100.
Proof.
  eexists. split; [vm_compute; reflexivity|].
  refine (proj1 (trade_statistics_bounds
                   [Simulator.mkTrade 0 100 1 100 0 0;
                    Simulator.mkTrade 2 100 3 110 10 5] _ _)).
  vm_compute; reflexivity.
Defined.

(** ** The RSI on monotone and on flat series *)

Section RsiDegenerate.
Import Indicators.

(** Strictly decreasing: every sample is above every later one. *)
Definition decreasing (xs : list Q) : Prop :=
  StronglySorted (fun a b => b < a) xs.

(** All samples equal. *)
Definition flat (xs : list Q) : Prop :=
  forall x y, In x xs -> In y xs -> x == y.

(** The three shapes of an RSI cell with a one-sided or empty window. *)
Lemma rsi_of_no_loss g l :
  0 < g -> l == 0 -> exists q, rsi_of (Fin g, Fin l) = Fin q /\ q == 100.
Proof.
  intros Hg Hl. unfold rsi_of. cbn [fst snd cell_div].
  apply Qeq_bool_iff in Hl. rewrite Hl.
  apply Qlt_bool_iff in Hg. rewrite Hg. cbn.
  eexists. split; [reflexivity|]. ring.
Qed.

Lemma rsi_of_no_gain g l :
  g == 0 -> 0 < l -> exists q, rsi_of (Fin g, Fin l) = Fin q /\ q == 0.
Proof.
  intros Hg Hl. unfold rsi_of. cbn [fst snd cell_div].
  destruct (Qeq_bool l 0) eqn:El; qbool; [lra|].
  cbn [cell_add cell_div].
  assert (E : g / l == 0) by (rewrite Hg; field; lra).
  destruct (Qeq_bool (1 + g / l) 0) eqn:E1; qbool; [lra|].
  cbn. eexists. split; [reflexivity|]. rewrite E. field.
Qed.

Lemma rsi_of_no_move g l :
  g == 0 -> l == 0 -> rsi_of (Fin g, Fin l) = NaN.
Proof.
  intros Hg Hl. unfold rsi_of. cbn [fst snd cell_div].
  apply Qeq_bool_iff in Hl. rewrite Hl.
  destruct (Qlt_bool 0 g) eqn:E1; qbool; [lra|].
  destruct (Qlt_bool g 0) eqn:E2; qbool; [lra|]. reflexivity.
Qed.

Lemma py_sum_zero xs :
  (forall x, In x xs -> x == 0) -> Simulator.py_sum xs == 0.
Proof.
  induction xs as [|x xs IH]; intro H.
  - reflexivity.
  - rewrite py_sum_cons, (H x), IH; [ring| |now left].
    intros; apply H; now right.
Qed.

Lemma py_sum_pos xs y :
  (forall x, In x xs -> 0 <= x) -> In y xs -> 0 < y ->
  0 < Simulator.py_sum xs.
Proof.
  induction xs as [|x xs IH]; intros H Hin Hy; [contradiction|].
  rewrite py_sum_cons.
  assert (0 <= x) by (apply H; now left).
  assert (0 <= Simulator.py_sum xs)
    by (apply py_sum_nonneg; intros; apply H; now right).
  destruct Hin as [->|Hin]; [lra|].
  assert (0 < Simulator.py_sum xs)
    by (apply IH; auto; intros; apply H; now right).
  lra.
Qed.

(** The window that ends at [i] holds the sample at [i]. *)
Lemma window_last xs i p d :
  (i < List.length xs)%nat -> (1 <= p)%nat -> (p <= i + 1)%nat ->
  In (nth i xs d) (window xs i p).
Proof.
  intros Hi Hp Hpi. unfold window.
  replace (nth i xs d)
    with (nth (p - 1) (firstn p (skipn (i + 1 - p) xs)) d).
  - apply nth_In. rewrite length_firstn, length_skipn. lia.
  - rewrite nth_firstn.
    replace (p - 1 <? p)%nat with true by (symmetry; apply Nat.ltb_lt; lia).
    rewrite nth_skipn. f_equal. lia.
Qed.

(** The moves of a series, from its first differences. *)
Definition gains (prices : list Q) : list Q :=
  map where_positive (diff prices).

Definition losses (prices : list Q) : list Q :=
  map neg_where_negative (diff prices).

Lemma diff_from_nth rest : forall prev i,
  (i < List.length rest)%nat ->
  nth i (diff_from prev rest) None
  = Some (nth i rest 0 - nth i (prev :: rest) 0).
Proof.
  induction rest as [|x rest IH]; intros prev i Hi; simpl in Hi; [lia|].
  destruct i as [|i]; [reflexivity|].
  cbn [diff_from nth]. rewrite IH by lia. reflexivity.
Qed.

Lemma diff_nth prices i :
  (1 <= i)%nat -> (i < List.length prices)%nat ->
  nth i (diff prices) None
  = Some (nth i prices 0 - nth (i - 1) prices 0).
Proof.
  intros H1 Hi. destruct prices as [|p rest]; [simpl in Hi; lia|].
  destruct i as [|i]; [lia|]. simpl in Hi.
  cbn [diff nth]. rewrite diff_from_nth by lia.
  replace (S i - 1)%nat with i by lia. reflexivity.
Qed.

(** A delta of the series: the missing first one or a difference of two
    consecutive samples. *)
Lemma diff_in prices d :
  In d (diff prices) ->
  d = None
  \/ exists i, (1 <= i)%nat /\ (i < List.length prices)%nat
               /\ d = Some (nth i prices 0 - nth (i - 1) prices 0).
Proof.
  intro Hin. apply (In_nth _ _ None) in Hin.
  destruct Hin as (i & Hi & <-). rewrite diff_length in Hi.
  destruct i as [|i].
  - left. destruct prices; [simpl in Hi; lia|reflexivity].
  - right. exists (S i). split; [lia|]. split; [exact Hi|].
    apply diff_nth; lia.
Qed.

Lemma increasing_nth xs i j :
  increasing xs -> (i < j)%nat -> (j < List.length xs)%nat ->
  nth i xs 0 < nth j xs 0.
Proof.
  intros Hinc Hij Hj.
  rewrite <- (firstn_skipn j xs) in Hinc.
  apply (increasing_app_lt _ _ _ _ Hinc).
  - replace (nth i xs 0) with (nth i (firstn j xs) 0).
    + apply nth_In. rewrite length_firstn. lia.
    + rewrite nth_firstn.
      replace (i <? j)%nat with true by (symmetry; apply Nat.ltb_lt; lia).
      reflexivity.
  - replace (nth j xs 0) with (nth 0 (skipn j xs) 0)
      by (rewrite nth_skipn; f_equal; lia).
    apply nth_In. rewrite length_skipn. lia.
Qed.

End RsiDegenerate.

Section RsiShapes.
Import Indicators.

Lemma strongly_sorted_nth (R : Q -> Q -> Prop) xs :
  StronglySorted R xs ->
  forall i j, (i < j)%nat -> (j < List.length xs)%nat ->
              R (nth i xs 0) (nth j xs 0).
Proof.
  induction 1 as [|x xs Hs IH Hall]; intros i j Hij Hj; simpl in Hj; [lia|].
  destruct j as [|j]; [lia|]. destruct i as [|i]; simpl.
  - rewrite Forall_forall in Hall. apply Hall. apply nth_In. lia.
  - apply IH; lia.
Qed.

(** The RSI cell at an index where both averages are available. *)
Lemma rsi_cell prices period i :
  (1 <= period)%nat -> (period <= i + 1)%nat ->
  (i < List.length prices)%nat ->
  nth i (calculate_rsi prices period) NaN
  = rsi_of
      (Fin (Simulator.py_sum (window (gains prices) i period)
            / Simulator.of_nat period),
       Fin (Simulator.py_sum (window (losses prices) i period)
            / Simulator.of_nat period)).
Proof.
  intros Hp Hpi Hi. rewrite calculate_rsi_nth by assumption.
  rewrite !rolling_mean_nth by now rewrite length_map, diff_length.
  replace (period =? 0)%nat with false by (symmetry; apply Nat.eqb_neq; lia).
  replace (i + 1 <? period)%nat with false
    by (symmetry; apply Nat.ltb_ge; lia).
  reflexivity.
Qed.

(** Before both averages are available the cell is NaN. *)
Lemma rsi_cell_early prices period i :
  (i < List.length prices)%nat ->
  period = 0%nat \/ (i + 1 < period)%nat ->
  nth i (calculate_rsi prices period) NaN = NaN.
Proof.
  intros Hi Hp. rewrite calculate_rsi_nth by assumption.
  rewrite !rolling_mean_nth by now rewrite length_map, diff_length.
  destruct Hp as [->|Hp]; [reflexivity|].
  apply Nat.ltb_lt in Hp. rewrite Hp, orb_true_r. reflexivity.
Qed.

Lemma gains_nth prices i :
  nth i (gains prices) 0 = where_positive (nth i (diff prices) None).
Proof.
  unfold gains. change 0 with (where_positive None) at 1. apply map_nth.
Qed.

Lemma losses_nth prices i :
  (i < List.length prices)%nat ->
  nth i (losses prices) 0 = neg_where_negative (nth i (diff prices) None).
Proof.
  intro Hi. unfold losses.
  rewrite (nth_indep _ 0 (neg_where_negative None))
    by now rewrite length_map, diff_length.
  apply map_nth.
Qed.

Lemma gains_nonneg prices x : In x (gains prices) -> 0 <= x.
Proof.
  intro H. apply in_map_iff in H. destruct H as (d & <- & _).
  apply where_positive_nonneg.
Qed.

Lemma losses_nonneg prices x : In x (losses prices) -> 0 <= x.
Proof.
  intro H. apply in_map_iff in H. destruct H as (d & <- & _).
  apply neg_where_negative_nonneg.
Qed.

(** The sign of every move decides which side has the moves. *)
Lemma moves_up prices :
  (forall i, (1 <= i)%nat -> (i < List.length prices)%nat ->
             nth (i - 1) prices 0 < nth i prices 0) ->
  (forall x, In x (losses prices) -> x == 0)
  /\ (forall i, (1 <= i)%nat -> (i < List.length prices)%nat ->
                0 < nth i (gains prices) 0).
Proof.
  intro Hup. split.
  - intros x Hx. apply in_map_iff in Hx. destruct Hx as (d & <- & Hd).
    destruct (diff_in _ _ Hd) as [->|(i & H1 & Hi & ->)]; [reflexivity|].
    specialize (Hup i H1 Hi). simpl.
    destruct (Qlt_bool _ 0) eqn:E; qbool; [lra|reflexivity].
  - intros i H1 Hi. rewrite gains_nth, diff_nth by assumption.
    specialize (Hup i H1 Hi). simpl.
    destruct (Qlt_bool 0 _) eqn:E; qbool; lra.
Qed.

Lemma moves_down prices :
  (forall i, (1 <= i)%nat -> (i < List.length prices)%nat ->
             nth i prices 0 < nth (i - 1) prices 0) ->
  (forall x, In x (gains prices) -> x == 0)
  /\ (forall i, (1 <= i)%nat -> (i < List.length prices)%nat ->
                0 < nth i (losses prices) 0).
Proof.
  intro Hdown. split.
  - intros x Hx. apply in_map_iff in Hx. destruct Hx as (d & <- & Hd).
    destruct (diff_in _ _ Hd) as [->|(i & H1 & Hi & ->)]; [reflexivity|].
    specialize (Hdown i H1 Hi). simpl.
    destruct (Qlt_bool 0 _) eqn:E; qbool; [lra|reflexivity].
  - intros i H1 Hi. rewrite losses_nth, diff_nth by assumption.
    specialize (Hdown i H1 Hi). simpl.
    destruct (Qlt_bool _ 0) eqn:E; qbool; lra.
Qed.

Lemma moves_none prices :
  flat prices ->
  (forall x, In x (gains prices) -> x == 0)
  /\ (forall x, In x (losses prices) -> x == 0).
Proof.
  intro Hflat.
  assert (Hd : forall d, In d (diff prices) ->
                         d = None \/ exists x, d = Some x /\ x == 0).
  { intros d Hd. destruct (diff_in _ _ Hd) as [->|(i & H1 & Hi & ->)];
      [now left|].
    right. eexists. split; [reflexivity|].
    rewrite (Hflat (nth i prices 0) (nth (i - 1) prices 0));
      [ring| |]; apply nth_In; lia. }
  split; intros x Hx; apply in_map_iff in Hx;
    destruct Hx as (d & <- & Hin);
    destruct (Hd d Hin) as [->|(y & -> & Hy)]; try reflexivity; simpl.
  - destruct (Qlt_bool 0 y) eqn:E; qbool; [lra|reflexivity].
  - destruct (Qlt_bool y 0) eqn:E; qbool; [lra|reflexivity].
Qed.

(** The average over a window, from what holds of the samples. *)
Lemma window_mean_zero xs i p :
  (forall x, In x xs -> x == 0) ->
  Simulator.py_sum (window xs i p) / Simulator.of_nat p == 0.
Proof.
  intro H. rewrite py_sum_zero.
  - unfold Qdiv. ring.
  - intros x Hx. apply H. eapply window_incl; eassumption.
Qed.

Lemma window_mean_pos xs i p :
  (forall x, In x xs -> 0 <= x) ->
  (i < List.length xs)%nat -> (1 <= p)%nat -> (p <= i + 1)%nat ->
  0 < nth i xs 0 ->
  0 < Simulator.py_sum (window xs i p) / Simulator.of_nat p.
Proof.
  intros Hx Hi Hp Hpi Hpos.
  apply Qlt_shift_div_l; [apply of_nat_pos; lia|]. rewrite Qmult_0_l.
  apply (py_sum_pos _ (nth i xs 0)); [|now apply window_last|exact Hpos].
  intros x Hin. apply Hx. eapply window_incl; eassumption.
Qed.

Lemma gains_length prices : List.length (gains prices) = List.length prices.
Proof. unfold gains. now rewrite length_map, diff_length. Qed.

Lemma losses_length prices : List.length (losses prices) = List.length prices.
Proof. unfold losses. now rewrite length_map, diff_length. Qed.

(** The first cell of the RSI is never available: the first difference is
    missing, so a window of one sample holds no move. *)
Lemma rsi_first prices period :
  (0 < List.length prices)%nat ->
  nth 0 (calculate_rsi prices period) NaN = NaN.
Proof.
  intro Hlen.
  destruct (Nat.eq_dec period 0) as [->|Hp0];
    [apply rsi_cell_early; auto|].
  destruct (Nat.eq_dec period 1) as [->|Hp1];
    [|apply rsi_cell_early; auto; right; lia].
  rewrite rsi_cell by lia.
  destruct prices as [|p rest]; [simpl in Hlen; lia|].
  apply rsi_of_no_move; unfold window, gains, losses; simpl;
    unfold Simulator.py_sum, Simulator.of_nat, inject_Z; simpl; reflexivity.
Qed.

Lemma rsi_rising_cell prices period i :
  increasing prices ->
  (1 <= period)%nat -> (period <= i + 1)%nat -> (1 <= i)%nat ->
  (i < List.length prices)%nat ->
  exists q, nth i (calculate_rsi prices period) NaN = Fin q /\ q == 100.
Proof.
  intros Hinc Hp Hpi H1 Hi. rewrite rsi_cell by assumption.
  destruct (moves_up prices) as [Hl Hg].
  { intros j Hj1 Hj. apply (strongly_sorted_nth _ _ Hinc); lia. }
  apply rsi_of_no_loss.
  - apply window_mean_pos;
      [apply gains_nonneg|now rewrite gains_length|exact Hp|exact Hpi
      |now apply Hg].
  - now apply window_mean_zero.
Qed.

Lemma rsi_falling_cell prices period i :
  decreasing prices ->
  (1 <= period)%nat -> (period <= i + 1)%nat -> (1 <= i)%nat ->
  (i < List.length prices)%nat ->
  exists q, nth i (calculate_rsi prices period) NaN = Fin q /\ q == 0.
Proof.
  intros Hdec Hp Hpi H1 Hi. rewrite rsi_cell by assumption.
  destruct (moves_down prices) as [Hg Hl].
  { intros j Hj1 Hj. apply (strongly_sorted_nth _ _ Hdec); lia. }
  apply rsi_of_no_gain.
  - now apply window_mean_zero.
  - apply window_mean_pos;
      [apply losses_nonneg|now rewrite losses_length|exact Hp|exact Hpi
      |now apply Hl].
Qed.

Lemma rsi_flat_cell prices period i :
  flat prices -> (i < List.length prices)%nat ->
  nth i (calculate_rsi prices period) NaN = NaN.
Proof.
  intros Hflat Hi.
  destruct (Nat.eq_dec period 0) as [->|Hp0];
    [apply rsi_cell_early; auto|].
  destruct (Nat.ltb_spec (i + 1) period) as [Hlt|Hge];
    [apply rsi_cell_early; auto|].
  rewrite rsi_cell by lia.
  destruct (moves_none prices Hflat) as [Hg Hl].
  apply rsi_of_no_move; now apply window_mean_zero.
Qed.

End RsiShapes.

(** For every period of at least 1 and every index from 1 on at which
    [period] samples are there, the RSI of a strictly increasing series is
    100 (no loss in the window: the ratio is infinite) and the RSI of a
    strictly decreasing series is 0; at index 0 the RSI is not available
    for any series. *)
Theorem calculate_rsi_monotone :
  forall (prices : list Q) (period i : nat),
    (1 <= period)%nat -> (period <= i + 1)%nat -> (1 <= i)%nat ->
    (i < List.length prices)%nat ->
    (increasing prices ->
     exists q, nth i (Indicators.calculate_rsi prices period) NaN = Fin q
               /\ q == 100)
    /\ (decreasing prices ->
        exists q, nth i (Indicators.calculate_rsi prices period) NaN = Fin q
                  /\ q == 0)
    /\ nth 0 (Indicators.calculate_rsi prices period) NaN = NaN.
Proof.
  intros prices period i Hp Hpi H1 Hi.
  split; [|split; [|apply rsi_first; lia]].
  - intro Hinc. now apply rsi_rising_cell.
  - intro Hdec. now apply rsi_falling_cell.
Qed.

Lemma calculate_rsi_monotone_witness :
  exists q, nth 2 (Indicators.calculate_rsi [1; 2; 3] 2) NaN = Fin q
            /\ q == 100.
Proof.
  refine (proj1 (calculate_rsi_monotone [1; 2; 3] 2 2 _ _ _ _) _);
    try (simpl; lia).
  unfold increasing.
  repeat (constructor; [|repeat (constructor; [reflexivity|]); constructor]).
  constructor.
Defined.

Section RsiEvaluatorShapes.
Import Strategies.

(** What a signal of the RSI evaluator tells about the row it comes from. *)
Lemma rsi_signals_in df period oversold overbought s :
  In s (rsi_signals df period oversold overbought) ->
  exists i,
    (i < List.length df)%nat
    /\ Simulator.rsi s
       = nth i (Indicators.calculate_rsi (map close df) period) NaN
    /\ isna (Simulator.rsi s) = false
    /\ ((Simulator.action s = "BUY"%string
         /\ cell_le (Simulator.rsi s) (Fin (inject_Z oversold)) = true)
        \/ (Simulator.action s = "SELL"%string
            /\ cell_ge (Simulator.rsi s) (Fin (inject_Z overbought)) = true)).
Proof.
  unfold rsi_signals. intro Hin. apply in_flat_map in Hin.
  destruct Hin as ([row r] & Hrow & Hs).
  apply (In_nth _ _ (default_candle, NaN)) in Hrow.
  destruct Hrow as (i & Hi & Ei).
  rewrite length_combine, calculate_rsi_length, length_map, Nat.min_id in Hi.
  rewrite combine_nth in Ei
    by now rewrite calculate_rsi_length, length_map.
  injection Ei as _ Er.
  exists i. split; [exact Hi|].
  destruct (isna r) eqn:Ena; [contradiction|].
  destruct (cell_le r (Fin (inject_Z oversold))) eqn:Elo.
  - destruct Hs as [<-|[]]. cbn. rewrite Er. auto.
  - destruct (cell_ge r (Fin (inject_Z overbought))) eqn:Ehi;
      [|contradiction].
    destruct Hs as [<-|[]]. cbn. rewrite Er. auto.
Qed.

(** A run with no BUY signal, or with no SELL signal, closes no trade. *)
Lemma simulate_one_sided signals position_size :
  (forall s, In s signals -> Simulator.action s <> "BUY"%string)
  \/ (forall s, In s signals -> Simulator.action s <> "SELL"%string) ->
  Simulator.simulate_trades signals position_size = [].
Proof.
  intro H.
  destruct (simulate_loop_discipline position_size signals [] None
              (sized_none position_size)) as (ts & E & D).
  unfold Simulator.simulate_trades. rewrite E. simpl.
  destruct ts as [|t ts]; [reflexivity|]. exfalso.
  destruct (discipline_prices _ _ _ _ D t (or_introl eq_refl))
    as ([(p & Hp & _)|(b & Hb & Hab & _)] & (x & Hx & Hax & _) & _);
    [discriminate|].
  destruct H as [H|H]; [exact (H b Hb Hab)|exact (H x Hx Hax)].
Qed.

Lemma run_rsi_backtest_no_trade df coin period oversold overbought size :
  Simulator.simulate_trades (rsi_signals df period oversold overbought) size
  = [] ->
  run_rsi_backtest df coin period oversold overbought size = None.
Proof.
  intro E. unfold run_rsi_backtest. now rewrite E.
Qed.

End RsiEvaluatorShapes.

(** The RSI evaluator closes no trade on a monotone or flat market, for
    every period and position size: on strictly increasing closes with an
    oversold threshold below 100 it never buys, on strictly decreasing
    closes with an overbought threshold above 0 it never sells, and on
    closes that are all equal the RSI is never available and no signal is
    generated; it returns None in the three cases. *)
Theorem run_rsi_backtest_monotone :
  forall (df : list Strategies.Candle) (coin : string) (period : nat)
         (oversold overbought : Z) (position_size : Q),
    (increasing (map Strategies.close df) -> (oversold < 100)%Z ->
     (forall s, In s (Strategies.rsi_signals df period oversold overbought) ->
                Simulator.action s = "SELL"%string)
     /\ Strategies.run_rsi_backtest df coin period oversold overbought
          position_size = None)
    /\ (decreasing (map Strategies.close df) -> (0 < overbought)%Z ->
        (forall s, In s (Strategies.rsi_signals df period oversold overbought)
                   -> Simulator.action s = "BUY"%string)
        /\ Strategies.run_rsi_backtest df coin period oversold overbought
             position_size = None)
    /\ (flat (map Strategies.close df) ->
        Strategies.rsi_signals df period oversold overbought = []
        /\ Strategies.run_rsi_backtest df coin period oversold overbought
             position_size = None).
Proof.
  intros df coin period oversold overbought position_size.
  split; [|split].
  - intros Hinc Hlo.
    assert (Hsell : forall s,
               In s (Strategies.rsi_signals df period oversold overbought) ->
               Simulator.action s = "SELL"%string).
    { intros s Hs.
      destruct (rsi_signals_in _ _ _ _ _ Hs)
        as (i & Hi & Er & Hna & [[_ Hle]|[Ha _]]); [exfalso|exact Ha].
      rewrite Er in Hna, Hle.
      destruct (Nat.eq_dec i 0) as [->|Hi0].
      { rewrite rsi_first in Hna by (rewrite length_map; lia).
        discriminate. }
      destruct (Nat.eq_dec period 0) as [->|Hp0].
      { rewrite rsi_cell_early in Hna
          by (auto; rewrite length_map; lia).
        discriminate. }
      destruct (Nat.ltb_spec (i + 1) period) as [Hlt|Hge].
      { rewrite rsi_cell_early in Hna
          by (auto; rewrite length_map; lia).
        discriminate. }
      destruct (rsi_rising_cell (map Strategies.close df) period i Hinc)
        as (q & Eq & Hq); try lia; [rewrite length_map; lia|].
      rewrite Eq in Hle. cbn in Hle. qbool.
      rewrite Hq in Hle. change 100 with (inject_Z 100) in Hle.
      rewrite <- Zle_Qle in Hle. lia. }
    split; [exact Hsell|].
    apply run_rsi_backtest_no_trade, simulate_one_sided. left.
    intros s Hs E. rewrite (Hsell s Hs) in E. discriminate.
  - intros Hdec Hhi.
    assert (Hbuy : forall s,
               In s (Strategies.rsi_signals df period oversold overbought) ->
               Simulator.action s = "BUY"%string).
    { intros s Hs.
      destruct (rsi_signals_in _ _ _ _ _ Hs)
        as (i & Hi & Er & Hna & [[Ha _]|[_ Hge]]); [exact Ha|exfalso].
      rewrite Er in Hna, Hge.
      destruct (Nat.eq_dec i 0) as [->|Hi0].
      { rewrite rsi_first in Hna by (rewrite length_map; lia).
        discriminate. }
      destruct (Nat.eq_dec period 0) as [->|Hp0].
      { rewrite rsi_cell_early in Hna
          by (auto; rewrite length_map; lia).
        discriminate. }
      destruct (Nat.ltb_spec (i + 1) period) as [Hlt|Hge'].
      { rewrite rsi_cell_early in Hna
          by (auto; rewrite length_map; lia).
        discriminate. }
      destruct (rsi_falling_cell (map Strategies.close df) period i Hdec)
        as (q & Eq & Hq); try lia; [rewrite length_map; lia|].
      rewrite Eq in Hge. cbn in Hge. qbool.
      rewrite Hq in Hge. change 0 with (inject_Z 0) in Hge.
      rewrite <- Zle_Qle in Hge. lia. }
    split; [exact Hbuy|].
    apply run_rsi_backtest_no_trade, simulate_one_sided. right.
    intros s Hs E. rewrite (Hbuy s Hs) in E. discriminate.
  - intro Hflat.
    assert (Hnone : Strategies.rsi_signals df period oversold overbought = []).
    { destruct (Strategies.rsi_signals df period oversold overbought)
        as [|s l] eqn:E; [reflexivity|]. exfalso.
      assert (Hs : In s (Strategies.rsi_signals df period oversold
                           overbought)) by (rewrite E; now left).
      destruct (rsi_signals_in _ _ _ _ _ Hs) as (i & Hi & Er & Hna & _).
      rewrite Er, rsi_flat_cell in Hna
        by (auto; rewrite length_map; lia).
      discriminate. }
    split; [exact Hnone|].
    apply run_rsi_backtest_no_trade. now rewrite Hnone.
Qed.

Lemma run_rsi_backtest_monotone_witness :
  Strategies.run_rsi_backtest rising_candles "BTC" 14 30 70 100 = None.
Proof.
  refine (proj2 (proj1 (run_rsi_backtest_monotone rising_candles "BTC" 14
                          30 70 100) rising_candles_increasing _)).
  lia.
Defined.

(** ** Exponential averages and the MACD *)

Section SmoothingFacts.
Import Smoothing.

Lemma smoothing_factor_range span :
  (1 <= span)%nat -> 0 < smoothing_factor span /\ smoothing_factor span <= 1.
Proof.
  intro H. unfold smoothing_factor.
  assert (1 <= Simulator.of_nat span).
  { change 1 with (Simulator.of_nat 1). now apply of_nat_le. }
  split.
  - apply Qlt_shift_div_l; lra.
  - apply Qle_shift_div_r; lra.
Qed.

Lemma ewm_from_length alpha rest : forall prev,
  List.length (ewm_from alpha prev rest) = List.length rest.
Proof. induction rest; intro; simpl; auto. Qed.

(** A weighted mean of two numbers lies between any bounds of the two. *)
Lemma blend_between alpha prev x lo hi :
  0 <= alpha -> alpha <= 1 ->
  lo <= prev <= hi -> lo <= x <= hi ->
  lo <= (1 - alpha) * prev + alpha * x <= hi.
Proof.
  intros Ha0 Ha1 [Hp1 Hp2] [Hx1 Hx2].
  assert (0 <= (1 - alpha) * (prev - lo))
    by (apply Qmult_le_0_compat; lra).
  assert (0 <= alpha * (x - lo)) by (apply Qmult_le_0_compat; lra).
  assert (0 <= (1 - alpha) * (hi - prev))
    by (apply Qmult_le_0_compat; lra).
  assert (0 <= alpha * (hi - x)) by (apply Qmult_le_0_compat; lra).
  assert ((1 - alpha) * prev + alpha * x
          == lo + (1 - alpha) * (prev - lo) + alpha * (x - lo)) by ring.
  assert ((1 - alpha) * prev + alpha * x
          == hi - (1 - alpha) * (hi - prev) - alpha * (hi - x)) by ring.
  split; lra.
Qed.

Lemma ewm_from_between alpha lo hi rest : forall prev,
  0 <= alpha -> alpha <= 1 ->
  lo <= prev <= hi ->
  (forall x, In x rest -> lo <= x <= hi) ->
  forall y, In y (ewm_from alpha prev rest) -> lo <= y <= hi.
Proof.
  induction rest as [|x rest IH]; intros prev Ha0 Ha1 Hp Hx y Hy;
    [contradiction|].
  assert (Hb : lo <= (1 - alpha) * prev + alpha * x <= hi)
    by (apply blend_between; auto; apply Hx; now left).
  destruct Hy as [<-|Hy]; [exact Hb|].
  apply (IH _ Ha0 Ha1 Hb); [|exact Hy].
  intros; apply Hx; now right.
Qed.

Lemma ewm_from_firstn alpha rest : forall prev n,
  firstn n (ewm_from alpha prev rest) = ewm_from alpha prev (firstn n rest).
Proof.
  induction rest as [|x rest IH]; intros prev n.
  - now rewrite !firstn_nil.
  - destruct n as [|n]; [reflexivity|]. cbn [ewm_from firstn].
    now rewrite IH.
Qed.

Lemma ewm_from_identity alpha rest : forall prev,
  alpha == 1 -> Forall2 Qeq (ewm_from alpha prev rest) rest.
Proof.
  induction rest as [|x rest IH]; intros prev Ha; cbn [ewm_from].
  - constructor.
  - constructor; [rewrite Ha; ring|now apply IH].
Qed.

Lemma ewm_mean_some xs span :
  (1 <= span)%nat ->
  ewm_mean xs span
  = Some (match xs with
          | [] => []
          | x :: rest => x :: ewm_from (smoothing_factor span) x rest
          end).
Proof.
  intro H. unfold ewm_mean.
  replace (span <? 1)%nat with false by (symmetry; apply Nat.ltb_ge; lia).
  reflexivity.
Qed.

Lemma ewm_mean_between xs span ema lo hi :
  ewm_mean xs span = Some ema ->
  (forall x, In x xs -> lo <= x <= hi) ->
  forall y, In y ema -> lo <= y <= hi.
Proof.
  unfold ewm_mean. destruct (span <? 1)%nat eqn:E; [discriminate|].
  apply Nat.ltb_ge in E. intro H. injection H as <-.
  destruct xs as [|x rest]; intros Hx y Hy; [contradiction|].
  destruct (smoothing_factor_range span E) as [Ha0 Ha1].
  destruct Hy as [<-|Hy]; [apply Hx; now left|].
  apply (ewm_from_between (smoothing_factor span) lo hi rest x); auto;
    try lra.
  - apply Hx; now left.
  - intros; apply Hx; now right.
Qed.

Lemma ewm_mean_length xs span ema :
  ewm_mean xs span = Some ema -> List.length ema = List.length xs.
Proof.
  unfold ewm_mean. destruct (span <? 1)%nat; [discriminate|].
  intro H. injection H as <-. destruct xs; simpl; [reflexivity|].
  now rewrite ewm_from_length.
Qed.

End SmoothingFacts.

(** [calculate_ema] fails exactly for a period below 1 (pandas refuses the
    span).  Otherwise the average is as long as the prices, starts at the
    first price, stays within any bounds that hold for all the prices, does
    not look ahead (the average of the first n prices is the first n values
    of the average), and for period 1 is the price series itself. *)
Theorem calculate_ema_bounds :
  forall (prices : list Q) (period : nat),
    (Smoothing.calculate_ema prices period = None <-> period = 0%nat)
    /\ forall ema,
         Smoothing.calculate_ema prices period = Some ema ->
         List.length ema = List.length prices
         /\ (forall first rest, prices = first :: rest ->
                                exists tail, ema = first :: tail)
         /\ (forall lo hi,
                (forall x, In x prices -> lo <= x <= hi) ->
                forall y, In y ema -> lo <= y <= hi)
         /\ (forall n, Smoothing.calculate_ema (firstn n prices) period
                       = Some (firstn n ema))
         /\ (period = 1%nat -> Forall2 Qeq ema prices).
Proof.
  intros prices period. unfold Smoothing.calculate_ema. split.
  - unfold Smoothing.ewm_mean. destruct (Nat.ltb_spec period 1).
    + split; [lia|reflexivity].
    + split; [discriminate|lia].
  - intros ema E. split; [now apply ewm_mean_length in E|].
    split; [|split; [|split]].
    + intros first rest ->. unfold Smoothing.ewm_mean in E.
      destruct (period <? 1)%nat; [discriminate|].
      injection E as <-. eauto.
    + intros lo hi. now apply ewm_mean_between with (xs := prices) (span := period).
    + intro n. unfold Smoothing.ewm_mean in *.
      destruct (period <? 1)%nat; [discriminate|]. injection E as <-.
      f_equal. destruct prices as [|x rest]; [now rewrite !firstn_nil|].
      destruct n as [|n]; [reflexivity|]. cbn [firstn].
      now rewrite ewm_from_firstn.
    + intros ->. unfold Smoothing.ewm_mean in E. simpl in E.
      injection E as <-. destruct prices as [|x rest]; constructor.
      * reflexivity.
      * apply ewm_from_identity. reflexivity.
Qed.

Section MacdFacts.
Import Smoothing.

Definition all_zero (xs : list Q) : Prop := forall x, In x xs -> x == 0.

Lemma all_zero_nth xs i : all_zero xs -> nth i xs 0 == 0.
Proof.
  intro H. destruct (nth_in_or_default i xs 0) as [Hin|E];
    [now apply H|rewrite E; reflexivity].
Qed.

Lemma series_sub_length xs ys :
  List.length xs = List.length ys ->
  List.length (series_sub xs ys) = List.length xs.
Proof.
  intro H. unfold series_sub.
  rewrite length_map, length_combine, <- H. apply Nat.min_id.
Qed.

Lemma series_sub_in xs ys z :
  In z (series_sub xs ys) ->
  exists x y, In (x, y) (combine xs ys) /\ z = x - y.
Proof.
  unfold series_sub. intro H. apply in_map_iff in H.
  destruct H as ([x y] & <- & Hin). eauto.
Qed.

Lemma combine_same {A} (l : list A) x y : In (x, y) (combine l l) -> x = y.
Proof.
  induction l as [|a l IH]; simpl; [tauto|].
  intros [H|H]; [congruence|now apply IH].
Qed.

(** The difference of two Series that agree, or that both stay at one
    value, is zero throughout. *)
Lemma series_sub_same xs : all_zero (series_sub xs xs).
Proof.
  intros z Hz. destruct (series_sub_in _ _ _ Hz) as (x & y & Hin & ->).
  apply combine_same in Hin. subst. ring.
Qed.

Lemma series_sub_level xs ys c :
  (forall x, In x xs -> c <= x <= c) ->
  (forall y, In y ys -> c <= y <= c) ->
  all_zero (series_sub xs ys).
Proof.
  intros Hx Hy z Hz. destruct (series_sub_in _ _ _ Hz) as (x & y & Hin & ->).
  pose proof (Hx x (in_combine_l _ _ _ _ Hin)).
  pose proof (Hy y (in_combine_r _ _ _ _ Hin)). lra.
Qed.

Lemma ewm_mean_zero xs span ema :
  ewm_mean xs span = Some ema -> all_zero xs -> all_zero ema.
Proof.
  intros E Hx y Hy.
  assert (0 <= y <= 0); [|lra].
  apply (ewm_mean_between xs span ema 0 0 E); [|exact Hy].
  intros x Hin. rewrite (Hx x Hin). lra.
Qed.

Lemma series_sub_zero xs ys :
  all_zero xs -> all_zero ys -> all_zero (series_sub xs ys).
Proof.
  intros Hx Hy z Hz. destruct (series_sub_in _ _ _ Hz) as (x & y & Hin & ->).
  rewrite (Hx x (in_combine_l _ _ _ _ Hin)),
          (Hy y (in_combine_r _ _ _ _ Hin)). ring.
Qed.

(** No crossover where the histogram is zero throughout. *)
Lemma macd_signals_zero df histogram :
  all_zero histogram -> MoreStrategies.macd_signals df histogram = [].
Proof.
  intro Hz. unfold MoreStrategies.macd_signals.
  apply flat_map_nil. intros i _.
  pose proof (all_zero_nth histogram i Hz) as Hc.
  destruct (Qlt_bool 0 (nth i histogram 0)) eqn:E1; qbool; [lra|].
  destruct (Qlt_bool (nth i histogram 0) 0) eqn:E2; qbool; [lra|].
  now rewrite !andb_false_r.
Qed.

(** The MACD line vanishes when the two periods agree or the prices do. *)
Lemma macd_line_zero prices fast slow ema_fast ema_slow :
  calculate_ema prices fast = Some ema_fast ->
  calculate_ema prices slow = Some ema_slow ->
  fast = slow \/ flat prices ->
  all_zero (series_sub ema_fast ema_slow).
Proof.
  intros Ef Es [->|Hflat].
  - rewrite Ef in Es. injection Es as <-. apply series_sub_same.
  - destruct prices as [|c rest].
    + apply ewm_mean_length in Ef. destruct ema_fast; [|discriminate].
      intros z [].
    + assert (Hc : forall x, In x (c :: rest) -> c <= x <= c).
      { intros x Hx. rewrite (Hflat x c Hx (or_introl eq_refl)). lra. }
      apply (series_sub_level _ _ c).
      * exact (ewm_mean_between _ _ _ c c Ef Hc).
      * exact (ewm_mean_between _ _ _ c c Es Hc).
Qed.

End MacdFacts.

(** [calculate_macd] fails exactly when one of the three periods is below
    1.  Otherwise the three Series are as long as the prices and start at
    zero (both averages start at the first price); and when the fast and the
    slow period are equal, the MACD line, the signal line and the histogram
    are zero throughout. *)
Theorem calculate_macd_shape :
  forall (prices : list Q) (fast slow signal : nat),
    (Smoothing.calculate_macd prices fast slow signal = None
     <-> fast = 0%nat \/ slow = 0%nat \/ signal = 0%nat)
    /\ forall macd_line signal_line histogram,
         Smoothing.calculate_macd prices fast slow signal
         = Some (macd_line, signal_line, histogram) ->
         List.length macd_line = List.length prices
         /\ List.length signal_line = List.length prices
         /\ List.length histogram = List.length prices
         /\ nth 0 macd_line 0 == 0
         /\ nth 0 signal_line 0 == 0
         /\ nth 0 histogram 0 == 0
         /\ (fast = slow ->
             all_zero macd_line /\ all_zero signal_line
             /\ all_zero histogram).
Proof.
  intros prices fast slow signal. unfold Smoothing.calculate_macd. split.
  - unfold Smoothing.calculate_ema, Smoothing.ewm_mean.
    destruct (Nat.ltb_spec fast 1); [split; [lia|reflexivity]|].
    destruct (Nat.ltb_spec slow 1); [split; [lia|reflexivity]|].
    destruct (Nat.ltb_spec signal 1); [split; [lia|reflexivity]|].
    split; [discriminate|lia].
  - intros macd_line signal_line histogram.
    destruct (Smoothing.calculate_ema prices fast) as [ef|] eqn:Ef;
      [|discriminate].
    destruct (Smoothing.calculate_ema prices slow) as [es|] eqn:Es;
      [|discriminate].
    destruct (Smoothing.ewm_mean (Smoothing.series_sub ef es) signal)
      as [sl|] eqn:Esl; [|discriminate].
    intro H. injection H as <- <- <-.
    pose proof (ewm_mean_length _ _ _ Ef) as Lf.
    pose proof (ewm_mean_length _ _ _ Es) as Ls.
    pose proof (ewm_mean_length _ _ _ Esl) as Lsl.
    assert (Lm : List.length (Smoothing.series_sub ef es) = List.length prices)
      by (rewrite series_sub_length; congruence).
    assert (Lh : List.length (Smoothing.series_sub
                                (Smoothing.series_sub ef es) sl)
                 = List.length prices)
      by (rewrite series_sub_length; congruence).
    split; [exact Lm|]. split; [congruence|]. split; [exact Lh|].
    assert (Hfirst : nth 0 (Smoothing.series_sub ef es) 0 == 0
                     /\ nth 0 sl 0 == 0).
    { unfold Smoothing.calculate_ema, Smoothing.ewm_mean in Ef, Es, Esl.
      destruct (fast <? 1)%nat; [discriminate|].
      destruct (slow <? 1)%nat; [discriminate|].
      destruct (signal <? 1)%nat; [discriminate|].
      injection Ef as <-. injection Es as <-.
      destruct prices as [|p rest].
      - simpl in Esl. injection Esl as <-. split; reflexivity.
      - cbn in Esl. injection Esl as <-. cbn. split; ring. }
    destruct Hfirst as [Hm0 Hs0].
    split; [exact Hm0|]. split; [exact Hs0|]. split.
    + destruct (Smoothing.series_sub ef es) as [|m0 ms] eqn:Em;
        [reflexivity|].
      destruct sl as [|s0 ss]; [reflexivity|].
      cbn in *. lra.
    + intro Hfs.
      assert (Hcase : fast = slow \/ flat prices) by now left.
      pose proof (macd_line_zero _ _ _ _ _ Ef Es Hcase) as Hm.
      pose proof (ewm_mean_zero _ _ _ Esl Hm) as Hs.
      split; [exact Hm|]. split; [exact Hs|].
      now apply series_sub_zero.
Qed.

(** The MACD evaluator returns None, for every position size, when the fast
    and the slow period are equal (the histogram is zero throughout: no
    crossover), and when one of the three periods is below 1 (the error of
    the average is caught). *)
Theorem run_macd_backtest_no_crossover :
  forall (df : list Strategies.Candle) (coin : string)
         (fast slow signal_period : nat) (position_size : Q),
    fast = slow \/ fast = 0%nat \/ slow = 0%nat \/ signal_period = 0%nat ->
    MoreStrategies.run_macd_backtest df coin fast slow signal_period
      position_size = None.
Proof.
  intros df coin fast slow signal_period position_size H.
  unfold MoreStrategies.run_macd_backtest, Smoothing.calculate_macd.
  destruct (Smoothing.calculate_ema (map Strategies.close df) fast)
    as [ef|] eqn:Ef; [|reflexivity].
  destruct (Smoothing.calculate_ema (map Strategies.close df) slow)
    as [es|] eqn:Es; [|reflexivity].
  destruct (Smoothing.ewm_mean (Smoothing.series_sub ef es) signal_period)
    as [sl|] eqn:Esl; [|reflexivity].
  assert (Hcase : fast = slow \/ flat (map Strategies.close df)).
  { destruct H as [H|H]; [now left|]. exfalso.
    unfold Smoothing.calculate_ema, Smoothing.ewm_mean in Ef, Es, Esl.
    destruct (Nat.ltb_spec fast 1); [discriminate|].
    destruct (Nat.ltb_spec slow 1); [discriminate|].
    destruct (Nat.ltb_spec signal_period 1); [discriminate|]. lia. }
  pose proof (macd_line_zero _ _ _ _ _ Ef Es Hcase) as Hm.
  pose proof (ewm_mean_zero _ _ _ Esl Hm) as Hs.
  rewrite macd_signals_zero by now apply series_sub_zero.
  reflexivity.
Qed.

Lemma run_macd_backtest_no_crossover_witness :
  MoreStrategies.run_macd_backtest swing_candles "BTC" 12 12 9 100 = None.
Proof.
  apply (run_macd_backtest_no_crossover swing_candles "BTC" 12 12 9 100).
  now left.
Defined.

(** ** Volume spikes and the scalping evaluator *)

Section SpikeFacts.
Import Smoothing.

Lemma py_sum_at_most l b :
  (forall x, In x l -> x <= b) ->
  Simulator.py_sum l <= Simulator.of_nat (List.length l) * b.
Proof.
  induction l as [|x l IH]; intro H.
  - unfold Simulator.py_sum, Simulator.of_nat, inject_Z. simpl. lra.
  - rewrite py_sum_cons. cbn [List.length]. rewrite of_nat_S.
    assert (x <= b) by (apply H; now left).
    assert (Simulator.py_sum l <= Simulator.of_nat (List.length l) * b)
      by (apply IH; intros; apply H; now right).
    lra.
Qed.

Lemma volume_spike_length volume multiplier window :
  List.length (calculate_volume_spike volume multiplier window)
  = List.length volume.
Proof.
  unfold calculate_volume_spike.
  rewrite length_map, length_combine, rolling_mean_length.
  apply Nat.min_id.
Qed.

(** The flag at an index of the Series. *)
Lemma volume_spike_nth volume multiplier window i :
  (i < List.length volume)%nat ->
  nth i (calculate_volume_spike volume multiplier window) false
  = if (window =? 0)%nat || (i + 1 <? window)%nat then false
    else Qlt_bool
           (Simulator.py_sum (Indicators.window volume i window)
            / Simulator.of_nat window * multiplier)
           (nth i volume 0).
Proof.
  intro Hi. unfold calculate_volume_spike.
  set (f := fun va : Q * cell =>
              cell_gt (Fin (fst va)) (cell_mul (snd va) (Fin multiplier))).
  change false with (f (0, NaN)) at 1.
  rewrite map_nth, combine_nth by now rewrite rolling_mean_length.
  rewrite rolling_mean_nth by assumption. unfold f. cbn [fst snd].
  destruct ((window =? 0)%nat || (i + 1 <? window)%nat); reflexivity.
Qed.

(** A row gives at most one signal, and none without a volume spike, an
    available RSI strictly between the two thresholds. *)
Lemma scalping_row_signal df fast slow rsi spike lo hi i :
  (List.length (MoreStrategies.scalping_row df fast slow rsi spike lo hi i)
   <= 1)%nat
  /\ forall s,
       In s (MoreStrategies.scalping_row df fast slow rsi spike lo hi i) ->
       nth i spike false = true
       /\ isna (nth i rsi NaN) = false
       /\ Simulator.rsi s = nth i rsi NaN
       /\ cell_gt (nth i rsi NaN) (Fin (inject_Z lo)) = true
       /\ cell_lt (nth i rsi NaN) (Fin (inject_Z hi)) = true.
Proof.
  unfold MoreStrategies.scalping_row.
  destruct (isna (nth i rsi NaN)) eqn:Ena; [split; [simpl; lia|intros s []]|].
  destruct (nth i spike false) eqn:Esp.
  2:{ rewrite !andb_false_r. split; [simpl; lia|intros s []]. }
  destruct (cell_gt (nth i rsi NaN) (Fin (inject_Z lo))) eqn:Elo.
  2:{ rewrite !andb_false_r. cbn [andb]. rewrite ?andb_false_r.
      split; [simpl; lia|intros s []]. }
  destruct (cell_lt (nth i rsi NaN) (Fin (inject_Z hi))) eqn:Ehi.
  2:{ rewrite !andb_false_r. cbn [andb]. rewrite ?andb_false_r.
      split; [simpl; lia|intros s []]. }
  rewrite !andb_true_r.
  destruct (Qle_bool _ _ && Qlt_bool _ _).
  - split; [simpl; lia|]. intros s [<-|[]]. auto.
  - destruct (Qle_bool _ _ && Qlt_bool _ _).
    + split; [simpl; lia|]. intros s [<-|[]]. auto.
    + split; [simpl; lia|intros s []].
Qed.

(** A run on at most one signal closes no trade. *)
Lemma simulate_single signals position_size :
  (List.length signals <= 1)%nat ->
  Simulator.simulate_trades signals position_size = [].
Proof.
  intro H. apply simulate_one_sided.
  destruct signals as [|s0 [|s1 rest]]; [left; intros s []| |simpl in H; lia].
  destruct (String.string_dec (Simulator.action s0) "BUY") as [Hb|Hb].
  - right. intros s [<-|[]] E. rewrite Hb in E. discriminate.
  - left. intros s [<-|[]]. exact Hb.
Qed.

End SpikeFacts.

(** The volume-spike flags are as many as the volumes; no flag is raised
    before [window] samples are there (nor for an empty window); and a
    raised flag at an index means that the volume there exceeds the
    multiplier times the mean of the last [window] volumes. *)
Theorem calculate_volume_spike_flags :
  forall (volume : list Q) (multiplier : Q) (window : nat),
    let spikes := Smoothing.calculate_volume_spike volume multiplier window in
    List.length spikes = List.length volume
    /\ (forall i, (i < List.length volume)%nat ->
                  window = 0%nat \/ (i + 1 < window)%nat ->
                  nth i spikes false = false)
    /\ (forall i, nth i spikes false = true ->
                  (1 <= window)%nat /\ (window <= i + 1)%nat
                  /\ (i < List.length volume)%nat
                  /\ Simulator.py_sum (Indicators.window volume i window)
                     / Simulator.of_nat window * multiplier
                     < nth i volume 0).
Proof.
  intros volume multiplier window spikes. subst spikes.
  split; [apply volume_spike_length|].
  assert (Hout : forall i, (List.length volume <= i)%nat ->
            nth i (Smoothing.calculate_volume_spike volume multiplier window)
              false = false)
    by (intros i Hi; apply nth_overflow; now rewrite volume_spike_length).
  split.
  - intros i Hi Hw. rewrite volume_spike_nth by assumption.
    destruct Hw as [->|Hw]; [reflexivity|].
    apply Nat.ltb_lt in Hw. now rewrite Hw, orb_true_r.
  - intros i Ht.
    destruct (Nat.ltb_spec i (List.length volume)) as [Hi|Hi];
      [|rewrite Hout in Ht by assumption; discriminate].
    rewrite volume_spike_nth in Ht by assumption.
    destruct (Nat.eqb_spec window 0); [discriminate|].
    destruct (Nat.ltb_spec (i + 1) window); [discriminate|].
    cbn [orb] in Ht. qbool. repeat split; auto; lia.
Qed.

(** The scalping evaluator needs a volume spike for every signal, and a
    spike needs 20 volumes: with at most 20 candles it generates at most
    one signal (at the twentieth candle), closes no trade and returns None,
    for every parameter tuple and position size. *)
Theorem run_scalping_backtest_short :
  forall (df : list Strategies.Candle) (coin : string)
         (fast_ema slow_ema rsi_period : nat)
         (rsi_oversold rsi_overbought : Z) (volume_multiplier : Q)
         (position_size : Q),
    (List.length df <= 20)%nat ->
    MoreStrategies.run_scalping_backtest df coin fast_ema slow_ema rsi_period
      rsi_oversold rsi_overbought volume_multiplier position_size = None.
Proof.
  intros df coin fast_ema slow_ema rsi_period lo hi m size Hlen.
  unfold MoreStrategies.run_scalping_backtest.
  destruct (Smoothing.calculate_ema (map Strategies.close df) fast_ema)
    as [fast|]; [|reflexivity].
  destruct (Smoothing.calculate_ema (map Strategies.close df) slow_ema)
    as [slow|]; [|reflexivity].
  set (rsi := Indicators.calculate_rsi (map Strategies.close df) rsi_period).
  set (spike := Smoothing.calculate_volume_spike
                  (map Strategies.volume df) m 20).
  assert (Hearly : forall i, (1 <= i)%nat -> (i < List.length df)%nat ->
            (i < 19)%nat ->
            MoreStrategies.scalping_row df fast slow rsi spike lo hi i = []).
  { intros i H1 Hi H19.
    destruct (scalping_row_signal df fast slow rsi spike lo hi i) as [_ Hs].
    destruct (MoreStrategies.scalping_row df fast slow rsi spike lo hi i)
      as [|s l]; [reflexivity|]. exfalso.
    destruct (Hs s (or_introl eq_refl)) as (Hsp & _).
    unfold spike in Hsp.
    rewrite volume_spike_nth in Hsp by (rewrite length_map; lia).
    replace (i + 1 <? 20)%nat with true in Hsp
      by (symmetry; apply Nat.ltb_lt; lia).
    discriminate. }
  rewrite simulate_single; [reflexivity|].
  unfold MoreStrategies.scalping_signals.
  destruct (Nat.eq_dec (List.length df) 20) as [E|E].
  - rewrite E. change (20 - 1)%nat with (18 + 1)%nat.
    rewrite seq_app, flat_map_app.
    rewrite (flat_map_nil _ (seq 1 18)).
    + cbn [seq flat_map app]. rewrite app_nil_r.
      apply (proj1 (scalping_row_signal df fast slow rsi spike lo hi 19)).
    + intros i Hi. apply in_seq in Hi. apply Hearly; lia.
  - rewrite flat_map_nil; [simpl; lia|].
    intros i Hi. apply in_seq in Hi. apply Hearly; lia.
Qed.

Lemma run_scalping_backtest_short_witness :
  MoreStrategies.run_scalping_backtest swing_candles "BTC" 9 21 14 30 70
    (3 # 2) 100 = None.
Proof.
  apply (run_scalping_backtest_short swing_candles "BTC" 9 21 14 30 70
           (3 # 2) 100).
  simpl. lia.
Defined.

(** ** The range evaluator *)

Section RangeFacts.
Import Simulator.

Variables (lo hi : cell) (position_size : Q).

(** A price inside the buy band, and a price that has left it. *)
Definition in_band (p : Q) : Prop :=
  cell_le lo (Fin p) = true /\ cell_le (Fin p) hi = true.

Definition off_band (p : Q) : Prop :=
  cell_gt (Fin p) hi = true \/ cell_lt (Fin p) lo = true.

(** The simulator's loop on the signals generated so far. *)
Definition replay (signals : list Signal) : list Trade * option Position :=
  fold_left (simulate_step position_size) signals ([], None).

Lemma replay_snoc signals s :
  replay (signals ++ [s]) = simulate_step position_size (replay signals) s.
Proof. unfold replay. rewrite fold_left_app. reflexivity. Qed.

Lemma nth_error_snoc {A} (l : list A) x k y :
  nth_error (l ++ [x]) k = Some y ->
  nth_error l k = Some y \/ (k = List.length l /\ y = x).
Proof.
  intro H. destruct (Nat.lt_ge_cases k (List.length l)) as [Hk|Hk].
  - left. now rewrite nth_error_app1 in H.
  - right. rewrite nth_error_app2 in H by assumption.
    destruct (k - List.length l)%nat as [|n] eqn:E.
    + simpl in H. injection H as <-. split; [lia|reflexivity].
    + simpl in H. destruct n; discriminate.
Qed.

(** The invariant of the loop of [run_range_backtest], on its two variables
    and on what the simulator makes of the signals: the flag [in_range]
    says that the simulator holds a position, bought inside the band. *)
Record range_inv (st : list Signal * bool) : Prop := {
  ri_alt : forall k s, nth_error (fst st) k = Some s ->
             action s = if Nat.even k then "BUY"%string else "SELL"%string;
  ri_buy : forall s, In s (fst st) -> action s = "BUY"%string ->
             in_band (price s);
  ri_sell : forall s, In s (fst st) -> action s = "SELL"%string ->
              off_band (price s);
  ri_len : List.length (fst st)
           = (2 * List.length (fst (replay (fst st)))
              + (if snd st then 1 else 0))%nat;
  ri_pos : match snd (replay (fst st)) with
           | Some p => snd st = true /\ in_band (entry_price p)
           | None => snd st = false
           end;
  ri_trades : forall t, In t (fst (replay (fst st))) ->
                in_band (t_entry_price t) /\ off_band (exit_price t)
}.

Lemma range_inv_start : range_inv ([], false).
Proof.
  constructor; cbn [fst snd replay fold_left List.length]; try reflexivity.
  - intros k s H. destruct k; discriminate.
  - intros s [].
  - intros s [].
  - intros t [].
Qed.

Lemma range_sell_inv signals row :
  range_inv (signals, true) ->
  off_band (Strategies.close row) ->
  range_inv
    (signals ++ [MoreStrategies.signal_at row (Fin 0) "SELL"], false).
Proof.
  intros [Halt Hbuy Hsell Hlen Hpos Htr] Hoff. cbn [fst snd] in *.
  remember (replay signals) as r eqn:Er. destruct r as [trades pos].
  cbn [fst snd] in *.
  destruct pos as [p|]; [|discriminate]. destruct Hpos as [_ Hp].
  constructor; cbn [fst snd]; rewrite ?replay_snoc, <- ?Er;
    rewrite ?step_sell_open by reflexivity; cbn [fst snd].
  - intros k s Hk. apply nth_error_snoc in Hk as [Hk|[Ek Es]];
      [now apply Halt|].
    rewrite Es, Ek, Hlen, Nat.add_comm, Nat.even_add_mul_2. reflexivity.
  - intros s Hin Ha. apply in_app_or in Hin as [Hin|[<-|[]]];
      [now apply Hbuy|discriminate].
  - intros s Hin Ha. apply in_app_or in Hin as [Hin|[<-|[]]];
      [now apply Hsell|exact Hoff].
  - rewrite !length_app. cbn [List.length]. lia.
  - reflexivity.
  - intros t Hin. apply in_app_or in Hin as [Hin|[<-|[]]];
      [now apply Htr|]. split; [exact Hp|exact Hoff].
Qed.

Lemma range_step_inv st row :
  range_inv st -> range_inv (MoreStrategies.range_step lo hi st row).
Proof.
  destruct st as [signals in_range]. intro Hinv.
  unfold MoreStrategies.range_step.
  destruct (negb in_range
            && (cell_le lo (Fin (Strategies.close row))
                && cell_le (Fin (Strategies.close row)) hi)) eqn:Eb.
  - apply andb_prop in Eb as [Ein Eb]. apply andb_prop in Eb as [E1 E2].
    apply negb_true_iff in Ein. subst in_range.
    destruct Hinv as [Halt Hbuy Hsell Hlen Hpos Htr]. cbn [fst snd] in *.
    remember (replay signals) as r eqn:Er. destruct r as [trades pos].
    cbn [fst snd] in *.
    destruct pos as [p|]; [destruct Hpos; discriminate|].
    constructor; cbn [fst snd]; rewrite ?replay_snoc, <- ?Er;
      rewrite ?step_buy_flat by reflexivity; cbn [fst snd].
    + intros k s Hk. apply nth_error_snoc in Hk as [Hk|[Ek Es]];
        [now apply Halt|].
      rewrite Es, Ek, Hlen, Nat.add_comm, Nat.even_add_mul_2. reflexivity.
    + intros s Hin Ha. apply in_app_or in Hin as [Hin|[<-|[]]];
        [now apply Hbuy|split; assumption].
    + intros s Hin Ha. apply in_app_or in Hin as [Hin|[<-|[]]];
        [now apply Hsell|discriminate].
    + rewrite length_app. cbn [List.length]. lia.
    + split; [reflexivity|split; assumption].
    + exact Htr.
  - destruct (in_range
              && cell_gt (Fin (Strategies.close row)) hi) eqn:Eu.
    + apply andb_prop in Eu as [-> Eu].
      apply range_sell_inv; [exact Hinv|now left].
    + destruct (in_range
                && cell_lt (Fin (Strategies.close row)) lo) eqn:Ed.
      * apply andb_prop in Ed as [-> Ed].
        apply range_sell_inv; [exact Hinv|now right].
      * exact Hinv.
Qed.

Lemma range_loop_inv df : forall st,
  range_inv st ->
  range_inv (fold_left (MoreStrategies.range_step lo hi) df st).
Proof.
  induction df as [|row df IH]; intros st H; [exact H|].
  cbn [fold_left]. apply IH, range_step_inv, H.
Qed.

End RangeFacts.

(** The band of [run_range_backtest] on candles of positive lows. *)
Lemma range_band_positive df long_offset tolerance :
  df <> [] ->
  (forall c, In c df -> 0 < Strategies.low c) ->
  -(100) < long_offset ->
  exists l h, MoreStrategies.buy_range_low df long_offset = Fin l
              /\ MoreStrategies.buy_range_high df long_offset tolerance
                 = Fin h
              /\ 0 < l.
Proof.
  intros Hne Hlow Hoff.
  unfold MoreStrategies.buy_range_low, MoreStrategies.buy_range_high,
    MoreStrategies.series_min.
  destruct df as [|c df]; [contradiction|]. cbn [map Smoothing.cell_mul].
  eexists _, _. split; [reflexivity|]. split; [reflexivity|].
  destruct (min_list_spec (map Strategies.low df) (Strategies.low c))
    as [Hin _].
  change (Strategies.low c :: map Strategies.low df)
    with (map Strategies.low (c :: df)) in Hin.
  apply in_map_iff in Hin as (c' & E & Hc'). rewrite <- E.
  apply Qmult_lt_0_compat; [now apply Hlow|].
  assert (long_offset / 100 == long_offset * (1 # 100)) by (field).
  lra.
Qed.

(** The signals of the range evaluator alternate, BUY first, so the
    simulator ignores none of them: it closes one trade for every two
    signals.  Every BUY is at a close inside the buy band, every SELL at a
    close outside, and so every trade enters inside the band and exits
    outside it. *)
Theorem run_range_backtest_round_trips :
  forall (df : list Strategies.Candle) (long_offset tolerance : Q)
         (position_size : Q),
    let lo := MoreStrategies.buy_range_low df long_offset in
    let hi := MoreStrategies.buy_range_high df long_offset tolerance in
    let signals := MoreStrategies.range_signals df long_offset tolerance in
    let trades := Simulator.simulate_trades signals position_size in
    (forall k s, nth_error signals k = Some s ->
       Simulator.action s
       = if Nat.even k then "BUY"%string else "SELL"%string)
    /\ List.length trades = (List.length signals / 2)%nat
    /\ (forall s, In s signals ->
          exists row, In row df
                      /\ Simulator.price s = Strategies.close row
                      /\ Simulator.timestamp s = Strategies.timestamp row)
    /\ (forall s, In s signals -> Simulator.action s = "BUY"%string ->
          in_band lo hi (Simulator.price s))
    /\ (forall s, In s signals -> Simulator.action s = "SELL"%string ->
          off_band lo hi (Simulator.price s))
    /\ (forall t, In t trades ->
          in_band lo hi (Simulator.t_entry_price t)
          /\ off_band lo hi (Simulator.exit_price t)).
Proof.
  intros df long_offset tolerance position_size lo hi signals trades.
  pose proof (range_loop_inv lo hi position_size df _
                (range_inv_start lo hi position_size)) as Hinv.
  destruct Hinv as [Halt Hbuy Hsell Hlen Hpos Htr].
  fold lo hi in Halt, Hbuy, Hsell, Hlen, Hpos, Htr.
  split; [exact Halt|]. split.
  { subst trades. unfold Simulator.simulate_trades.
    unfold replay in Hlen. subst signals.
    unfold MoreStrategies.range_signals. fold lo hi.
    rewrite Hlen.
    destruct (snd (fold_left (MoreStrategies.range_step lo hi) df
                     ([], false))).
    - apply (Nat.div_unique _ 2 _ 1); lia.
    - apply (Nat.div_unique _ 2 _ 0); lia. }
  split; [|split; [exact Hbuy|split; [exact Hsell|exact Htr]]].
  subst signals. unfold MoreStrategies.range_signals. fold lo hi.
  assert (Hrows : forall rows st,
            (forall s, In s (fst st) ->
               exists row, In row df
                 /\ Simulator.price s = Strategies.close row
                 /\ Simulator.timestamp s = Strategies.timestamp row) ->
            incl rows df ->
            forall s,
              In s (fst (fold_left (MoreStrategies.range_step lo hi)
                           rows st)) ->
              exists row, In row df
                /\ Simulator.price s = Strategies.close row
                /\ Simulator.timestamp s = Strategies.timestamp row).
  { induction rows as [|row rows IH]; intros st Hst Hincl; [exact Hst|].
    cbn [fold_left]. apply IH; [|intros x Hx; apply Hincl; now right].
    destruct st as [sigs flag]. unfold MoreStrategies.range_step.
    assert (Hrow : In row df) by (apply Hincl; now left).
    repeat match goal with
           | |- context [if ?b then _ else _] => destruct b
           end; cbn [fst]; intros s Hin;
      try (apply in_app_or in Hin as [Hin|[<-|[]]];
           [now apply Hst|exists row; repeat split; assumption]);
      now apply Hst. }
  apply (Hrows df ([], false)); [intros s []|apply incl_refl].
Qed.

(** Two candles: a close at the low, then a close 10 % above it. *)
Definition breakout_candles : list Strategies.Candle :=
  [Strategies.mkCandle 1 100 101 100 100 1;
   Strategies.mkCandle 2 100 111 100 110 1].

(** On candles of positive lows, with a positive position size and a long
    offset above -100 %, a trade of the range evaluator wins exactly when
    it exits above the buy band and loses exactly when it exits below it;
    no trade breaks even. *)
Theorem run_range_backtest_breakout :
  forall (df : list Strategies.Candle) (long_offset tolerance : Q)
         (position_size : Q),
    0 < position_size ->
    (forall c, In c df -> 0 < Strategies.low c) ->
    -(100) < long_offset ->
    forall t,
      In t (Simulator.simulate_trades
              (MoreStrategies.range_signals df long_offset tolerance)
              position_size) ->
      (0 < Simulator.profit_usd t
       <-> cell_gt (Fin (Simulator.exit_price t))
             (MoreStrategies.buy_range_high df long_offset tolerance) = true)
      /\ (Simulator.profit_usd t < 0
          <-> cell_lt (Fin (Simulator.exit_price t))
                (MoreStrategies.buy_range_low df long_offset) = true)
      /\ ~ Simulator.profit_usd t == 0.
Proof.
  intros df long_offset tolerance position_size Hsize Hlow Hoff t Hin.
  assert (Hne : df <> []) by (intros ->; exact Hin).
  destruct (range_band_positive df long_offset tolerance Hne Hlow Hoff)
    as (l & h & El & Eh & Hl).
  pose proof (range_loop_inv
                (MoreStrategies.buy_range_low df long_offset)
                (MoreStrategies.buy_range_high df long_offset tolerance)
                position_size df _
                (range_inv_start _ _ position_size)) as Hinv.
  destruct (ri_trades _ _ _ _ Hinv t Hin) as [[Hin1 Hin2] Hout].
  destruct (simulate_loop_discipline position_size
              (MoreStrategies.range_signals df long_offset tolerance)
              [] None (sized_none position_size)) as (ts & E & D).
  unfold Simulator.simulate_trades in Hin. rewrite E in Hin. simpl in Hin.
  destruct (discipline_prices _ _ _ _ D t Hin) as (_ & _ & Hpnl & Hprofit).
  unfold off_band in Hout. rewrite El in *. rewrite Eh in *.
  unfold cell_gt in *. cbn [cell_le cell_lt] in *. qbool.
  destruct (profit_sign (Simulator.t_entry_price t) (Simulator.exit_price t)
              position_size (Simulator.pnl_pct t) (Simulator.profit_usd t))
    as [[Hw1 Hw2] [Hz1 Hz2]]; auto; [lra|].
  assert (Hcases : h < Simulator.exit_price t \/ Simulator.exit_price t < l).
  { destruct Hout as [H|H]; qbool; auto. }
  assert (Hloss : Simulator.exit_price t < Simulator.t_entry_price t ->
                  Simulator.profit_usd t < 0).
  { intro Hx.
    destruct (Qlt_le_dec (Simulator.profit_usd t) 0) as [|Hge]; [assumption|].
    exfalso. destruct (Qle_lt_or_eq _ _ Hge) as [Hp|Hp].
    - apply Hw1 in Hp. lra.
    - symmetry in Hp. apply Hz1 in Hp. lra. }
  split; [|split].
  - split; intro H.
    + apply Qlt_bool_iff. apply Hw1 in H. lra.
    + apply Qlt_bool_iff in H. apply Hw2. lra.
  - split; intro H.
    + apply Qlt_bool_iff. destruct Hcases as [Hc|Hc]; [|exact Hc].
      exfalso. assert (0 < Simulator.profit_usd t) by (apply Hw2; lra). lra.
    + apply Qlt_bool_iff in H. apply Hloss. lra.
  - intro H. apply Hz1 in H. lra.
Qed.

Lemma run_range_backtest_breakout_witness :
  let trades :=
    Simulator.simulate_trades
      (MoreStrategies.range_signals breakout_candles 0 5) 100 in
  List.length trades = 1%nat
  /\ Forall (fun t =>
       0 < Simulator.profit_usd t
       <-> cell_gt (Fin (Simulator.exit_price t))
             (MoreStrategies.buy_range_high breakout_candles 0 5) = true)
       trades.
Proof.
  split; [reflexivity|].
  apply Forall_forall. intros t Hin.
  refine (proj1 (run_range_backtest_breakout breakout_candles 0 5 100
                   _ _ _ t Hin)).
  - reflexivity.
  - intros c [<-|[<-|[]]]; reflexivity.
  - reflexivity.
Defined.

(** ** What the optimisation shows and what it saves *)

Section ShownAndSaved.
Import Strategies Results.

Lemma dict_set_entries (d : dict) k v k0 v0 :
  In (k0, v0) (dict_set d k v) -> In (k0, v0) d \/ (k0, v0) = (k, v).
Proof.
  induction d as [|[k' v'] d IH]; simpl.
  - intros [H|[]]. now right.
  - destruct (String.eqb_spec k' k) as [->|Hne]; simpl.
    + intros [H|H]; [now right|left; now right].
    + intros [H|H]; [left; now left|].
      destruct (IH H); [left; now right|now right].
Qed.

Lemma sorted_desc_snoc l r :
  sorted_desc l ->
  (forall v, In v l -> total_profit_usd r <= total_profit_usd v) ->
  sorted_desc (l ++ [r]).
Proof.
  unfold sorted_desc. induction l as [|x l IH]; intros Hs Hle; simpl.
  - repeat constructor.
  - inversion Hs as [|? ? Hs' Hall]; subst. constructor.
    + apply IH; [assumption|]. intros v Hv. apply Hle. now right.
    + apply Forall_app. split; [assumption|].
      constructor; [|constructor]. apply Hle. now left.
Qed.

(** On a list sorted by profit, largest first, the strict comparison of the
    grouping loop never replaces a row: the loop keeps the first row of
    every coin, as the first loop of [save_best_results] does, and the rows
    it keeps are in the order of their profits. *)
Lemma loops_agree_on_sorted rest :
  forall d,
    sorted_desc rest ->
    sorted_desc (dict_values d) ->
    (forall k v r, In (k, v) d -> In r rest ->
                   total_profit_usd r <= total_profit_usd v) ->
    fold_left group_step rest d = fold_left first_step rest d
    /\ sorted_desc (dict_values (fold_left first_step rest d)).
Proof.
  induction rest as [|r rest IH]; intros d Hs Hd Hle; [now split|].
  cbn [fold_left].
  assert (E : group_step d r = first_step d r).
  { unfold group_step, first_step.
    destruct (dict_get d (coin r)) as [best|] eqn:Eg; [|reflexivity].
    apply dict_get_in in Eg.
    assert (H : total_profit_usd r <= total_profit_usd best)
      by (apply (Hle _ _ _ Eg); now left).
    apply Qlt_bool_false in H. now rewrite H. }
  rewrite E. unfold sorted_desc in Hs.
  inversion Hs as [|? ? Hs' Hall]; subst. rewrite Forall_forall in Hall.
  apply IH; [exact Hs'| |].
  - unfold first_step.
    destruct (dict_get d (coin r)) as [best|] eqn:Eg; [exact Hd|].
    apply dict_get_none in Eg. rewrite dict_set_absent by assumption.
    unfold dict_values. rewrite map_app. cbn [map snd].
    apply sorted_desc_snoc; [exact Hd|].
    intros v Hv. apply in_map_iff in Hv as ([k v'] & <- & Hin).
    apply (Hle k v' r Hin). now left.
  - intros k v r' Hin Hr'. unfold first_step in Hin.
    destruct (dict_get d (coin r)) as [best|] eqn:Eg.
    + apply (Hle k v r' Hin). now right.
    + apply dict_set_entries in Hin as [Hin|Hin].
      * apply (Hle k v r' Hin). now right.
      * injection Hin as _ ->. now apply Hall.
Qed.

Lemma shown_is_saved (all_results : list BacktestResult) :
  group_best_results_by_coin (sort_by_profit_desc all_results)
  = dict_values (fold_left first_step (sort_by_profit_desc all_results) []).
Proof.
  unfold group_best_results_by_coin.
  destruct (loops_agree_on_sorted (sort_by_profit_desc all_results) [])
    as [E Hs].
  - apply sort_sorted.
  - constructor.
  - intros k v r [].
  - rewrite E. now apply sort_of_sorted.
Qed.

(** The first of the rows kept from a sorted list has the largest profit of
    the whole list. *)
Lemma shown_head_is_best (all_results : list BacktestResult) best rest :
  dict_values (fold_left first_step (sort_by_profit_desc all_results) [])
  = best :: rest ->
  forall r, In r all_results -> total_profit_usd r <= total_profit_usd best.
Proof.
  intros Eshown r Hr.
  set (sorted := sort_by_profit_desc all_results) in *.
  assert (Hsorted : sorted_desc sorted) by apply sort_sorted.
  assert (Hin : In r sorted)
    by (apply (Permutation_in _ (Permutation_sym (sort_perm all_results)));
        exact Hr).
  pose proof (first_loop_firsts sorted [] [] firsts_nil) as F. simpl in F.
  destruct (loops_agree_on_sorted sorted []) as [_ Hs];
    [exact Hsorted|constructor|intros k v r' []|].
  set (d := fold_left first_step sorted []) in *.
  pose proof (f_all _ _ F r Hin) as Hk.
  apply in_map_iff in Hk as ([k v] & Ek & Hkv). simpl in Ek. subst k.
  destruct (f_first _ _ F _ _ Hkv) as [Hc Hfirst].
  destruct (first_of_coin_sorted _ _ Hsorted Hfirst)
    as (pre & post & Epp & Hpre & Hpost).
  assert (Hrv : total_profit_usd r <= total_profit_usd v).
  { rewrite Epp in Hin. apply in_app_or in Hin as [Hin|[<-|Hin]].
    - apply Qlt_le_weak. apply Hpre; auto.
    - apply Qle_refl.
    - apply Hpost; auto. }
  assert (Hv : In v (best :: rest)).
  { rewrite <- Eshown. unfold dict_values. apply in_map_iff.
    exists (coin r, v). split; [reflexivity|exact Hkv]. }
  rewrite Eshown in Hs. unfold sorted_desc in Hs.
  inversion Hs as [|? ? _ Hall]; subst. rewrite Forall_forall in Hall.
  destruct Hv as [<-|Hv]; [exact Hrv|].
  apply (Qle_trans _ _ _ Hrv). now apply Hall.
Qed.

End ShownAndSaved.

(** When neither the directory creation nor a write fails, the documents
    [_execute_optimization] saves carry, row for row and in the same order,
    the rows its result table shows ([group_best_results_by_coin] on the
    same sorted list), and the first of them, the "best overall" row, has
    the largest total profit of all the rows of the run. *)
Theorem optimization_saves_what_it_shows :
  forall (env : Results.Env) (all_results : list Strategies.BacktestResult)
         (signal_name timerange : string) (position_size : Q)
         (w : Results.World),
    Results.makedirs_fails env = false ->
    (forall p, Results.write_fails env p = false) ->
    let run :=
      Results.execute_optimization_save env all_results signal_name
        timerange position_size w in
    let shown :=
      Results.group_best_results_by_coin
        (Results.sort_by_profit_desc all_results) in
    (exists docs,
       Results.files (snd run) = Results.files w ++ docs
       /\ Forall2 carries (map snd docs) shown)
    /\ (forall best rest, shown = best :: rest ->
          forall r, In r all_results ->
            Strategies.total_profit_usd r <= Strategies.total_profit_usd best)
    /\ (shown = [] <-> all_results = []).
Proof.
  intros env all_results signal_name timerange position_size w Hmk Hwr
    run shown.
  subst shown. rewrite shown_is_saved.
  set (sorted := Results.sort_by_profit_desc all_results).
  pose proof (first_loop_firsts sorted [] [] firsts_nil) as F. simpl in F.
  split; [|split].
  - subst run. unfold Results.execute_optimization_save. fold sorted.
    set (d := fold_left Results.first_step sorted []) in *.
    assert (Hcoin : forall k v, In (k, v) d -> Strategies.coin v = k)
      by (intros k v Hin; now destruct (f_first _ _ F k v Hin)).
    unfold Results.save_best_results, Results.try_except, Results.bind,
      Results.makedirs.
    change (fold_left Results.first_step sorted []) with d.
    rewrite Hmk. cbn [Results.read_clock].
    set (w1 := Results.mkWorld _ _ _).
    set (stamp := Results.now_stamp env (Results.clock_reads w)) in *.
    destruct (for_each_save_outcome env signal_name timerange position_size
                stamp d w1 Hcoin)
      as (kept & skipped & docs & Hd & Hf & Hc & Hp & Hor & Hskip & _).
    cbv zeta in Hf, Hor.
    destruct (Results.for_each d _ w1) as [res w2] eqn:E.
    cbn [fst snd] in Hf, Hor.
    assert (Hnone : skipped = []).
    { destruct skipped as [|item rest]; [reflexivity|].
      pose proof (Hskip item rest eq_refl) as Hfail.
      rewrite Hwr in Hfail. discriminate. }
    subst skipped. rewrite app_nil_r in Hd. subst kept.
    exists docs. split; [|exact Hc].
    destruct Hor as [-> | ->]; cbn; rewrite Hf; reflexivity.
  - intros best rest E r Hr.
    exact (shown_head_is_best all_results best rest E r Hr).
  - split; intro H.
    + destruct all_results as [|r l]; [reflexivity|]. exfalso.
      assert (Hin : In r sorted).
      { apply (Permutation_in _
                 (Permutation_sym (sort_perm (r :: l)))). now left. }
      pose proof (f_all _ _ F r Hin) as Hk.
      unfold Results.dict_values in H. apply map_eq_nil in H.
      rewrite H in Hk. exact Hk.
    + subst sorted. rewrite H. reflexivity.
Qed.

Lemma optimization_saves_what_it_shows_witness :
  let rows := [sample_row "BTC" 1; sample_row "ETH" 5; sample_row "BTC" 3] in
  let run :=
    Results.execute_optimization_save quiet_env rows "rsi-1min" "24h" 100
      fresh_world in
  exists docs,
    Results.files (snd run) = Results.files fresh_world ++ docs
    /\ Forall2 carries (map snd docs)
         (Results.group_best_results_by_coin
            (Results.sort_by_profit_desc rows)).
Proof.
  refine (proj1 (optimization_saves_what_it_shows quiet_env
                   [sample_row "BTC" 1; sample_row "ETH" 5;
                    sample_row "BTC" 3]
                   "rsi-1min" "24h" 100 fresh_world _ _)).
  - reflexivity.
  - intro p. reflexivity.
Defined.

(** ** The Bollinger decision, live and in the evaluator *)

Section BollingerDecision.

(** The clamp to [0, 1] does not move a position across 0.2 or 0.8. *)
Lemma clamp_decides q :
  Qle_bool (py_max 0.0 (py_min 1.0 q)) 0.2 = Qle_bool q 0.2
  /\ Qle_bool 0.8 (py_max 0.0 (py_min 1.0 q)) = Qle_bool 0.8 q.
Proof.
  unfold py_max, py_min.
  destruct (Qlt_bool q 1.0) eqn:E1; destruct (Qlt_bool 0.0 _) eqn:E2;
    qbool; split;
    match goal with
    | |- ?a = ?b =>
        destruct a eqn:Ea; destruct b eqn:Eb; try reflexivity; qbool; lra
    end.
Qed.

Lemma bb_positions_decide price upper lower middle :
  Qle_bool (BollingerBands30Min._calculate_bb_position price upper lower
              middle) 0.2
  = Qle_bool (Strategies.backtest_bb_position price upper lower) 0.2
  /\ Qle_bool 0.8
       (BollingerBands30Min._calculate_bb_position price upper lower middle)
     = Qle_bool 0.8 (Strategies.backtest_bb_position price upper lower).
Proof.
  unfold BollingerBands30Min._calculate_bb_position,
    Strategies.backtest_bb_position.
  destruct (Qeq_bool upper lower); cbn [negb];
    [split; reflexivity|apply clamp_decides].
Qed.

End BollingerDecision.


(** C7, as the code has it.  The band position of the live generator is
    the quotient (price - lower) / (upper - lower) clamped to [0, 1], exactly
    0.5 on a degenerate band, and its divisor is never zero.  The position
    the backtest evaluator computes inline is the same quotient without the
    clamp (exactly 0.5 on a degenerate band, no zero divisor either): it is
    the live position whenever it lies in [0, 1], and the two tests it feeds,
    against 0.2 and against 0.8, come out as with the clamped position, so
    the evaluator decides every row as the live generator does. *)
Theorem bollinger_band_position_paths :
  forall (price upper lower middle : Q),
    let live :=
      BollingerBands30Min._calculate_bb_position price upper lower middle in
    let inline := Strategies.backtest_bb_position price upper lower in
    let quotient := (price - lower) / (upper - lower) in
    (upper == lower -> live = 0.5 /\ inline = 0.5)
    /\ (~ upper == lower ->
        ~ upper - lower == 0
        /\ inline = quotient
        /\ (quotient <= 0 -> live == 0)
        /\ (0 <= quotient <= 1 -> live == quotient)
        /\ (1 <= quotient -> live == 1))
    /\ 0 <= live <= 1
    /\ (0 <= inline <= 1 -> live == inline)
    /\ Qle_bool live 0.2 = Qle_bool inline 0.2
    /\ Qle_bool 0.8 live = Qle_bool 0.8 inline
    /\ (forall (touch_threshold : Q) (bandwidth : cell),
          option_map fst
            (BollingerBands30Min.generate_signal touch_threshold price
               (Some middle) (Some upper) (Some lower) bandwidth)
          = Some (match
                    MoreStrategies.bollinger_row_action price upper lower
                      touch_threshold
                  with
                  | Some action => action
                  | None => "HOLD"%string
                  end)).
Proof.
  intros price upper lower middle live inline quotient.
  destruct (bb_position_cases price upper lower middle)
    as (Hdeg & Hcases & Hrange).
  cbv zeta in Hdeg, Hcases, Hrange.
  fold live quotient in Hdeg, Hcases, Hrange.
  destruct (bb_positions_decide price upper lower middle) as [Hlo Hhi].
  fold live inline in Hlo, Hhi.
  assert (Hinline : (upper == lower -> inline = 0.5)
                    /\ (~ upper == lower -> inline = quotient)).
  { subst inline quotient. unfold Strategies.backtest_bb_position.
    destruct (Qeq_bool upper lower) eqn:E; qbool; cbn [negb];
      split; intro H; try reflexivity; contradiction. }
  destruct Hinline as [Hi1 Hi2].
  split; [intro E; split; [now apply Hdeg|now apply Hi1]|].
  split.
  { intro Hne. destruct (Hcases Hne) as (Hd & H1 & H2 & H3).
    split; [exact Hd|]. split; [now apply Hi2|]. auto. }
  split; [exact Hrange|]. split.
  { intro Hin. destruct (Qeq_dec upper lower) as [E|Hne].
    - rewrite (Hdeg E), (Hi1 E). reflexivity.
    - destruct (Hcases Hne) as (_ & _ & H2 & _).
      rewrite (Hi2 Hne) in *. now apply H2. }
  split; [exact Hlo|]. split; [exact Hhi|].
  intros thr bandwidth.
  unfold BollingerBands30Min.generate_signal,
    MoreStrategies.bollinger_row_action. cbv zeta.
  fold live inline. rewrite Hlo, Hhi. cbn [option_map fst].
  destruct (Qle_bool inline 0.2 || _); [reflexivity|].
  destruct (Qle_bool 0.8 inline || _); reflexivity.
Qed.

(** ** Pivots, clusters and levels of the Support/Resistance generator *)

Section PivotFacts.
Import SupportResistanceLevels.

(** The range of the inner loop. *)
Lemma in_pivot_window window i j :
  In j (seq (i - window) (i + window + 1 - (i - window)))
  <-> (i - window <= j /\ j <= i + window)%nat.
Proof. rewrite in_seq. lia. Qed.

Lemma is_resistance_spec highs window i :
  is_resistance highs window i = true
  <-> forall j, (i - window <= j /\ j <= i + window)%nat -> j <> i ->
                nth j highs 0 < nth i highs 0.
Proof.
  unfold is_resistance. rewrite negb_true_iff. split.
  - intros Hn j Hj Hne.
    destruct (Qlt_le_dec (nth j highs 0) (nth i highs 0)) as [|Hle];
      [assumption|].
    exfalso. rewrite <- not_true_iff_false in Hn. apply Hn.
    apply existsb_exists. exists j. split; [now apply in_pivot_window|].
    apply andb_true_iff. split.
    + now apply negb_true_iff, Nat.eqb_neq.
    + now apply Qle_bool_iff.
  - intro Hall. apply not_true_iff_false. intro E.
    apply existsb_exists in E as (j & Hj & Hf).
    apply in_pivot_window in Hj. apply andb_prop in Hf as [Hne Hle].
    apply negb_true_iff, Nat.eqb_neq in Hne. apply Qle_bool_iff in Hle.
    specialize (Hall j Hj Hne). lra.
Qed.

Lemma is_support_spec lows window i :
  is_support lows window i = true
  <-> forall j, (i - window <= j /\ j <= i + window)%nat -> j <> i ->
                nth i lows 0 < nth j lows 0.
Proof.
  unfold is_support. rewrite negb_true_iff. split.
  - intros Hn j Hj Hne.
    destruct (Qlt_le_dec (nth i lows 0) (nth j lows 0)) as [|Hle];
      [assumption|].
    exfalso. rewrite <- not_true_iff_false in Hn. apply Hn.
    apply existsb_exists. exists j. split; [now apply in_pivot_window|].
    apply andb_true_iff. split.
    + now apply negb_true_iff, Nat.eqb_neq.
    + now apply Qle_bool_iff.
  - intro Hall. apply not_true_iff_false. intro E.
    apply existsb_exists in E as (j & Hj & Hf).
    apply in_pivot_window in Hj. apply andb_prop in Hf as [Hne Hle].
    apply negb_true_iff, Nat.eqb_neq in Hne. apply Qle_bool_iff in Hle.
    specialize (Hall j Hj Hne). lra.
Qed.

(** The loop collects, in order, the highs at the indices that pass the
    resistance test and the lows at the indices that pass the support
    test. *)
Lemma pivot_loop df window js :
  forall st,
    fold_left (pivot_step df window) js st
    = (fst st
         ++ map (fun i => nth i (map Strategies.high df) 0)
              (filter (is_resistance (map Strategies.high df) window) js),
       snd st
         ++ map (fun i => nth i (map Strategies.low df) 0)
              (filter (is_support (map Strategies.low df) window) js)).
Proof.
  induction js as [|i js IH]; intros [highs lows].
  - simpl. now rewrite !app_nil_r.
  - cbn [fold_left]. rewrite IH. unfold pivot_step. cbn [filter].
    destruct (is_resistance _ window i), (is_support _ window i);
      cbn [fst snd map]; rewrite <- ?app_assoc; reflexivity.
Qed.

Lemma find_pivot_points_filter df window :
  _find_pivot_points df window
  = (map (fun i => nth i (map Strategies.high df) 0)
       (filter (is_resistance (map Strategies.high df) window)
          (seq window (List.length df - window - window))),
     map (fun i => nth i (map Strategies.low df) 0)
       (filter (is_support (map Strategies.low df) window)
          (seq window (List.length df - window - window)))).
Proof. unfold _find_pivot_points. now rewrite pivot_loop. Qed.

(** A series that never falls from one sample to the next, or never
    rises. *)
Definition never_falls (xs : list Q) : Prop :=
  forall i, (S i < List.length xs)%nat -> nth i xs 0 <= nth (S i) xs 0.

Definition never_rises (xs : list Q) : Prop :=
  forall i, (S i < List.length xs)%nat -> nth (S i) xs 0 <= nth i xs 0.

Definition trending (xs : list Q) : Prop := never_falls xs \/ never_rises xs.

Lemma trending_no_resistance xs window i :
  (1 <= window)%nat -> (window <= i)%nat ->
  (i + window < List.length xs)%nat ->
  trending xs -> is_resistance xs window i = false.
Proof.
  intros Hw Hi Hlen Ht. apply not_true_iff_false. intro E.
  rewrite is_resistance_spec in E. destruct Ht as [Hup|Hdown].
  - assert (nth (S i) xs 0 < nth i xs 0) by (apply E; lia).
    assert (nth i xs 0 <= nth (S i) xs 0) by (apply Hup; lia). lra.
  - destruct i as [|i]; [lia|].
    assert (nth i xs 0 < nth (S i) xs 0) by (apply E; lia).
    assert (nth (S i) xs 0 <= nth i xs 0) by (apply Hdown; lia). lra.
Qed.

Lemma trending_no_support xs window i :
  (1 <= window)%nat -> (window <= i)%nat ->
  (i + window < List.length xs)%nat ->
  trending xs -> is_support xs window i = false.
Proof.
  intros Hw Hi Hlen Ht. apply not_true_iff_false. intro E.
  rewrite is_support_spec in E. destruct Ht as [Hup|Hdown].
  - destruct i as [|i]; [lia|].
    assert (nth (S i) xs 0 < nth i xs 0) by (apply E; lia).
    assert (nth i xs 0 <= nth (S i) xs 0) by (apply Hup; lia). lra.
  - assert (nth i xs 0 < nth (S i) xs 0) by (apply E; lia).
    assert (nth (S i) xs 0 <= nth i xs 0) by (apply Hdown; lia). lra.
Qed.

Lemma filter_none {A} (f : A -> bool) l :
  (forall x, In x l -> f x = false) -> filter f l = [].
Proof.
  induction l as [|x l IH]; intro H; simpl; [reflexivity|].
  rewrite (H x) by now left. apply IH. intros; apply H; now right.
Qed.

Lemma trending_no_pivots df window :
  (1 <= window)%nat ->
  (trending (map Strategies.high df) ->
   fst (_find_pivot_points df window) = [])
  /\ (trending (map Strategies.low df) ->
      snd (_find_pivot_points df window) = []).
Proof.
  intro Hw. rewrite find_pivot_points_filter. cbn [fst snd].
  split; intro Ht; rewrite filter_none; try reflexivity;
    intros i Hi; apply in_seq in Hi;
    [apply trending_no_resistance|apply trending_no_support];
    auto; try rewrite length_map; lia.
Qed.

Lemma short_no_pivots df window :
  (List.length df <= window + window)%nat ->
  _find_pivot_points df window = ([], []).
Proof.
  intro H. unfold _find_pivot_points.
  replace (List.length df - window - window)%nat with 0%nat by lia.
  reflexivity.
Qed.

End PivotFacts.

(** [_find_pivot_points] returns, in candle order, exactly the highs that
    are strictly above every other high within [window] candles on either
    side, and the lows strictly below every other low there, of the candles
    that have [window] candles on both sides; so at most
    [len(df) - 2 * window] of each, none on [2 * window] candles or fewer,
    and for a window of at least 1 no resistance pivot when the highs never
    fall or never rise, no support pivot when the lows do. *)
Theorem find_pivot_points_local_extrema :
  forall (df : list Strategies.Candle) (window : nat),
    let highs := map Strategies.high df in
    let lows := map Strategies.low df in
    let pivots := SupportResistanceLevels._find_pivot_points df window in
    (forall h, In h (fst pivots) <->
       exists i, (window <= i)%nat /\ (i + window < List.length df)%nat
         /\ h = nth i highs 0
         /\ forall j, (i - window <= j /\ j <= i + window)%nat -> j <> i ->
                      nth j highs 0 < nth i highs 0)
    /\ (forall l, In l (snd pivots) <->
          exists i, (window <= i)%nat /\ (i + window < List.length df)%nat
            /\ l = nth i lows 0
            /\ forall j, (i - window <= j /\ j <= i + window)%nat -> j <> i ->
                         nth i lows 0 < nth j lows 0)
    /\ (List.length (fst pivots) <= List.length df - 2 * window)%nat
    /\ (List.length (snd pivots) <= List.length df - 2 * window)%nat
    /\ ((List.length df <= 2 * window)%nat -> pivots = ([], []))
    /\ ((1 <= window)%nat -> trending highs -> fst pivots = [])
    /\ ((1 <= window)%nat -> trending lows -> snd pivots = []).
Proof.
  intros df window highs lows pivots.
  assert (Hlen : forall (f : nat -> bool) (g : nat -> Q),
            (List.length
               (map g (filter f
                         (seq window (List.length df - window - window))))
             <= List.length df - 2 * window)%nat).
  { intros f g. rewrite length_map.
    etransitivity; [apply filter_length_le|]. rewrite length_seq. lia. }
  split; [|split; [|split; [|split; [|split; [|split]]]]].
  - intro h. subst pivots. rewrite find_pivot_points_filter. cbn [fst].
    rewrite in_map_iff. split.
    + intros (i & <- & Hi). apply filter_In in Hi as [Hi Hr].
      apply in_seq in Hi.
      pose proof (proj1 (is_resistance_spec _ _ _) Hr) as Hall.
      exists i. repeat split; auto; lia.
    + intros (i & H1 & H2 & -> & Hall). exists i. split; [reflexivity|].
      apply filter_In. split; [apply in_seq; lia|].
      now apply is_resistance_spec.
  - intro l. subst pivots. rewrite find_pivot_points_filter. cbn [snd].
    rewrite in_map_iff. split.
    + intros (i & <- & Hi). apply filter_In in Hi as [Hi Hr].
      apply in_seq in Hi.
      pose proof (proj1 (is_support_spec _ _ _) Hr) as Hall.
      exists i. repeat split; auto; lia.
    + intros (i & H1 & H2 & -> & Hall). exists i. split; [reflexivity|].
      apply filter_In. split; [apply in_seq; lia|].
      now apply is_support_spec.
  - subst pivots. rewrite find_pivot_points_filter. apply Hlen.
  - subst pivots. rewrite find_pivot_points_filter. apply Hlen.
  - intro H. apply short_no_pivots. lia.
  - intro Hw. exact (proj1 (trending_no_pivots df window Hw)).
  - intro Hw. exact (proj2 (trending_no_pivots df window Hw)).
Qed.

Section ClusterFacts.
Import SupportResistanceLevels.

Lemma insert_asc_perm x l : Permutation (insert_asc x l) (x :: l).
Proof.
  induction l as [|y l IH]; simpl; [reflexivity|].
  destruct (Qlt_bool y x).
  - rewrite IH. apply perm_swap.
  - reflexivity.
Qed.

Lemma sorted_perm l : Permutation (sorted l) l.
Proof.
  induction l as [|x l IH]; simpl; [reflexivity|].
  rewrite insert_asc_perm. now constructor.
Qed.

Lemma insert_asc_sorted x l :
  StronglySorted Qle l -> StronglySorted Qle (insert_asc x l).
Proof.
  induction l as [|y l IH]; intro Hs; simpl.
  - repeat constructor.
  - inversion Hs as [|? ? Hs' Hall]; subst.
    rewrite Forall_forall in Hall.
    destruct (Qlt_bool y x) eqn:E; qbool.
    + constructor; [now apply IH|]. apply Forall_forall. intros z Hz.
      apply (Permutation_in _ (insert_asc_perm x l)) in Hz.
      destruct Hz as [<-|Hz]; [lra|now apply Hall].
    + constructor; [exact Hs|]. apply Forall_forall.
      intros z [<-|Hz]; [exact E|].
      apply (Qle_trans _ y); [exact E|now apply Hall].
Qed.

Lemma sorted_sorted l : StronglySorted Qle (sorted l).
Proof.
  induction l as [|x l IH]; simpl; [constructor|].
  now apply insert_asc_sorted.
Qed.

(** The mean of a non-empty list lies between any two bounds of its
    members. *)
Lemma np_mean_ge c lo :
  c <> [] -> (forall x, In x c -> lo <= x) -> lo <= np_mean c.
Proof.
  intros Hne Hlo. unfold np_mean.
  assert (Hn : 0 < Simulator.of_nat (List.length c)).
  { apply of_nat_pos. destruct c; [congruence|simpl; lia]. }
  pose proof (py_sum_above c lo Hlo).
  apply Qle_shift_div_l; [exact Hn|]. lra.
Qed.

Lemma np_mean_le c hi :
  c <> [] -> (forall x, In x c -> x <= hi) -> np_mean c <= hi.
Proof.
  intros Hne Hhi. unfold np_mean.
  assert (Hn : 0 < Simulator.of_nat (List.length c)).
  { apply of_nat_pos. destruct c; [congruence|simpl; lia]. }
  pose proof (py_sum_at_most c hi Hhi).
  apply Qle_shift_div_r; [exact Hn|]. lra.
Qed.

(** The invariant of the clustering loop: the clusters, none of them empty,
    cut the levels seen so far into consecutive parts. *)
Record clusters_of (seen : list Q) (clustered : list (list Q)) : Prop := {
  c_concat : List.concat clustered = seen;
  c_nonempty : Forall (fun c => c <> []) clustered
}.

Lemma cluster_step_inv tol seen clustered level :
  clusters_of seen clustered ->
  clusters_of (seen ++ [level]) (cluster_step tol clustered level).
Proof.
  intros [Hc Hne]. unfold cluster_step.
  destruct clustered as [|c0 cl] eqn:Ecl.
  - simpl in Hc. subst seen. split; [reflexivity|].
    constructor; [discriminate|constructor].
  - assert (Hsome : clustered <> []) by (rewrite Ecl; discriminate).
    rewrite <- Ecl in *. clear Ecl.
    assert (Hsplit : clustered = removelast clustered ++ [last clustered []])
      by now apply app_removelast_last.
    destruct (Qle_bool _ _).
    + split.
      * rewrite concat_app. simpl. rewrite app_nil_r, app_assoc.
        rewrite <- Hc. rewrite Hsplit at 3. rewrite concat_app. simpl.
        now rewrite app_nil_r.
      * rewrite Hsplit in Hne. apply Forall_app in Hne as [Hne1 _].
        apply Forall_app. split; [exact Hne1|].
        constructor; [|constructor]. intro E. now apply app_eq_nil in E as [_ E].
    + split.
      * rewrite concat_app. simpl. now rewrite Hc.
      * apply Forall_app. split; [exact Hne|].
        constructor; [discriminate|constructor].
Qed.

Lemma cluster_loop_inv tol rest :
  forall seen clustered,
    clusters_of seen clustered ->
    clusters_of (seen ++ rest) (fold_left (cluster_step tol) rest clustered).
Proof.
  induction rest as [|level rest IH]; intros seen clustered H; simpl.
  - now rewrite app_nil_r.
  - replace (seen ++ level :: rest) with ((seen ++ [level]) ++ rest)
      by (rewrite <- app_assoc; reflexivity).
    apply IH. now apply cluster_step_inv.
Qed.

Lemma strongly_sorted_app_inv (l1 l2 : list Q) :
  StronglySorted Qle (l1 ++ l2) ->
  StronglySorted Qle l2
  /\ forall x y, In x l1 -> In y l2 -> x <= y.
Proof.
  induction l1 as [|a l1 IH]; simpl; intro H.
  - split; [exact H|]. intros x y [].
  - inversion H as [|? ? Hs Hall]; subst. destruct (IH Hs) as [H2 Hxy].
    split; [exact H2|]. intros x y [<-|Hx] Hy.
    + rewrite Forall_forall in Hall. apply Hall. apply in_or_app. now right.
    + now apply Hxy.
Qed.

(** The means of the clusters that pass a test are in ascending order. *)
Lemma cluster_means_sorted (f : list Q -> bool) clustered :
  Forall (fun c => c <> []) clustered ->
  StronglySorted Qle (List.concat clustered) ->
  StronglySorted Qle (map np_mean (filter f clustered)).
Proof.
  induction clustered as [|c cl IH]; intros Hne Hs; simpl; [constructor|].
  inversion Hne as [|? ? Hc Hne']; subst. simpl in Hs.
  destruct (strongly_sorted_app_inv _ _ Hs) as [Hs' Hxy].
  destruct (f c); [|now apply IH]. simpl.
  constructor; [now apply IH|]. apply Forall_forall. intros m Hm.
  apply in_map_iff in Hm as (c' & <- & Hc').
  apply filter_In in Hc' as [Hc' _].
  assert (Hne'' : c' <> [])
    by (rewrite Forall_forall in Hne'; now apply Hne').
  assert (Hin : forall y, In y c' -> In y (List.concat cl))
    by (intros y Hy; apply in_concat; eauto).
  apply np_mean_ge; [exact Hne''|]. intros y Hy.
  apply np_mean_le; [exact Hc|]. intros x Hx. apply Hxy; auto.
Qed.

End ClusterFacts.

Section LevelCounts.
Import SupportResistanceLevels.

(** The clusters that reach [min_touches] members cannot be more than the
    levels allow. *)
Lemma touched_clusters_count (min_touches : Z) (clustered : list (list Q)) :
  (Z.of_nat
     (List.length
        (filter (fun c => (min_touches <=? Z.of_nat (List.length c))%Z)
           clustered))
   * min_touches
   <= Z.of_nat (List.length (List.concat clustered)))%Z.
Proof.
  induction clustered as [|c cl IH]; simpl; [lia|].
  rewrite length_app.
  destruct (Z.leb_spec min_touches (Z.of_nat (List.length c)));
    cbn [List.length]; rewrite ?Nat2Z.inj_succ, ?Nat2Z.inj_add; nia.
Qed.

(** The clusters of [_cluster_levels] on a non-empty list. *)
Lemma cluster_levels_clusters min_touches levels tol :
  exists clustered,
    clusters_of (sorted levels) clustered
    /\ _cluster_levels min_touches levels tol
       = map np_mean
           (filter (fun c => (min_touches <=? Z.of_nat (List.length c))%Z)
              clustered).
Proof.
  destruct levels as [|x levels].
  - exists []. split; [split; [reflexivity|constructor]|reflexivity].
  - exists (fold_left (cluster_step tol) (sorted (x :: levels)) []).
    split; [|reflexivity].
    apply (cluster_loop_inv tol (sorted (x :: levels)) [] []).
    split; [reflexivity|constructor].
Qed.

Lemma filter_levels_incl levels m x :
  In x (SupportResistance1H._filter_levels_by_distance levels m) ->
  In x levels.
Proof.
  unfold SupportResistance1H._filter_levels_by_distance.
  destruct levels as [|first rest]; [intros []|].
  pose proof (filter_loop_inv m first rest [] [first]
                (filtered_inv_start m first)) as [_ _ Hi _].
  simpl in Hi. apply Hi.
Qed.

Lemma filter_levels_length levels m :
  (List.length (SupportResistance1H._filter_levels_by_distance levels m)
   <= List.length levels)%nat.
Proof.
  unfold SupportResistance1H._filter_levels_by_distance.
  destruct levels as [|first rest]; [simpl; lia|].
  assert (H : forall kept,
            (List.length
               (fold_left (SupportResistance1H.filter_step m) rest kept)
             <= List.length kept + List.length rest)%nat).
  { induction rest as [|level rest IH]; intro kept; simpl; [lia|].
    etransitivity; [apply IH|].
    unfold SupportResistance1H.filter_step.
    destruct (negb _); [rewrite length_app; simpl|]; lia. }
  specialize (H [first]). simpl in *. lia.
Qed.

End LevelCounts.

(** [_cluster_levels] returns its levels in ascending order.  Each is the
    mean of a cluster of at least [min_touches] of the given levels, so it
    lies between any two bounds of the given levels, there are at most
    [len(levels) / min_touches] of them, and none when the given levels are
    fewer than [min_touches]. *)
Theorem cluster_levels_means :
  forall (min_touches : Z) (levels : list Q) (tolerance_percent : Q),
    let out :=
      SupportResistanceLevels._cluster_levels min_touches levels
        tolerance_percent in
    StronglySorted Qle out
    /\ (forall m, In m out ->
          exists cluster,
            cluster <> [] /\ incl cluster levels
            /\ (min_touches <= Z.of_nat (List.length cluster))%Z
            /\ m = SupportResistanceLevels.np_mean cluster)
    /\ (forall lo hi, (forall x, In x levels -> lo <= x /\ x <= hi) ->
          forall m, In m out -> lo <= m /\ m <= hi)
    /\ (Z.of_nat (List.length out) * min_touches
        <= Z.of_nat (List.length levels))%Z
    /\ ((Z.of_nat (List.length levels) < min_touches)%Z -> out = []).
Proof.
  intros min_touches levels tol out.
  destruct (cluster_levels_clusters min_touches levels tol)
    as (clustered & [Hc Hne] & E).
  subst out. rewrite E. clear E.
  assert (Hmem : forall m,
            In m (map SupportResistanceLevels.np_mean
                    (filter
                       (fun c =>
                          (min_touches <=? Z.of_nat (List.length c))%Z)
                       clustered)) ->
            exists cluster,
              cluster <> [] /\ incl cluster levels
              /\ (min_touches <= Z.of_nat (List.length cluster))%Z
              /\ m = SupportResistanceLevels.np_mean cluster).
  { intros m Hm. apply in_map_iff in Hm as (c & <- & Hin).
    apply filter_In in Hin as [Hin Hbig]. apply Z.leb_le in Hbig.
    exists c. rewrite Forall_forall in Hne.
    split; [now apply Hne|]. split; [|split; [exact Hbig|reflexivity]].
    intros x Hx. apply (Permutation_in _ (sorted_perm levels)).
    rewrite <- Hc. apply in_concat. eauto. }
  assert (Hcount :
    (Z.of_nat
       (List.length
          (map SupportResistanceLevels.np_mean
             (filter
                (fun c => (min_touches <=? Z.of_nat (List.length c))%Z)
                clustered)))
     * min_touches <= Z.of_nat (List.length levels))%Z).
  { rewrite length_map.
    rewrite <- (Permutation_length (sorted_perm levels)), <- Hc.
    apply touched_clusters_count. }
  split; [|split; [exact Hmem|split; [|split; [exact Hcount|]]]].
  - apply cluster_means_sorted; [exact Hne|]. rewrite Hc.
    apply sorted_sorted.
  - intros lo hi Hb m Hm.
    destruct (Hmem m Hm) as (c & Hcne & Hincl & _ & ->). split.
    + apply np_mean_ge; [exact Hcne|]. intros x Hx. now apply Hb, Hincl.
    + apply np_mean_le; [exact Hcne|]. intros x Hx. now apply Hb, Hincl.
  - intro Hfew.
    destruct (map _ _) as [|m rest]; [reflexivity|]. exfalso.
    cbn [List.length] in Hcount. nia.
Qed.

(** In exact arithmetic (the mean of a cluster is the exact rational mean;
    the double-precision [np.mean] can leave the bounds of its members by
    its rounding error), every level
    [_identify_support_resistance_levels] returns lies between any two
    bounds of the highs (for a resistance level) or of the lows (for a
    support level) of the candles.  Whatever the arithmetic, the levels of
    a kind, times [min_touches], are no more than the candles that have
    five candles on both sides, and with ten candles or fewer there is no
    level at all. *)
Theorem identified_levels_within_data :
  forall (min_touches : Z) (tolerance_percent min_distance_percent : Q)
         (df : list Strategies.Candle),
    let levels :=
      SupportResistanceLevels._identify_support_resistance_levels
        min_touches tolerance_percent min_distance_percent df in
    (forall lo hi,
       (forall c, In c df -> lo <= Strategies.high c /\ Strategies.high c <= hi) ->
       forall r, In r (fst levels) -> lo <= r /\ r <= hi)
    /\ (forall lo hi,
          (forall c, In c df -> lo <= Strategies.low c /\ Strategies.low c <= hi) ->
          forall s, In s (snd levels) -> lo <= s /\ s <= hi)
    /\ (0 <= min_touches ->
        Z.of_nat (List.length (fst levels)) * min_touches
        <= Z.of_nat (List.length df - 10)
        /\ Z.of_nat (List.length (snd levels)) * min_touches
           <= Z.of_nat (List.length df - 10))%Z
    /\ ((List.length df <= 10)%nat -> levels = ([], [])).
Proof.
  intros min_touches tol dist df levels. subst levels.
  unfold SupportResistanceLevels._identify_support_resistance_levels.
  rewrite find_pivot_points_filter.
  set (highs := map (fun i => nth i (map Strategies.high df) 0) _).
  set (lows := map (fun i => nth i (map Strategies.low df) 0) _).
  cbn [fst snd].
  assert (Hh : forall h, In h highs ->
                 exists c, In c df /\ h = Strategies.high c).
  { intros h Hin. subst highs. apply in_map_iff in Hin as (i & <- & Hi).
    apply filter_In in Hi as [Hi _]. apply in_seq in Hi.
    exists (nth i df Strategies.default_candle). split.
    - apply nth_In. lia.
    - change 0 with (Strategies.high Strategies.default_candle).
      apply map_nth. }
  assert (Hl : forall l, In l lows ->
                 exists c, In c df /\ l = Strategies.low c).
  { intros l Hin. subst lows. apply in_map_iff in Hin as (i & <- & Hi).
    apply filter_In in Hi as [Hi _]. apply in_seq in Hi.
    exists (nth i df Strategies.default_candle). split.
    - apply nth_In. lia.
    - change 0 with (Strategies.low Strategies.default_candle).
      apply map_nth. }
  assert (Hnh : (List.length highs <= List.length df - 10)%nat).
  { subst highs. rewrite length_map.
    etransitivity; [apply filter_length_le|]. rewrite length_seq. lia. }
  assert (Hnl : (List.length lows <= List.length df - 10)%nat).
  { subst lows. rewrite length_map.
    etransitivity; [apply filter_length_le|]. rewrite length_seq. lia. }
  assert (Hrange : forall pivots lo hi,
            (forall x, In x pivots -> lo <= x /\ x <= hi) ->
            forall m,
              In m (SupportResistance1H._filter_levels_by_distance
                      (SupportResistanceLevels._cluster_levels min_touches
                         pivots tol) dist) ->
              lo <= m /\ m <= hi).
  { intros pivots lo hi Hb m Hm. apply filter_levels_incl in Hm.
    destruct (cluster_levels_clusters min_touches pivots tol)
      as (clustered & [Hc Hne] & E).
    rewrite E in Hm. apply in_map_iff in Hm as (c & <- & Hin).
    apply filter_In in Hin as [Hin _]. rewrite Forall_forall in Hne.
    assert (Hincl : forall x, In x c -> In x pivots).
    { intros x Hx. apply (Permutation_in _ (sorted_perm pivots)).
      rewrite <- Hc. apply in_concat. eauto. }
    split.
    - apply np_mean_ge; [now apply Hne|]. intros x Hx.
      now apply Hb, Hincl.
    - apply np_mean_le; [now apply Hne|]. intros x Hx.
      now apply Hb, Hincl. }
  assert (Hcount : forall pivots,
            (0 <= min_touches)%Z ->
            (Z.of_nat
               (List.length
                  (SupportResistance1H._filter_levels_by_distance
                     (SupportResistanceLevels._cluster_levels min_touches
                        pivots tol) dist))
             * min_touches <= Z.of_nat (List.length pivots))%Z).
  { intros pivots Hmt.
    pose proof (filter_levels_length
                  (SupportResistanceLevels._cluster_levels min_touches
                     pivots tol) dist) as Hf.
    destruct (cluster_levels_clusters min_touches pivots tol)
      as (clustered & [Hc Hne] & E).
    rewrite E in *. rewrite length_map in Hf.
    pose proof (touched_clusters_count min_touches clustered) as Ht.
    rewrite Hc, (Permutation_length (sorted_perm pivots)) in Ht. nia. }
  split; [|split; [|split]].
  - intros lo hi Hb. apply Hrange. intros x Hx.
    destruct (Hh x Hx) as (c & Hc & ->). now apply Hb.
  - intros lo hi Hb. apply Hrange. intros x Hx.
    destruct (Hl x Hx) as (c & Hc & ->). now apply Hb.
  - intro Hmt. pose proof (Hcount highs Hmt). pose proof (Hcount lows Hmt).
    lia.
  - intro Hshort.
    assert (Eh : highs = []) by (destruct highs; [reflexivity|simpl in Hnh; lia]).
    assert (El : lows = []) by (destruct lows; [reflexivity|simpl in Hnl; lia]).
    rewrite Eh, El. reflexivity.
Qed.

(** The Support/Resistance generator returns no signal when the fetch gave
    fewer candles than the lookback, when there are ten candles or fewer,
    when the candles are fewer than [min_touches] plus ten, and in a trend:
    when the highs never fall or never rise from one candle to the next and
    the lows do not either. *)
Theorem sr_generate_signal_none :
  forall (lookback_periods min_touches : Z)
         (tolerance_percent min_distance_percent : Q)
         (df : list Strategies.Candle),
    (Z.of_nat (List.length df) < lookback_periods)%Z
    \/ (List.length df <= 10)%nat
    \/ (Z.of_nat (List.length df) - 10 < min_touches)%Z
    \/ (trending (map Strategies.high df)
        /\ trending (map Strategies.low df)) ->
    SupportResistanceLevels.generate_signal_on lookback_periods min_touches
      tolerance_percent min_distance_percent (Some df) = None.
Proof.
  intros lookback min_touches tol dist df H.
  unfold SupportResistanceLevels.generate_signal_on.
  destruct (Z.ltb_spec (Z.of_nat (List.length df)) lookback) as [|Hlb];
    [reflexivity|].
  destruct (rev df) as [|last_row before]; [reflexivity|].
  assert (E : SupportResistanceLevels._identify_support_resistance_levels
                min_touches tol dist df = ([], [])).
  { unfold SupportResistanceLevels._identify_support_resistance_levels.
    destruct H as [H|[H|[H|[Hhi Hlo]]]]; [lia| | |].
    - rewrite short_no_pivots by lia. reflexivity.
    - destruct (le_lt_dec (List.length df) 10) as [Hshort|Hlong];
        [rewrite short_no_pivots by lia; reflexivity|].
      rewrite find_pivot_points_filter.
      set (highs := map (fun i => nth i (map Strategies.high df) 0) _).
      set (lows := map (fun i => nth i (map Strategies.low df) 0) _).
      assert (Hfew : forall (f : nat -> bool) (g : nat -> Q),
                (Z.of_nat
                   (List.length
                      (map g (filter f (seq 5 (List.length df - 5 - 5)))))
                 < min_touches)%Z).
      { intros f g. rewrite length_map.
        pose proof (filter_length_le f (seq 5 (List.length df - 5 - 5)))
          as Hle.
        rewrite length_seq in Hle. lia. }
      assert (Enone : forall pivots,
                (Z.of_nat (List.length pivots) < min_touches)%Z ->
                SupportResistanceLevels._cluster_levels min_touches pivots
                  tol = []).
      { intros pivots Hp.
        destruct (cluster_levels_clusters min_touches pivots tol)
          as (clustered & [Hc Hne] & ->).
        pose proof (touched_clusters_count min_touches clustered) as Ht.
        rewrite Hc, (Permutation_length (sorted_perm pivots)) in Ht.
        destruct (filter _ clustered) as [|c cs]; [reflexivity|].
        cbn [List.length] in Ht. nia. }
      rewrite (Enone highs) by (unfold highs; apply Hfew).
      rewrite (Enone lows) by (unfold lows; apply Hfew).
      reflexivity.
    - destruct (trending_no_pivots df 5) as [Hr Hs]; [lia|].
      destruct (SupportResistanceLevels._find_pivot_points df 5)
        as [highs lows].
      cbn [fst snd] in Hr, Hs. rewrite (Hr Hhi), (Hs Hlo). reflexivity. }
  rewrite E. reflexivity.
Qed.

Lemma sr_generate_signal_none_witness :
  SupportResistanceLevels.generate_signal_on 50 3 1 2 (Some rising_candles)
  = None.
Proof.
  apply (sr_generate_signal_none 50 3 1 2 rising_candles).
  right. right. right.
  assert (H : trending (map Strategies.close rising_candles)).
  { left. intros i Hi. apply Qlt_le_weak.
    apply (strongly_sorted_nth Qlt _ rising_candles_increasing); lia. }
  split; exact H.
Defined.

(** ** How strong a live signal is at least *)

Section StrengthFloor.

(** A level that tested true and is within the proximity threshold, on the
    resistance side and on the support side. *)
Definition near_resistance (current_price : Q) (nearest : option Q) : Prop :=
  exists r, nearest = Some r /\ ~ r == 0
            /\ (r - current_price) / r * 100 <= 0.5.

Definition near_support (current_price : Q) (nearest : option Q) : Prop :=
  exists s, nearest = Some s /\ ~ s == 0
            /\ (current_price - s) / s * 100 <= 0.5.

Lemma near_resistance_iff price nr :
  (SupportResistance1H.truthy nr
   && Qle_bool ((SupportResistance1H.the nr - price)
                / SupportResistance1H.the nr * 100) 0.5) = true
  <-> near_resistance price nr.
Proof.
  unfold near_resistance, SupportResistance1H.truthy.
  rewrite andb_true_iff. split.
  - intros [Ht Hd]. destruct nr as [r|]; [|discriminate].
    apply negb_true_iff in Ht. qbool. simpl in Hd. eauto.
  - intros (r & -> & Hr & Hd). simpl. split.
    + apply negb_true_iff. destruct (Qeq_bool r 0) eqn:E; [|reflexivity].
      qbool. contradiction.
    + now apply Qle_bool_iff.
Qed.

Lemma near_support_iff price ns :
  (SupportResistance1H.truthy ns
   && Qle_bool ((price - SupportResistance1H.the ns)
                / SupportResistance1H.the ns * 100) 0.5) = true
  <-> near_support price ns.
Proof.
  unfold near_support, SupportResistance1H.truthy.
  rewrite andb_true_iff. split.
  - intros [Ht Hd]. destruct ns as [s|]; [|discriminate].
    apply negb_true_iff in Ht. qbool. simpl in Hd. eauto.
  - intros (s & -> & Hs & Hd). simpl. split.
    + apply negb_true_iff. destruct (Qeq_bool s 0) eqn:E; [|reflexivity].
      qbool. contradiction.
    + now apply Qle_bool_iff.
Qed.

(** The strength of a level within the proximity threshold. *)
Lemma sr_strength_floor d :
  d <= 0.5 ->
  0.75 <= py_min 1.0 (py_max 0.0 (py_max 0.6 (1.0 - (d / 2.0))))
  /\ py_min 1.0 (py_max 0.0 (py_max 0.6 (1.0 - (d / 2.0)))) <= 1.
Proof.
  intro Hd. set (x := 1.0 - d / 2.0).
  assert (Hx : 0.75 <= x).
  { subst x. assert (d / 2.0 == d * (1 # 2)) by field. lra. }
  unfold py_min, py_max.
  destruct (Qlt_bool 0.6 x) eqn:E1; qbool;
    destruct (Qlt_bool 0.0 _) eqn:E2; qbool;
    destruct (Qlt_bool _ 1.0) eqn:E3; qbool; lra.
Qed.

(** The Bollinger strength, from a base of at least 0.76. *)
Lemma bb_strength_floor (bandwidth : cell) (base : Q) :
  0.76 <= base -> base <= 1 ->
  let strength :=
    if cell_gt bandwidth (Fin 4.0) then py_min 1.0 (base + 0.1)
    else base in
  0.76 <= py_min 1.0 (py_max 0.0 strength)
  /\ py_min 1.0 (py_max 0.0 strength) <= 1
  /\ (0.85 <= base -> 0.85 <= py_min 1.0 (py_max 0.0 strength)).
Proof.
  intros H0 H1. cbv zeta.
  set (s := if cell_gt bandwidth (Fin 4.0) then py_min 1.0 (base + 0.1)
            else base).
  assert (Hs : 0.76 <= s /\ s <= 1 /\ (0.85 <= base -> 0.85 <= s)).
  { subst s. destruct (cell_gt bandwidth (Fin 4.0)).
    - destruct (py_min_spec 1.0 (base + 0.1)) as (A & B & [E|E]);
        rewrite E in *; repeat split; intros; lra.
    - repeat split; intros; lra. }
  destruct Hs as (Hs1 & Hs2 & Hs3).
  destruct (py_max_spec 0.0 s) as (A & B & [E|E]); rewrite E in *;
    match goal with
    | |- context [py_min 1.0 ?m] =>
        destruct (py_min_spec 1.0 m) as (C & D & [E2|E2]); rewrite E2 in *
    end; repeat split; intros; try lra;
    match goal with H : 0.85 <= base |- _ => specialize (Hs3 H); lra end.
Qed.

(** The action and the strength of the Support/Resistance generator, by
    the two proximity tests. *)
Lemma sr_action_by_proximity price res sup action strength :
  SupportResistance1H.generate_signal price res sup
  = Some (action, strength) ->
  let nr := fst (SupportResistance1H._find_nearest_levels price res sup) in
  let ns := snd (SupportResistance1H._find_nearest_levels price res sup) in
  let near_r :=
    SupportResistance1H.truthy nr
    && Qle_bool ((SupportResistance1H.the nr - price)
                 / SupportResistance1H.the nr * 100) 0.5 in
  let near_s :=
    SupportResistance1H.truthy ns
    && Qle_bool ((price - SupportResistance1H.the ns)
                 / SupportResistance1H.the ns * 100) 0.5 in
  action = (if near_r then "SELL" else if near_s then "BUY" else "HOLD")%string
  /\ (near_r || near_s = true -> 0.75 <= strength /\ strength <= 1).
Proof.
  unfold SupportResistance1H.generate_signal.
  destruct (negb _ && negb _); [discriminate|].
  destruct (SupportResistance1H._find_nearest_levels price res sup)
    as [nr ns].
  cbn [fst snd]. unfold SupportResistance1H._calculate_signal_strength.
  destruct (SupportResistance1H.truthy ns) eqn:Ens;
    destruct (SupportResistance1H.truthy nr) eqn:Enr; cbn [andb];
    repeat match goal with
           | |- context [if Qle_bool ?a ?b then _ else _] =>
               let E := fresh "E" in destruct (Qle_bool a b) eqn:E
           end;
    cbn [String.eqb Ascii.eqb Bool.eqb andb orb];
    intro H; injection H as <- <-;
    (split; [reflexivity|]); intro Hn; try discriminate;
    apply sr_strength_floor; qbool; assumption.
Qed.

End StrengthFloor.

(** The Support/Resistance generator answers SELL exactly when the nearest
    resistance is within 0.5 % above the price, BUY exactly when the nearest
    support is within 0.5 % below it and the resistance is not (SELL
    overrides BUY), and HOLD otherwise; so the strength of a BUY or a SELL
    is at least 0.75. *)
Theorem sr_signal_needs_near_level :
  forall (current_price : Q) (resistance_levels support_levels : list Q)
         (action : string) (strength : Q),
    SupportResistance1H.generate_signal current_price resistance_levels
      support_levels = Some (action, strength) ->
    let nearest :=
      SupportResistance1H._find_nearest_levels current_price
        resistance_levels support_levels in
    (action = "SELL"%string <-> near_resistance current_price (fst nearest))
    /\ (action = "BUY"%string
        <-> near_support current_price (snd nearest)
            /\ ~ near_resistance current_price (fst nearest))
    /\ (action = "HOLD"%string
        <-> ~ near_support current_price (snd nearest)
            /\ ~ near_resistance current_price (fst nearest))
    /\ (action <> "HOLD"%string -> 0.75 <= strength /\ strength <= 1).
Proof.
  intros price res sup action strength H nearest. subst nearest.
  destruct (sr_action_by_proximity _ _ _ _ _ H) as [Ha Hst].
  cbv zeta in Ha, Hst.
  rewrite <- (near_resistance_iff price), <- (near_support_iff price).
  destruct (SupportResistance1H.truthy
              (fst (SupportResistance1H._find_nearest_levels price res sup))
            && _);
    destruct (SupportResistance1H.truthy
                (snd (SupportResistance1H._find_nearest_levels price res
                        sup))
              && _);
    subst action; cbn [orb] in Hst;
    (split; [split; intro; (discriminate || reflexivity)|]);
    (split; [split; [intro; discriminate || (split; [reflexivity|discriminate])
                    |intros [? ?]; try reflexivity; try discriminate;
                     exfalso; auto]|]);
    (split; [split; [intro; discriminate || (split; discriminate)
                    |intros [? ?]; try reflexivity; exfalso; auto]|]);
    intro Hne; try (exfalso; apply Hne; reflexivity); now apply Hst.
Qed.

Lemma sr_signal_needs_near_level_witness :
  exists strength,
    SupportResistance1H.generate_signal 100.2 [110] [100]
    = Some ("BUY"%string, strength)
    /\ 0.75 <= strength /\ strength <= 1.
Proof.
  eexists. split; [vm_compute; reflexivity|].
  refine (proj2 (proj2 (proj2 (sr_signal_needs_near_level 100.2 [110] [100]
                                 "BUY"%string _ _))) _).
  - vm_compute; reflexivity.
  - discriminate.
Defined.

(** The strength of a BUY or a SELL of the live Bollinger generator is at
    least 0.76, and at least 0.85 when the price is within the touch
    threshold of the band on the signal's side (a band that is not zero). *)
Theorem bb_signal_strength_floor :
  forall (touch_threshold current_price middle upper lower : Q)
         (bandwidth : cell) (action : string) (strength : Q),
    BollingerBands30Min.generate_signal touch_threshold current_price
      (Some middle) (Some upper) (Some lower) bandwidth
    = Some (action, strength) ->
    action <> "HOLD"%string ->
    0.76 <= strength /\ strength <= 1
    /\ (action = "BUY"%string -> ~ lower == 0 ->
        Qabs (current_price - lower) / lower * 100 <= touch_threshold ->
        0.85 <= strength)
    /\ (action = "SELL"%string -> ~ upper == 0 ->
        Qabs (upper - current_price) / upper * 100 <= touch_threshold ->
        0.85 <= strength).
Proof.
  intros thr price middle upper lower bandwidth action strength H Hne.
  unfold BollingerBands30Min.generate_signal in H.
  destruct (bb_position_cases price upper lower middle)
    as (_ & _ & Hp0 & Hp1).
  set (p := BollingerBands30Min._calculate_bb_position
              price upper lower middle) in *.
  destruct (Qle_bool p 0.2 || _) eqn:Ebuy.
  - injection H as <- <-.
    unfold BollingerBands30Min._calculate_signal_strength.
    cbn [String.eqb Ascii.eqb Bool.eqb andb].
    set (near := Qle_bool (Qabs (price - lower) / lower * 100) thr) in *.
    destruct (bb_strength_floor bandwidth
                (if near then 0.85 + ((1.0 - p) * 0.15)
                 else 0.6 + ((1.0 - p) * 0.2))) as (H1 & H2 & H3).
    + destruct near eqn:En; [lra|].
      rewrite orb_false_r in Ebuy. qbool. lra.
    + destruct near; lra.
    + split; [exact H1|]. split; [exact H2|]. split.
      * intros _ _ Hd. apply H3.
        assert (En : near = true) by now apply Qle_bool_iff.
        rewrite En. lra.
      * discriminate.
  - destruct (Qle_bool 0.8 p || _) eqn:Esell.
    + injection H as <- <-.
      unfold BollingerBands30Min._calculate_signal_strength.
      cbn [String.eqb Ascii.eqb Bool.eqb andb].
      set (near := Qle_bool (Qabs (upper - price) / upper * 100) thr) in *.
      destruct (bb_strength_floor bandwidth
                  (if near then 0.85 + (p * 0.15) else 0.6 + (p * 0.2)))
        as (H1 & H2 & H3).
      * destruct near eqn:En; [lra|].
        rewrite orb_false_r in Esell. qbool. lra.
      * destruct near; lra.
      * split; [exact H1|]. split; [exact H2|]. split.
        -- discriminate.
        -- intros _ _ Hd. apply H3.
           assert (En : near = true) by now apply Qle_bool_iff.
           rewrite En. lra.
    + injection H as <- <-. exfalso. now apply Hne.
Qed.

Lemma bb_signal_strength_floor_witness :
  exists strength,
    BollingerBands30Min.generate_signal 0.5 100 (Some 110) (Some 120)
      (Some 100) (Fin 5) = Some ("BUY"%string, strength)
    /\ 0.76 <= strength.
Proof.
  eexists. split; [vm_compute; reflexivity|].
  refine (proj1 (bb_signal_strength_floor 0.5 100 110 120 100 (Fin 5)
                   "BUY"%string _ _ _)).
  - vm_compute; reflexivity.
  - discriminate.
Defined.

(** ** Signals a trade needs *)

Section TradesAndSignals.
Import Simulator.

Definition buys (signals : list Signal) : list Signal :=
  filter (fun s => (action s =? "BUY")%string) signals.

Definition sells (signals : list Signal) : list Signal :=
  filter (fun s => (action s =? "SELL")%string) signals.

(** A run of the discipline emits at most one trade per BUY signal, the
    open position standing for one. *)
Lemma discipline_at_most_buys position_size pos signals ts :
  discipline position_size pos signals ts ->
  (List.length ts
   <= List.length (buys signals)
      + (match pos with Some _ => 1 | None => 0 end))%nat.
Proof.
  unfold buys.
  induction 1 as [pos|s rest ts Hb _ IH|pos s rest ts Hb _ IH
                 |pos s rest t ts Hs _ _ _ _ _ _ _ IH
                 |s rest ts Hs _ IH|pos s rest ts Hb Hs _ IH]; simpl.
  - lia.
  - rewrite Hb. simpl. lia.
  - rewrite Hb. simpl. lia.
  - rewrite Hs. simpl. lia.
  - rewrite Hs. simpl. lia.
  - apply String.eqb_neq in Hb. rewrite Hb. exact IH.
Qed.

Lemma buys_and_sells signals :
  (List.length (buys signals) + List.length (sells signals)
   <= List.length signals)%nat.
Proof.
  unfold buys, sells. induction signals as [|s rest IH]; simpl; [lia|].
  destruct (String.eqb_spec (action s) "BUY") as [E|_].
  - rewrite E. simpl. lia.
  - destruct (action s =? "SELL")%string; simpl; lia.
Qed.

Lemma trades_use_signals signals position_size :
  (List.length (simulate_trades signals position_size)
   <= List.length (buys signals))%nat
  /\ (2 * List.length (simulate_trades signals position_size)
      <= List.length signals)%nat.
Proof.
  destruct (simulate_loop_discipline position_size signals [] None
              (sized_none position_size)) as (ts & E & D).
  unfold simulate_trades. rewrite E. cbn [app fst].
  pose proof (discipline_at_most_buys _ _ _ _ D) as Hb.
  pose proof (discipline_at_most_sells _ _ _ _ D) as Hs.
  pose proof (buys_and_sells signals) as Hbs.
  unfold buys, sells in *. lia.
Qed.

End TradesAndSignals.

(** Every trade [simulate_trades] emits uses up a BUY signal and a SELL
    signal of its own: the trades are no more than the BUY signals, and
    twice the trades are no more than the signals. *)
Theorem simulate_trades_two_signals_each :
  forall (signals : list Simulator.Signal) (position_size : Q),
    let trades := Simulator.simulate_trades signals position_size in
    (List.length trades <= List.length (buys signals))%nat
    /\ (2 * List.length trades <= List.length signals)%nat.
Proof.
  intros signals position_size trades. subst trades.
  apply trades_use_signals.
Qed.

(** ** The optimisation run *)

Section PageFacts.
Import Strategies MoreStrategies BacktestPage.

(** What holds of every row an evaluator returns for a coin. *)
Definition row_of (c : string) (r : BacktestResult) : Prop :=
  coin r = c
  /\ (1 <= total_trades r)%nat
  /\ (2 * total_trades r <= signals_generated r)%nat
  /\ (winning_trades r + losing_trades r = total_trades r)%nat.

Lemma evaluator_row c p lo hi signals position_size stats :
  Simulator.calculate_trade_statistics
    (Simulator.simulate_trades signals position_size) = Some stats ->
  row_of c (with_stats c p lo hi signals stats).
Proof.
  pose proof (trades_use_signals signals position_size) as [_ H2].
  revert H2.
  generalize (Simulator.simulate_trades signals position_size) as trades.
  intros trades H2 E.
  assert (Hne : trades <> []) by (intros Eq; rewrite Eq in E; discriminate).
  rewrite statistics_of_nonempty in E by assumption. injection E as <-.
  unfold row_of, with_stats.
  cbn [coin total_trades signals_generated winning_trades losing_trades
       Simulator.total_trades Simulator.winning_trades
       Simulator.losing_trades].
  split; [reflexivity|]. split.
  - destruct trades; [congruence|simpl; lia].
  - split; [exact H2|].
    rewrite losing_is_not_winning.
    pose proof (Permutation_length
                  (filter_split
                     (fun t => Qlt_bool 0 (Simulator.profit_usd t)) trades))
      as Hp.
    rewrite length_app in Hp. symmetry. exact Hp.
Qed.

Lemma strategy_row df c signal_type combo position_size r :
  _run_strategy_backtest df c signal_type combo position_size = Some r ->
  row_of c r.
Proof.
  unfold _run_strategy_backtest, run_sma_backtest, run_range_backtest,
    run_scalping_backtest, run_macd_backtest, run_rsi_backtest.
  repeat match goal with
         | |- context [if ?b then _ else _] => destruct b
         end;
    destruct combo; try discriminate;
    repeat match goal with
           | |- context [match ?x with _ => _ end] =>
               let E := fresh "E" in destruct x eqn:E; try discriminate
           end;
    intro H; injection H as <-; eapply evaluator_row; eassumption.
Qed.

(** The loop over the combinations counts every test and appends the rows
    the evaluator returns. *)
Lemma combo_loop df c signal_type position_size combinations :
  forall rows n,
    exists new,
      fold_left (combo_step df c signal_type position_size) combinations
        (rows, n)
      = (rows ++ new, (n + List.length combinations)%nat)
      /\ (List.length new <= List.length combinations)%nat
      /\ forall r, In r new -> row_of c r.
Proof.
  induction combinations as [|combo rest IH]; intros rows n.
  - exists []. simpl. rewrite app_nil_r, Nat.add_0_r.
    split; [reflexivity|]. split; [lia|intros r []].
  - cbn [fold_left]. unfold combo_step at 2.
    destruct (_run_strategy_backtest df c signal_type combo position_size)
      as [r|] eqn:E.
    + destruct (IH (rows ++ [r]) (S n)) as (new & -> & Hlen & Hrows).
      exists (r :: new). rewrite <- app_assoc. cbn [app List.length].
      split; [f_equal; lia|]. split; [lia|].
      intros r' [<-|Hr']; [now apply (strategy_row _ _ _ _ _ _ E)|auto].
    + destruct (IH rows (S n)) as (new & -> & Hlen & Hrows).
      exists new. cbn [List.length].
      split; [f_equal; lia|]. split; [lia|exact Hrows].
Qed.

Variable fetch : string -> option (list Candle).
Variable ranges : OptimizationRanges.
Variable signal_type : string.
Variable position_size : Q.

(** A coin whose data came and is long enough: the coin is tested. *)
Definition tested (c : string) : bool :=
  match fetch c, _get_min_data_length ranges signal_type with
  | Some df, Some min_data_length =>
      negb (List.length df <? min_data_length)%nat
  | _, _ => false
  end.

(** The invariant of the loop over the coins [seen] so far. *)
Definition tests_inv (seen : list string)
    (st : option (list BacktestResult * nat)) : Prop :=
  match st with
  | Some (rows, test_count) =>
      test_count
      = (List.length (filter tested seen)
         * List.length (_generate_combinations ranges signal_type))%nat
      /\ (List.length rows <= test_count)%nat
      /\ forall r, In r rows ->
           In (coin r) seen /\ tested (coin r) = true /\ row_of (coin r) r
  | None =>
      _get_min_data_length ranges signal_type = None
      /\ exists c, In c seen /\ fetch c <> None
  end.

Lemma coin_step_inv seen st c :
  tests_inv seen st ->
  tests_inv (seen ++ [c])
    (coin_step fetch ranges signal_type position_size
       (_generate_combinations ranges signal_type) st c).
Proof.
  destruct st as [[rows n]|]; cbn [tests_inv coin_step].
  - intros (Hn & Hlen & Hrows).
    assert (Hkeep : tested c = false ->
              tests_inv (seen ++ [c]) (Some (rows, n))).
    { intro Ht. cbn [tests_inv]. rewrite filter_app. cbn [filter].
      rewrite Ht, app_nil_r. split; [exact Hn|]. split; [exact Hlen|].
      intros r Hr. destruct (Hrows r Hr) as (H1 & H2 & H3).
      split; [apply in_or_app; now left|auto]. }
    unfold tested in Hkeep |- *.
    destruct (fetch c) as [df|] eqn:Ef; [|now apply Hkeep].
    destruct (_get_min_data_length ranges signal_type) as [m|] eqn:Em.
    + destruct (List.length df <? m)%nat eqn:El; [now apply Hkeep|].
      destruct (combo_loop df c signal_type position_size
                  (_generate_combinations ranges signal_type) rows n)
        as (new & -> & Hnew & Hrow).
      cbn [tests_inv]. rewrite filter_app. cbn [filter].
      unfold tested at 2. rewrite Ef, Em, El. cbn [negb].
      rewrite !length_app. cbn [List.length]. split; [lia|]. split; [lia|].
      intros r Hr. apply in_app_or in Hr as [Hr|Hr].
      * destruct (Hrows r Hr) as (H1 & H2 & H3).
        split; [apply in_or_app; now left|auto].
      * destruct (Hrow r Hr) as (Hc & Hrest).
        rewrite Hc. split; [apply in_or_app; right; now left|].
        split; [unfold tested; now rewrite Ef, Em, El|].
        split; [exact Hc|exact Hrest].
    + cbn [tests_inv]. split; [exact Em|].
      exists c. split; [apply in_or_app; right; now left|].
      rewrite Ef. discriminate.
  - intros (Hm & c0 & Hc0 & Hf). split; [exact Hm|].
    exists c0. split; [apply in_or_app; now left|exact Hf].
Qed.

Lemma coin_loop_inv rest :
  forall seen st,
    tests_inv seen st ->
    tests_inv (seen ++ rest)
      (fold_left
         (coin_step fetch ranges signal_type position_size
            (_generate_combinations ranges signal_type)) rest st).
Proof.
  induction rest as [|c rest IH]; intros seen st H; simpl.
  - now rewrite app_nil_r.
  - replace (seen ++ c :: rest) with ((seen ++ [c]) ++ rest)
      by (rewrite <- app_assoc; reflexivity).
    apply IH. now apply coin_step_inv.
Qed.

End PageFacts.

(** [_run_all_tests] raises only when the data of some coin came and the
    range list its minimum length is read from is empty.  Otherwise it runs
    one test for every combination on every coin whose data came and is long
    enough, at most [total_tests] in all, and returns at most one row per
    test.  Every row is the row of a tested coin of the selection, closes at
    least one trade, has two signals or more for every trade, and counts
    every trade as winning or as losing. *)
Theorem run_all_tests_rows :
  forall (fetch : string -> option (list Strategies.Candle))
         (ranges : BacktestPage.OptimizationRanges)
         (selected_coins : list string) (signal_type : string)
         (position_size : Q),
    let combinations :=
      BacktestPage._generate_combinations ranges signal_type in
    match
      BacktestPage._run_all_tests fetch ranges selected_coins signal_type
        position_size
    with
    | None =>
        BacktestPage._get_min_data_length ranges signal_type = None
        /\ exists c, In c selected_coins /\ fetch c <> None
    | Some (all_results, test_count) =>
        test_count
        = (List.length
             (filter (tested fetch ranges signal_type) selected_coins)
           * List.length combinations)%nat
        /\ (test_count
            <= List.length selected_coins * List.length combinations)%nat
        /\ (List.length all_results <= test_count)%nat
        /\ forall r, In r all_results ->
             In (Strategies.coin r) selected_coins
             /\ tested fetch ranges signal_type (Strategies.coin r) = true
             /\ (1 <= Strategies.total_trades r)%nat
             /\ (2 * Strategies.total_trades r
                 <= Strategies.signals_generated r)%nat
             /\ (Strategies.winning_trades r + Strategies.losing_trades r
                 = Strategies.total_trades r)%nat
    end.
Proof.
  intros fetch ranges selected_coins signal_type position_size combinations.
  pose proof (coin_loop_inv fetch ranges signal_type position_size
                selected_coins [] (Some ([], 0%nat))) as H.
  cbn [app] in H. unfold BacktestPage._run_all_tests.
  fold combinations in H |- *.
  destruct (fold_left _ selected_coins (Some ([], 0%nat)))
    as [[rows n]|].
  - destruct H as (Hn & Hlen & Hrows).
    + cbn. split; [reflexivity|]. split; [lia|intros r []].
    + split; [exact Hn|]. split.
      * rewrite Hn. apply Nat.mul_le_mono_r. apply filter_length_le.
      * split; [exact Hlen|]. intros r Hr.
        destruct (Hrows r Hr) as (H1 & H2 & _ & H3 & H4 & H5). auto.
  - apply H. cbn. split; [reflexivity|]. split; [lia|intros r []].
Qed.

(** The total the page shows as "Total: n combinations" is the number of
    combinations [_generate_combinations] makes for the same signal type,
    whatever the ranges; and every combination has the shape
    [_run_strategy_backtest] reads for that signal type. *)
Theorem generated_combinations_count :
  forall (ranges : BacktestPage.OptimizationRanges) (signal_type : string),
    let combinations :=
      BacktestPage._generate_combinations ranges signal_type in
    List.length combinations
    = BacktestPage._update_optimization_labels_total ranges signal_type
    /\ forall combo, In combo combinations ->
         match combo with
         | BacktestPage.SmaCombo _ _ => signal_type = "SMA 5min"%string
         | BacktestPage.RangeCombo _ _ =>
             signal_type = "Range 24h Low"%string
             \/ signal_type = "Range 7days Low"%string
         | BacktestPage.ScalpingCombo _ _ _ _ _ _ =>
             signal_type = "Scalping 1min"%string
         | BacktestPage.MacdCombo _ _ _ => signal_type = "MACD 15min"%string
         | BacktestPage.RsiCombo _ _ _ =>
             signal_type <> "SMA 5min"%string
             /\ signal_type <> "Range 24h Low"%string
             /\ signal_type <> "Range 7days Low"%string
             /\ signal_type <> "Scalping 1min"%string
             /\ signal_type <> "MACD 15min"%string
         end.
Proof.
  intros ranges signal_type combinations. subst combinations.
  unfold BacktestPage._generate_combinations,
    BacktestPage._update_optimization_labels_total, BacktestPage.is_range.
  destruct (String.eqb_spec signal_type "SMA 5min") as [E1|E1];
    cbv beta iota zeta.
  { split; [now rewrite length_map, length_prod|].
    intros combo Hin. apply in_map_iff in Hin as (x & <- & _). exact E1. }
  destruct (String.eqb_spec signal_type "Range 24h Low") as [E2|E2];
    cbn [orb]; cbv beta iota zeta.
  { split; [now rewrite length_map, length_prod|].
    intros combo Hin. apply in_map_iff in Hin as (x & <- & _). now left. }
  destruct (String.eqb_spec signal_type "Range 7days Low") as [E3|E3];
    cbv beta iota zeta.
  { split; [now rewrite length_map, length_prod|].
    intros combo Hin. apply in_map_iff in Hin as (x & <- & _). now right. }
  destruct (String.eqb_spec signal_type "Scalping 1min") as [E4|E4];
    cbv beta iota zeta.
  { split; [rewrite length_map, !length_prod; ring|].
    intros combo Hin.
    apply in_map_iff in Hin as ([f [s [p [os [ob v]]]]] & <- & _).
    exact E4. }
  destruct (String.eqb_spec signal_type "MACD 15min") as [E5|E5];
    cbv beta iota zeta.
  { split; [rewrite length_map, !length_prod; ring|].
    intros combo Hin. apply in_map_iff in Hin as ([f [s g]] & <- & _).
    exact E5. }
  split; [rewrite length_map, !length_prod; ring|].
  intros combo Hin. apply in_map_iff in Hin as ([p [os ob]] & <- & _).
  auto.
Qed.

(** ** From the tests to the files *)

Section FilesOfARun.
Import Strategies Results.

Lemma forall2_in_l {A B} (R : A -> B -> Prop) l1 l2 x :
  Forall2 R l1 l2 -> In x l1 -> exists y, In y l2 /\ R x y.
Proof.
  induction 1 as [|a b l1 l2 Hab _ IH]; intros Hin; [contradiction|].
  destruct Hin as [<-|Hin].
  - exists b. split; [now left|exact Hab].
  - destruct (IH Hin) as (y & Hy & Hr). exists y. split; [now right|exact Hr].
Qed.

Lemma carried_coins docs rows :
  Forall2 carries docs rows -> map pr_coin docs = map coin rows.
Proof.
  induction 1 as [|doc r docs rows (Hc & _) _ IH]; simpl; [reflexivity|].
  now rewrite Hc, IH.
Qed.

(** The rows the save step keeps from the sorted list: one per coin of the
    run, each the most profitable row of its coin. *)
Lemma kept_rows (rows : list BacktestResult) :
  let kept :=
    dict_values (fold_left first_step (sort_by_profit_desc rows) []) in
  NoDup (map coin kept)
  /\ (forall c, In c (map coin kept) <-> In c (map coin rows))
  /\ forall v, In v kept ->
       In v rows
       /\ forall r, In r rows -> coin r = coin v ->
                    total_profit_usd r <= total_profit_usd v.
Proof.
  intro kept. subst kept.
  set (sorted := sort_by_profit_desc rows).
  assert (Hsorted : sorted_desc sorted) by apply sort_sorted.
  assert (Hperm : forall r, In r sorted <-> In r rows).
  { intro r. split; apply Permutation_in;
      [apply sort_perm|apply Permutation_sym, sort_perm]. }
  pose proof (first_loop_firsts sorted [] [] firsts_nil) as F. simpl in F.
  set (d := fold_left first_step sorted []) in *.
  assert (Hcoins : map coin (dict_values d) = map fst d).
  { unfold dict_values. rewrite map_map. apply map_ext_in.
    intros [k v] Hin. simpl. now destruct (f_first _ _ F k v Hin). }
  assert (Hval : forall v, In v (dict_values d) ->
            In v sorted /\ first_best sorted v).
  { intros v Hv. unfold dict_values in Hv.
    apply in_map_iff in Hv as ([k v'] & <- & Hin). simpl.
    destruct (f_first _ _ F k v' Hin) as [_ Hfirst].
    split.
    - destruct Hfirst as (pre & post & -> & _).
      apply in_or_app. right. now left.
    - now apply first_of_coin_sorted. }
  split; [rewrite Hcoins; apply (f_nodup _ _ F)|]. split.
  - intro c. split.
    + intro Hin. apply in_map_iff in Hin as (v & <- & Hv).
      apply in_map. apply Hperm. now apply Hval.
    + intro Hin. apply in_map_iff in Hin as (r & <- & Hr).
      rewrite Hcoins. apply (f_all _ _ F). now apply Hperm.
  - intros v Hv. destruct (Hval v Hv) as [Hin (pre & post & E & Hpre & Hpost)].
    split; [now apply Hperm|].
    intros r Hr Hc. apply Hperm in Hr. rewrite E in Hr.
    apply in_app_or in Hr as [Hr|[<-|Hr]].
    + apply Qlt_le_weak. now apply Hpre.
    + apply Qle_refl.
    + now apply Hpost.
Qed.

(** The documents of a save step without failure carry the kept rows. *)
Lemma saved_documents env rows signal_name timerange position_size w :
  makedirs_fails env = false ->
  (forall p, write_fails env p = false) ->
  exists docs,
    files (snd (execute_optimization_save env rows signal_name timerange
                  position_size w))
    = files w ++ docs
    /\ Forall2 carries (map snd docs)
         (dict_values (fold_left first_step (sort_by_profit_desc rows) [])).
Proof.
  intros Hmk Hwr.
  set (sorted := sort_by_profit_desc rows).
  pose proof (first_loop_firsts sorted [] [] firsts_nil) as F. simpl in F.
  unfold execute_optimization_save. fold sorted.
  set (d := fold_left first_step sorted []) in *.
  assert (Hcoin : forall k v, In (k, v) d -> coin v = k)
    by (intros k v Hin; now destruct (f_first _ _ F k v Hin)).
  unfold save_best_results, try_except, bind, makedirs.
  change (fold_left first_step sorted []) with d.
  rewrite Hmk. cbn [read_clock].
  set (w1 := mkWorld _ _ _).
  set (stamp := now_stamp env (clock_reads w)) in *.
  destruct (for_each_save_outcome env signal_name timerange position_size
              stamp d w1 Hcoin)
    as (kept & skipped & docs & Hd & Hf & Hc & Hp & Hor & Hskip & _).
  cbv zeta in Hf, Hor.
  destruct (for_each d _ w1) as [res w2] eqn:E.
  cbn [fst snd] in Hf, Hor.
  assert (Hnone : skipped = []).
  { destruct skipped as [|item rest]; [reflexivity|].
    pose proof (Hskip item rest eq_refl) as Hfail.
    rewrite Hwr in Hfail. discriminate. }
  subst skipped. rewrite app_nil_r in Hd. subst kept.
  exists docs. split; [|exact Hc].
  destruct Hor as [-> | ->]; cbn; rewrite Hf; reflexivity.
Qed.

End FilesOfARun.

(** An optimisation run that raises nowhere and whose writes succeed saves
    one document per coin that has a row, and no other: every document is
    for a coin of the selection whose data came and was long enough, comes
    from a test that closed at least one trade, and carries the most
    profitable row of its coin. *)
Theorem optimization_files_of_tested_coins :
  forall (env : Results.Env)
         (fetch : string -> option (list Strategies.Candle))
         (ranges : BacktestPage.OptimizationRanges)
         (selected_coins : list string)
         (signal_type signal_name timerange : string) (position_size : Q)
         (w : Results.World) (all_results : list Strategies.BacktestResult)
         (test_count : nat),
    BacktestPage._run_all_tests fetch ranges selected_coins signal_type
      position_size = Some (all_results, test_count) ->
    Results.makedirs_fails env = false ->
    (forall p, Results.write_fails env p = false) ->
    let run :=
      Results.execute_optimization_save env all_results signal_name
        timerange position_size w in
    exists docs,
      Results.files (snd run) = Results.files w ++ docs
      /\ NoDup (map Results.pr_coin (map snd docs))
      /\ (forall c, In c (map Results.pr_coin (map snd docs))
                    <-> In c (map Strategies.coin all_results))
      /\ forall doc, In doc (map snd docs) ->
           In (Results.pr_coin doc) selected_coins
           /\ tested fetch ranges signal_type (Results.pr_coin doc) = true
           /\ (1 <= Results.pf_total_trades (Results.performance doc))%nat
           /\ exists r,
                In r all_results /\ carries doc r
                /\ forall r', In r' all_results ->
                     Strategies.coin r' = Strategies.coin r ->
                     Strategies.total_profit_usd r'
                     <= Strategies.total_profit_usd r.
Proof.
  intros env fetch ranges selected_coins signal_type signal_name timerange
    position_size w all_results test_count Hrun Hmk Hwr run.
  pose proof (coin_loop_inv fetch ranges signal_type position_size
                selected_coins [] (Some ([], 0%nat))) as Hinv.
  cbn [app] in Hinv. unfold BacktestPage._run_all_tests in Hrun.
  rewrite Hrun in Hinv.
  destruct Hinv as (_ & _ & Hrows);
    [cbn; split; [reflexivity|]; split; [lia|intros r []]|].
  destruct (saved_documents env all_results signal_name timerange
              position_size w Hmk Hwr) as (docs & Hfiles & Hcar).
  destruct (kept_rows all_results) as (Hnd & Hcoins & Hbest).
  exists docs. split; [exact Hfiles|].
  rewrite (carried_coins _ _ Hcar).
  split; [exact Hnd|]. split; [exact Hcoins|].
  intros doc Hdoc.
  destruct (forall2_in_l _ _ _ _ Hcar Hdoc) as (v & Hv & Hcv).
  destruct (Hbest v Hv) as [Hin Hmax].
  destruct (Hrows v Hin) as (Hsel & Htested & _ & Htrades & _).
  destruct Hcv as (Ec & Eb & Ep).
  rewrite Ec, Ep. cbn [Results.pf_total_trades].
  split; [exact Hsel|]. split; [exact Htested|]. split; [exact Htrades|].
  exists v. split; [exact Hin|]. split; [|exact Hmax].
  split; [exact Ec|]. split; [exact Eb|exact Ep].
Qed.

(** A run on two coins of which only BTC has data, with one RSI
    combination. *)
Definition btc_only (c : string) : option (list Strategies.Candle) :=
  if (c =? "BTC")%string then Some swing_candles else None.

Definition one_rsi_combination : BacktestPage.OptimizationRanges :=
  BacktestPage.mkRanges (Some [2%nat]) (Some [30%Z]) (Some [70%Z])
    None None None None None None None None None None None None None.

Lemma optimization_files_of_tested_coins_witness :
  exists rows n,
    BacktestPage._run_all_tests btc_only one_rsi_combination ["BTC"%string; "ETH"%string]
      "RSI 1min" 100 = Some (rows, n)
    /\ rows <> []
    /\ exists docs,
         Results.files
           (snd (Results.execute_optimization_save quiet_env rows "rsi-1min"
                   "24 Hours" 100 fresh_world))
         = Results.files fresh_world ++ docs
         /\ NoDup (map Results.pr_coin (map snd docs)).
Proof.
  assert (E : exists rows n,
            BacktestPage._run_all_tests btc_only one_rsi_combination
              ["BTC"%string; "ETH"%string] "RSI 1min" 100 = Some (rows, n)
            /\ rows <> []).
  { vm_compute. eexists. eexists. split; [reflexivity|discriminate]. }
  destruct E as (rows & n & E & Hne).
  exists rows, n. split; [exact E|]. split; [exact Hne|].
  destruct (optimization_files_of_tested_coins quiet_env btc_only
              one_rsi_combination ["BTC"%string; "ETH"%string] "RSI 1min" "rsi-1min"
              "24 Hours" 100 fresh_world rows n E eq_refl
              (fun _ => eq_refl)) as (docs & Hf & Hnd & _).
  exists docs. split; assumption.
Defined.
